(** * Autopilot control loop of the ads automation workers

    A shallow embedding of the Python workers
    [workers/edit_budget_worker.py], [workers/on_off_adsets_worker.py] and
    [workers/update_status.py], with the properties their specification
    states about them.

    Conventions of the embedding:
    - Python [str] values are Rocq strings of 7-bit characters; [lower],
      [strip] and the regular-expression classes are the ASCII ones.
    - Python [float] values that hold amounts (spend, action counts, cost per
      purchase, thresholds) are rationals [Q]; [float('inf')] and [None] are
      separate constructors of [pyfloat].  Rounding, overflow and NaN are not
      part of the model.
    - Effects (platform calls, sleeps, progress messages, lock and queue
      operations) are appended to an event trace carried in the state. *)

From Stdlib Require Import String Ascii List ZArith QArith Qround Bool Lia.
From stdpp Require Import base option list gmap strings pretty.

Local Open Scope string_scope.
Local Open Scope list_scope.

(** ** Python string primitives (ASCII) *)

Module PyStr.

Definition code (c : ascii) : nat := nat_of_ascii c.

Definition is_upper (c : ascii) : bool :=
  Nat.leb 65 (code c) && Nat.leb (code c) 90.

Definition is_lower (c : ascii) : bool :=
  Nat.leb 97 (code c) && Nat.leb (code c) 122.

Definition is_digit (c : ascii) : bool :=
  Nat.leb 48 (code c) && Nat.leb (code c) 57.

(** The class [[a-zA-Z0-9]]. *)
Definition is_alnum (c : ascii) : bool :=
  is_lower c || is_upper c || is_digit c.

(** [str.isspace] on one ASCII character: TAB..CR, FS..US and the space. *)
Definition isspace (c : ascii) : bool :=
  (Nat.leb 9 (code c) && Nat.leb (code c) 13)
  || (Nat.leb 28 (code c) && Nat.leb (code c) 32).

Definition lower_char (c : ascii) : ascii :=
  if is_upper c then ascii_of_nat (code c + 32) else c.

(** [s.lower()] *)
Fixpoint lower (s : string) : string :=
  match s with
  | EmptyString => EmptyString
  | String c r => String (lower_char c) (lower r)
  end.

Definition upper_char (c : ascii) : ascii :=
  if is_lower c then ascii_of_nat (code c - 32) else c.

(** [s.upper()] *)
Fixpoint upper (s : string) : string :=
  match s with
  | EmptyString => EmptyString
  | String c r => String (upper_char c) (upper r)
  end.

Fixpoint lstrip_by (p : ascii -> bool) (s : string) : string :=
  match s with
  | EmptyString => EmptyString
  | String c r => if p c then lstrip_by p r else s
  end.

Fixpoint rstrip_by (p : ascii -> bool) (s : string) : string :=
  match s with
  | EmptyString => EmptyString
  | String c r =>
      match rstrip_by p r with
      | EmptyString => if p c then EmptyString else String c EmptyString
      | r' => String c r'
      end
  end.

Definition strip_by (p : ascii -> bool) (s : string) : string :=
  rstrip_by p (lstrip_by p s).

(** [s.strip()] *)
Definition strip (s : string) : string := strip_by isspace s.

(** [s.strip(chars)] *)
Definition strip_chars (chars : list ascii) (s : string) : string :=
  strip_by (fun c => existsb (Ascii.eqb c) chars) s.

(** [s.split(sep)] for a one-character separator: never the empty list. *)
Fixpoint split (sep : ascii) (s : string) : list string :=
  match s with
  | EmptyString => [EmptyString]
  | String c r =>
      if Ascii.eqb c sep then EmptyString :: split sep r
      else match split sep r with
           | [] => [String c EmptyString]
           | p :: ps => String c p :: ps
           end
  end.

(** [re.sub(r'\s+', ' ', s)]: every maximal run of whitespace becomes one
    space.  [in_run] tells that the previous character was whitespace. *)
Fixpoint sub_ws_runs (in_run : bool) (s : string) : string :=
  match s with
  | EmptyString => EmptyString
  | String c r =>
      if isspace c
      then (if in_run then sub_ws_runs true r
            else String " "%char (sub_ws_runs true r))
      else String c (sub_ws_runs false r)
  end.

(** [re.sub(r'[^a-zA-Z0-9]', '', s)] *)
Fixpoint keep_alnum (s : string) : string :=
  match s with
  | EmptyString => EmptyString
  | String c r => if is_alnum c then String c (keep_alnum r) else keep_alnum r
  end.

(** [needle in hay] on strings *)
Fixpoint contains (needle hay : string) : bool :=
  String.prefix needle hay
  || match hay with
     | EmptyString => false
     | String _ r => contains needle r
     end.

(** [s.replace(pat, '')] for a non-empty [pat]: the occurrences are removed
    from left to right; [skip] counts the characters of a match still to
    drop. *)
Fixpoint remove_go (pat : string) (skip : nat) (s : string) : string :=
  match s with
  | EmptyString => EmptyString
  | String c r =>
      match skip with
      | S k => remove_go pat k r
      | O =>
          if String.prefix pat s
          then remove_go pat (String.length pat - 1) r
          else String c (remove_go pat 0 r)
      end
  end.

Definition remove_all (pat s : string) : string := remove_go pat 0 s.

(** Truth value of a string: [bool(s)] *)
Definition truthy (s : string) : bool :=
  match s with EmptyString => false | _ => true end.

(** [x in parts] on a list of strings *)
Definition mem (x : string) (parts : list string) : bool :=
  existsb (String.eqb x) parts.

Fixpoint all_chars (p : ascii -> bool) (s : string) : bool :=
  match s with
  | EmptyString => true
  | String c r => p c && all_chars p r
  end.

End PyStr.

(** ** Python values, exceptions and the state-and-exception monad *)

Module Py.

Inductive exn : Type :=
| KeyError (key : string)
| ValueError
| TypeError
| UnboundLocalError (var : string)
| AttributeError
| ZeroDivisionError
| BrokerError.

Inductive exc (A : Type) : Type :=
| Return (a : A)
| Raise (e : exn).
Arguments Return {A} a.
Arguments Raise {A} e.

(** A float-valued slot: a number, [float('inf')] or [None]. *)
Inductive pyfloat : Type :=
| PNum (q : Q)
| PInf
| PNone.

(** A raw JSON field that is turned into a number: missing, a value the
    conversion accepts, or a value it rejects with [ValueError]. *)
Inductive field : Type :=
| Absent
| Num (q : Q)
| Malformed.

Definition Qlt_bool (a b : Q) : bool := negb (Qle_bool b a).

(** [float(d.get(key, default))] *)
Definition to_float (f : field) (default : Q) : exc Q :=
  match f with
  | Absent => Return default
  | Num q => Return q
  | Malformed => Raise ValueError
  end.

(** [int(x)] on a number: truncation toward zero. *)
Definition trunc (q : Q) : Z :=
  if Qle_bool 0 q then Qfloor q else Qceiling q.

(** [int(d.get(key, default))] *)
Definition to_int (f : field) (default : Z) : exc Z :=
  match f with
  | Absent => Return default
  | Num q => Return (trunc q)
  | Malformed => Raise ValueError
  end.

(** [d[key]] on an optional entry *)
Definition getitem {A : Type} (key : string) (o : option A) : exc A :=
  match o with
  | Some a => Return a
  | None => Raise (KeyError key)
  end.

(** [a < b] and [a >= b] of a float slot against a number; comparing [None]
    raises [TypeError]. *)
Definition py_lt (a : pyfloat) (b : Q) : exc bool :=
  match a with
  | PNum q => Return (Qlt_bool q b)
  | PInf => Return false
  | PNone => Raise TypeError
  end.

Definition py_ge (a : pyfloat) (b : Q) : exc bool :=
  match a with
  | PNum q => Return (Qle_bool b q)
  | PInf => Return true
  | PNone => Raise TypeError
  end.

(** A schedule definition ([schedule_data], [matched_schedule]); an entry
    that is [None] is a missing key. *)
Record schedule : Type := Schedule {
  campaign_code : option string;
  watch : option string;
  cpp_metric : field;
  on_off : option string;
  date_start : option string;
  date_end : option string
}.

(** Binding on plain results. *)
Definition and_then {A B : Type} (r : exc A) (k : A -> exc B) : exc B :=
  match r with
  | Return a => k a
  | Raise e => Raise e
  end.

(** [a / b] *)
Definition truediv (a b : Q) : exc Q :=
  if Qeq_bool b 0 then Raise ZeroDivisionError else Return (a / b)%Q.

(** Computations over a state [W] that may raise. *)
Definition M (W A : Type) : Type := W -> exc A * W.

Definition ret {W A : Type} (a : A) : M W A := fun w => (Return a, w).

Definition raise {W A : Type} (e : exn) : M W A := fun w => (Raise e, w).

Definition bind {W A B : Type} (m : M W A) (k : A -> M W B) : M W B :=
  fun w =>
    match m w with
    | (Return a, w') => k a w'
    | (Raise e, w') => (Raise e, w')
    end.

Definition lift {W A : Type} (r : exc A) : M W A := fun w => (r, w).

(** [try: m  except Exception as e: handler e] *)
Definition try_except {W A : Type} (m : M W A) (handler : exn -> M W A)
  : M W A :=
  fun w =>
    match m w with
    | (Return a, w') => (Return a, w')
    | (Raise e, w') => handler e w'
    end.

(** [try: m  finally: fin]; [fin] itself does not raise. *)
Definition try_finally {W A : Type} (m : M W A) (fin : W -> W) : M W A :=
  fun w => let '(r, w') := m w in (r, fin w').

End Py.

Declare Scope py_scope.
Delimit Scope py_scope with py.
Notation "'let*' x ':=' m 'in' k" := (Py.bind m (fun x => k))
  (at level 10, x pattern, m at level 100, k at level 200) : py_scope.
Notation "m ';;' k" := (Py.bind m (fun _ => k))
  (at level 100, k at level 200, right associativity) : py_scope.

(** ** Name resolver: [workers/edit_budget_worker.py] *)

Module EditBudgetWorker.
Import PyStr Py.

(** [normalize_name] *)
Definition normalize_name (name : string) : string :=
  sub_ws_runs false (strip (lower name)).

Record match_record := MatchRecord {
  page_name_found : bool;
  item_name_found : bool;
  campaign_code_found : bool
}.

(** The list comprehension [[p.strip().lower() for p in name.split('-')]] *)
Definition name_parts (campaign_name : string) : list string :=
  map (fun p => lower (strip p)) (split "-"%char campaign_name).

(** [expected.lower() in parts if expected else False] *)
Definition found_in (expected : string) (parts : list string) : bool :=
  if truthy expected then mem (lower expected) parts else false.

(** [parse_campaign_name_flexible] *)
Definition parse_campaign_name_flexible
    (campaign_name expected_page_name expected_item_name
     expected_campaign_code : string) : match_record :=
  if negb (truthy campaign_name) then MatchRecord false false false
  else
    let parts := name_parts campaign_name in
    MatchRecord (found_in expected_page_name parts)
                (found_in expected_item_name parts)
                (found_in expected_campaign_code parts).

(** Lines 87-89 of [find_campaign_id_by_components]: the inputs are
    normalised before they are compared; [None] and the empty string both
    become the empty string. *)
Definition norm_lower_strip (x : option string) : string :=
  match x with
  | Some s => if truthy s then strip (lower s) else ""
  | None => ""
  end.

Definition norm_strip (x : option string) : string :=
  match x with
  | Some s => if truthy s then strip s else ""
  | None => ""
  end.

(** One entry of the [data] array of the campaign listing. *)
Record campaign := Campaign {
  c_name : option string;
  c_id : option string
}.

Definition match_score (r : match_record) : nat :=
  Nat.b2n (page_name_found r) + Nat.b2n (item_name_found r)
  + Nat.b2n (campaign_code_found r).

Definition full_match (r : match_record) : bool :=
  page_name_found r && item_name_found r && campaign_code_found r.

(** The scan of lines 99-118; [campaign["id"]] raises [KeyError] when the
    entry has no id.  The diagnostics built after the loop only feed the
    progress channel; the function then returns the empty string. *)
Fixpoint scan_campaigns (page item code : string) (best_match_score : nat)
    (data : list campaign) : exc string :=
  match data with
  | [] => Return ""
  | c :: rest =>
      let campaign_name := default "" (c_name c) in
      let parsed := parse_campaign_name_flexible campaign_name page item code in
      if Nat.ltb best_match_score (match_score parsed) then
        match c_id c with
        | None => Raise (KeyError "id")
        | Some id =>
            if full_match parsed then Return id
            else scan_campaigns page item code (match_score parsed) rest
        end
      else if full_match parsed then getitem "id" (c_id c)
      else scan_campaigns page item code best_match_score rest
  end.

(** [find_campaign_id_by_components]; [response] is [None] when the request
    raises [requests.RequestException]. *)
Definition find_campaign_id_by_components
    (response : option (list campaign))
    (input_page_name input_item_name input_campaign_code : option string)
  : exc string :=
  match response with
  | None => Return ""
  | Some data =>
      let page := norm_lower_strip input_page_name in
      let item := norm_lower_strip input_item_name in
      let code := norm_strip input_campaign_code in
      if negb (truthy page) || negb (truthy item) || negb (truthy code)
      then Return ""
      else scan_campaigns page item code 0 data
  end.

(** The matcher as the specification words it: both sides go through
    [normalize_name] (lowercase, trim, collapse whitespace) before the
    membership test on the dash-delimited segments. *)
Definition spec_found_in (expected : string) (campaign_name : string) : bool :=
  mem (normalize_name expected)
      (map normalize_name (split "-"%char campaign_name)).

Definition spec_match_components (campaign_name page item code : string)
  : match_record :=
  MatchRecord (spec_found_in page campaign_name)
              (spec_found_in item campaign_name)
              (spec_found_in code campaign_name).

End EditBudgetWorker.

(** ** Status updates and decisions: [workers/update_status.py] *)

Module UpdateStatus.
Import PyStr Py.
Local Open Scope py_scope.

(** [normalize_campaign_code] *)
Definition normalize_campaign_code (code : string) : string :=
  keep_alnum (lower code).

(** [is_campaign_code_match] *)
Definition is_campaign_code_match (campaign_name campaign_code : string)
  : bool :=
  contains (normalize_campaign_code campaign_code)
           (normalize_campaign_code campaign_name).

(** Progress messages, by kind; timestamps and number formatting are left
    out. *)
Inductive message : Type :=
| MsgUpdated (entity_id new_status : string)
| MsgUpdateError (entity_id new_status : string)
| MsgRetry (attempt : nat) (entity_id new_status : string)
| MsgVerified (entity_name new_status : string)
| MsgMismatchWarning (entity_name expected : string) (got : option string)
| MsgGaveUp (entity_name new_status : string) (attempts : nat)
| MsgProcessingAdsets (threshold : Q) (mode : string)
| MsgProcessingCampaign (campaign_name : string)
| MsgNoSales (adset_name : string)
| MsgAlreadyOff (adset_name : string)
| MsgSkipNoSpend (adset_name : string)
| MsgRemain (adset_name current_status : string)
| MsgDecision (adset_name current_status target_status : string)
| MsgUpdating (adset_name current_status target_status : string)
| MsgUpdateOk (adset_name target_status : string)
| MsgUpdateFailed (adset_name target_status : string)
| MsgAlreadyCorrect (adset_name current_status : string)
| MsgComplete (total_processed total_updated : nat)
| MsgError (e : exn)
| MsgNoMatchedData
| MsgCampaignRemains (campaign_id current_status : string)
| MsgCampaignUpdated (campaign_id new_status : string)
| MsgStatusesUpdated (watch : string).

(** What a run does to the outside. *)
Inductive event : Type :=
| EvPost (entity_id new_status : string) (ok : bool)
| EvGet (entity_id : string) (observed : option string)
| EvSleep (seconds : nat)
| EvMsg (m : message)
| EvCommit (last_check_status : string).

(** The advertising platform as the worker sees it: a status write that
    tells whether the request went through without
    [requests.RequestException], and a status read that yields [None] when
    the request fails or the answer has no status. *)
Record platform : Type := Platform {
  pstate : Type;
  post_status : string -> string -> pstate -> bool * pstate;
  read_status : string -> pstate -> option string * pstate
}.

Record world (pf : platform) : Type := World {
  plat : pstate pf;
  trace : list event
}.
Arguments World {pf} plat trace.
Arguments plat {pf} w.
Arguments trace {pf} w.

Definition emit {pf : platform} (e : event) : M (world pf) unit :=
  fun w => (Return tt, World (plat w) (trace w ++ [e])).

Definition say {pf : platform} (m : message) : M (world pf) unit :=
  emit (EvMsg m).

(** [fetch_entity_status] *)
Definition fetch_entity_status {pf : platform} (entity_id : string)
  : M (world pf) (option string) :=
  fun w =>
    let '(st, p) := read_status pf entity_id (plat w) in
    (Return st, World p (trace w ++ [EvGet entity_id st])).

(** [update_facebook_status] *)
Definition update_facebook_status {pf : platform}
    (entity_id new_status : string) : M (world pf) bool :=
  fun w =>
    let '(ok, p) := post_status pf entity_id new_status (plat w) in
    let w' := World p (trace w ++ [EvPost entity_id new_status ok]) in
    (say (if ok then MsgUpdated entity_id new_status
          else MsgUpdateError entity_id new_status);;
     ret ok) w'.

Definition status_is (current_status : option string) (new_status : string)
  : bool :=
  match current_status with
  | Some s => String.eqb s new_status
  | None => false
  end.

(** The body of the [for attempt in range(max_retries + 1)] loop of
    [update_facebook_status_with_retry], over the attempts still to run. *)
Fixpoint retry_attempts {pf : platform}
    (entity_id entity_name new_status : string) (max_retries : nat)
    (attempts : list nat) : M (world pf) bool :=
  match attempts with
  | [] =>
      say (MsgGaveUp entity_name new_status (max_retries + 1));;
      ret false
  | attempt :: rest =>
      (if Nat.ltb 0 attempt
       then say (MsgRetry attempt entity_id new_status) else ret tt);;
      let* success := update_facebook_status entity_id new_status in
      let* verified :=
        (if success : bool then
           emit (EvSleep 1);;
           let* current_status := fetch_entity_status entity_id in
           if status_is current_status new_status
           then say (MsgVerified entity_name new_status);; ret true
           else say (MsgMismatchWarning entity_name new_status
                       current_status);; ret false
         else ret false) in
      if verified : bool then ret true
      else
        (if Nat.ltb attempt max_retries
         then emit (EvSleep (2 ^ attempt)) else ret tt);;
        retry_attempts entity_id entity_name new_status max_retries rest
  end.

(** [update_facebook_status_with_retry] *)
Definition update_facebook_status_with_retry {pf : platform}
    (entity_id entity_name new_status : string) (max_retries : nat)
  : M (world pf) bool :=
  retry_attempts entity_id entity_name new_status max_retries
    (seq 0 (max_retries + 1)).

(** The default of the keyword argument [max_retries]. *)
Definition default_max_retries : nat := 2.

(** *** The trace a run of the retry loop may leave

    What the specification prescribes, attempt by attempt: a note when the
    attempt is a retry; the write; after a write that went through, a pause
    of one second and the read-back, which either verifies the status and
    ends the run with success, or differs and draws the warning; after a
    failed attempt that is not the last, the backoff of [2 ^ attempt]
    seconds; after the last one, the closing failure message. *)

Definition retry_note (entity_id new_status : string) (attempt : nat)
  : list event :=
  if Nat.ltb 0 attempt
  then [EvMsg (MsgRetry attempt entity_id new_status)] else [].

Definition backoff (max_retries attempt : nat) : list event :=
  if Nat.ltb attempt max_retries then [EvSleep (2 ^ attempt)] else [].

Inductive attempts_trace (entity_id entity_name new_status : string)
    (max_retries : nat) : nat -> list event -> bool -> Prop :=
| trace_exhausted :
    attempts_trace entity_id entity_name new_status max_retries
      (max_retries + 1)
      [EvMsg (MsgGaveUp entity_name new_status (max_retries + 1))] false
| trace_verified (attempt : nat) :
    attempt <= max_retries ->
    attempts_trace entity_id entity_name new_status max_retries attempt
      (retry_note entity_id new_status attempt
       ++ [EvPost entity_id new_status true;
           EvMsg (MsgUpdated entity_id new_status);
           EvSleep 1;
           EvGet entity_id (Some new_status);
           EvMsg (MsgVerified entity_name new_status)])
      true
| trace_mismatch (attempt : nat) (got : option string) (later : list event)
    (result : bool) :
    attempt <= max_retries ->
    got <> Some new_status ->
    attempts_trace entity_id entity_name new_status max_retries (S attempt)
      later result ->
    attempts_trace entity_id entity_name new_status max_retries attempt
      (retry_note entity_id new_status attempt
       ++ [EvPost entity_id new_status true;
           EvMsg (MsgUpdated entity_id new_status);
           EvSleep 1;
           EvGet entity_id got;
           EvMsg (MsgMismatchWarning entity_name new_status got)]
       ++ backoff max_retries attempt ++ later)
      result
| trace_transport_failure (attempt : nat) (later : list event)
    (result : bool) :
    attempt <= max_retries ->
    attempts_trace entity_id entity_name new_status max_retries (S attempt)
      later result ->
    attempts_trace entity_id entity_name new_status max_retries attempt
      (retry_note entity_id new_status attempt
       ++ [EvPost entity_id new_status false;
           EvMsg (MsgUpdateError entity_id new_status)]
       ++ backoff max_retries attempt ++ later)
      result.

Definition is_post (e : event) : bool :=
  match e with EvPost _ _ _ => true | _ => false end.

(** The number of status writes in a trace. *)
Definition count_posts (evs : list event) : nat :=
  length (List.filter is_post evs).

(** *** The snapshot handed from the fetch to the decision pass *)

Record adset_info : Type := AdsetInfo {
  NAME : option string;
  STATUS : option string;
  CPP : option pyfloat
}.

Record campaign_info : Type := CampaignInfo {
  campaign_name : option string;
  C_STATUS : option string;
  C_CPP : option pyfloat;
  ADSETS : option (list (string * adset_info))
}.

(** [adset_info["STATUS"] = target_status] *)
Definition set_status (a : adset_info) (target_status : string) : adset_info :=
  AdsetInfo (NAME a) (Some target_status) (CPP a).

(** [campaign_info["STATUS"] = new_status] *)
Definition set_campaign_status (c : campaign_info) (new_status : string)
  : campaign_info :=
  CampaignInfo (campaign_name c) (Some new_status) (C_CPP c) (ADSETS c).

(** What lines 241-284 of [process_adsets] leave behind for one ad set:
    [continue], an assignment to [target_status], or neither (a mode that is
    neither ["OFF"] nor ["ON"] assigns nothing). *)
Inductive decision : Type :=
| Continue
| Target (target_status : string)
| NoAssignment.

Definition decide_adset {pf : platform} (on_off : string) (cpp_metric : Q)
    (adset_cpp : pyfloat) (current_status adset_name : string)
  : M (world pf) decision :=
  match adset_cpp with
  | PInf | PNone =>
      if negb (String.eqb current_status "PAUSED")
      then say (MsgNoSales adset_name);; ret (Target "PAUSED")
      else say (MsgAlreadyOff adset_name);; ret Continue
  | PNum q =>
      if Qeq_bool q 0
      then say (MsgSkipNoSpend adset_name);; ret Continue
      else if String.eqb on_off "OFF" then
        if Qle_bool cpp_metric q then ret (Target "PAUSED")
        else say (MsgRemain adset_name current_status);; ret Continue
      else if String.eqb on_off "ON" then
        if Qlt_bool q cpp_metric then ret (Target "ACTIVE")
        else ret (Target "PAUSED")
      else ret NoAssignment
  end.

(** Lines 286-319: the decision is logged and, when the status differs
    from the target, applied with verification.  The result is the ad set as
    mutated and whether [total_updated] was incremented. *)
Definition apply_target {pf : platform}
    (adset_id adset_name current_status target_status : string)
    (a : adset_info) : M (world pf) (adset_info * bool) :=
  say (MsgDecision adset_name current_status target_status);;
  if negb (String.eqb current_status target_status) then
    say (MsgUpdating adset_name current_status target_status);;
    let* success :=
      update_facebook_status_with_retry adset_id adset_name target_status
        default_max_retries in
    if success : bool then
      say (MsgUpdateOk adset_name target_status);;
      ret (set_status a target_status, true)
    else
      say (MsgUpdateFailed adset_name target_status);;
      ret (a, false)
  else
    say (MsgAlreadyCorrect adset_name current_status);;
    ret (a, false).

(** One iteration of the loop over [adsets.items()].  [target_var] is the
    function-level variable [target_status] as the previous iterations left
    it ([None]: not bound yet); reading it unbound raises.  The result is
    the ad set as mutated, the variable, and whether [total_updated] was
    incremented. *)
Definition process_adset {pf : platform} (on_off : string) (cpp_metric : Q)
    (target_var : option string) (adset_id : string) (a : adset_info)
  : M (world pf) (adset_info * option string * bool) :=
  let adset_cpp := default (PNum 0) (CPP a) in
  let current_status := default "" (STATUS a) in
  let adset_name := default "Unknown" (NAME a) in
  let* d := decide_adset on_off cpp_metric adset_cpp current_status
              adset_name in
  match d with
  | Continue => ret (a, target_var, false)
  | _ =>
      let target_var' :=
        match d with Target t => Some t | _ => target_var end in
      match target_var' with
      | None => raise (UnboundLocalError "target_status")
      | Some target_status =>
          let* (a', updated) :=
            apply_target adset_id adset_name current_status target_status
              a in
          ret (a', target_var', updated)
      end
  end.

(** Loop state: [target_status], [total_processed], [total_updated]. *)
Record counters : Type := Counters {
  target_status_var : option string;
  total_processed : nat;
  total_updated : nat
}.

(** [for adset_id, adset_info in adsets.items()] *)
Fixpoint process_adset_items {pf : platform} (on_off : string)
    (cpp_metric : Q) (adsets : list (string * adset_info)) (st : counters)
  : M (world pf) (list (string * adset_info) * counters) :=
  match adsets with
  | [] => ret ([], st)
  | (adset_id, a) :: rest =>
      let* (a', tv, updated) :=
        process_adset on_off cpp_metric (target_status_var st) adset_id a in
      let st' := Counters tv (total_processed st + 1)
                   (total_updated st + Nat.b2n updated) in
      let* (rest', st'') :=
        process_adset_items on_off cpp_metric rest st' in
      ret ((adset_id, a') :: rest', st'')
  end.

(** [for campaign_id, campaign_info in campaigns_data.items()] *)
Fixpoint process_campaign_items {pf : platform} (code on_off : string)
    (cpp_metric : Q) (campaigns_data : list (string * campaign_info))
    (st : counters)
  : M (world pf) (list (string * campaign_info) * counters) :=
  match campaigns_data with
  | [] => ret ([], st)
  | (campaign_id, c) :: rest =>
      let name := default "" (campaign_name c) in
      if negb (is_campaign_code_match name code) then
        let* (rest', st') :=
          process_campaign_items code on_off cpp_metric rest st in
        ret ((campaign_id, c) :: rest', st')
      else
        say (MsgProcessingCampaign name);;
        let* (adsets', st') :=
          process_adset_items on_off cpp_metric (default [] (ADSETS c)) st in
        let c' := CampaignInfo (campaign_name c) (C_STATUS c) (C_CPP c)
                    (match ADSETS c with
                     | Some _ => Some adsets'
                     | None => None
                     end) in
        let* (rest', st'') :=
          process_campaign_items code on_off cpp_metric rest st' in
        ret ((campaign_id, c') :: rest', st'')
  end.

(** What [process_adsets] returns: the summary with the counts (and, here,
    [campaigns_data] as the run mutated it), or the error message. *)
Inductive adsets_result : Type :=
| Processed (total_processed total_updated : nat) (campaign_code : string)
    (campaigns_data : list (string * campaign_info))
| ErrorInProcessAdsets (e : exn).

(** [process_adsets] *)
Definition process_adsets {pf : platform} (schedule_data : schedule)
    (campaigns_data : list (string * campaign_info))
  : M (world pf) adsets_result :=
  try_except
    (let* code := lift (getitem "campaign_code"
                          (campaign_code schedule_data)) in
     let* threshold := lift (to_float (cpp_metric schedule_data) 0) in
     let* mode := lift (getitem "on_off" (on_off schedule_data)) in
     let mode := upper mode in
     say (MsgProcessingAdsets threshold mode);;
     let* (data', st) :=
       process_campaign_items code mode threshold campaigns_data
         (Counters None 0 0) in
     say (MsgComplete (total_processed st) (total_updated st));;
     ret (Processed (total_processed st) (total_updated st) code data'))
    (fun e => say (MsgError e);; ret (ErrorInProcessAdsets e)).

(** *** What a decision pass may change

    An ad set comes out of the pass as it went in, or with its [STATUS] set
    to a status that a read-back of this ad set returned during the pass. *)

Definition adset_frame (evs : list event) (x y : string * adset_info)
  : Prop :=
  fst y = fst x
  /\ (snd y = snd x
      \/ exists t, snd y = set_status (snd x) t
                   /\ In (EvGet (fst x) (Some t)) evs).

Definition campaign_frame (evs : list event) (x y : string * campaign_info)
  : Prop :=
  fst y = fst x
  /\ campaign_name (snd y) = campaign_name (snd x)
  /\ C_STATUS (snd y) = C_STATUS (snd x)
  /\ C_CPP (snd y) = C_CPP (snd x)
  /\ match ADSETS (snd x), ADSETS (snd y) with
     | Some l, Some l' => Forall2 (adset_frame evs) l l'
     | None, None => True
     | _, _ => False
     end.

(** The outcome of one ad set: untouched, or set to a status [t] that a
    read-back of the ad set returned. *)
Definition status_frame (id : string) (evs : list event)
    (a a' : adset_info) (updated : bool) : Prop :=
  (a' = a /\ updated = false)
  \/ (exists t, a' = set_status a t /\ updated = true
                /\ In (EvGet id (Some t)) evs).

Definition only_messages (evs : list event) : Prop :=
  Forall (fun e => exists m, e = EvMsg m) evs.

(** The ad sets of the campaigns that pass the code filter. *)
Fixpoint adsets_in_scope (code : string)
    (campaigns_data : list (string * campaign_info)) : nat :=
  match campaigns_data with
  | [] => 0
  | (_, c) :: rest =>
      (if is_campaign_code_match (default "" (campaign_name c)) code
       then length (default [] (ADSETS c)) else 0)
      + adsets_in_scope code rest
  end.

(** *** [process_scheduled_campaigns] *)

(** The row of [CampaignsScheduled] for the account. *)
Record campaign_entry : Type := CampaignEntry {
  matched_campaign_data : option (list (string * campaign_info))
}.

(** [for campaign_id, campaign_info in campaign_data.items()] of the
    ["Campaigns"] watch level; the threshold is [int(...)] of the schedule's
    [cpp_metric]. *)
Fixpoint scheduled_campaign_items {pf : platform} (mode : string)
    (threshold : Z) (campaign_data : list (string * campaign_info))
    (update_success : bool)
  : M (world pf) (list (string * campaign_info) * bool) :=
  match campaign_data with
  | [] => ret ([], update_success)
  | (campaign_id, c) :: rest =>
      let current_status := default "" (C_STATUS c) in
      let campaign_cpp := default (PNum 0) (C_CPP c) in
      let* turn_on :=
        (if String.eqb mode "ON"
         then lift (py_lt campaign_cpp (inject_Z threshold))
         else ret false) in
      let* new_status :=
        (if turn_on : bool then ret (Some "ACTIVE")
         else
           let* turn_off :=
             (if String.eqb mode "OFF"
              then lift (py_ge campaign_cpp (inject_Z threshold))
              else ret false) in
           if turn_off : bool then ret (Some "PAUSED") else ret None) in
      match new_status with
      | None =>
          say (MsgCampaignRemains campaign_id current_status);;
          let* (rest', u) :=
            scheduled_campaign_items mode threshold rest update_success in
          ret ((campaign_id, c) :: rest', u)
      | Some new_status =>
          let* (c', u) :=
            (if negb (String.eqb current_status new_status) then
               let* success :=
                 update_facebook_status campaign_id new_status in
               if success : bool then
                 say (MsgCampaignUpdated campaign_id new_status);;
                 ret (set_campaign_status c new_status, true)
               else ret (c, update_success)
             else ret (c, update_success)) in
          let* (rest', u') :=
            scheduled_campaign_items mode threshold rest u in
          ret ((campaign_id, c') :: rest', u')
      end
  end.

Inductive scheduled_result : Type :=
| NoCampaignData
| NoMatchedCampaignData
| ProcessedScheduled (watch : string) (entry : campaign_entry)
| ErrorProcessingScheduled (watch : string) (e : exn).

(** The part of the [try] block that runs once [campaign_entry] is bound. *)
Definition scheduled_body {pf : platform} (watch mode : string)
    (threshold : Z) (entry : campaign_entry)
  : M (world pf) scheduled_result :=
  match matched_campaign_data entry with
  | None | Some [] => say MsgNoMatchedData;; ret NoMatchedCampaignData
  | Some campaign_data =>
      let* (data', update_success) :=
        (if String.eqb watch "Campaigns"
         then scheduled_campaign_items mode threshold campaign_data false
         else ret (campaign_data, false)) in
      if update_success : bool then
        emit (EvCommit "Success");;
        say (MsgStatusesUpdated watch);;
        ret (ProcessedScheduled watch (CampaignEntry (Some data')))
      else ret (ProcessedScheduled watch entry)
  end.

(** [process_scheduled_campaigns]; [row] is what the query for the account
    finds.  An exception raised before [watch] or [campaign_entry] is bound
    makes the handler itself fail on the unbound name, and the task raises. *)
Definition process_scheduled_campaigns {pf : platform}
    (schedule_data : schedule) (row : option campaign_entry)
  : M (world pf) scheduled_result :=
  match campaign_code schedule_data, watch schedule_data with
  | None, _ | _, None => raise (UnboundLocalError "watch")
  | Some _, Some watch =>
      match to_int (cpp_metric schedule_data) 0, on_off schedule_data with
      | Raise _, _ | _, None => raise (UnboundLocalError "campaign_entry")
      | Return threshold, Some mode =>
          match row with
          | None => ret NoCampaignData
          | Some entry =>
              try_except (scheduled_body watch mode threshold entry)
                (fun e =>
                   emit (EvCommit "Failed");;
                   say (MsgError e);;
                   ret (ErrorProcessingScheduled watch e))
          end
      end
  end.

(** *** Platforms to run the workers against *)

(** Accepts every write and never changes anything: every read answers
    [status]. *)
Definition stuck_platform (status : string) : platform :=
  Platform unit (fun _ _ p => (true, p)) (fun _ p => (Some status, p)).

(** Keeps the status it is told: a write always goes through and a read
    answers the last status written for the entity. *)
Definition obedient_platform : platform :=
  Platform (gmap string string)
    (fun entity_id new_status p => (true, <[entity_id := new_status]> p))
    (fun entity_id p => (p !! entity_id, p)).

(** Refuses every write. *)
Definition unreachable_platform : platform :=
  Platform unit (fun _ _ p => (false, p)) (fun _ p => (None, p)).

(** A schedule and a snapshot to run the decision pass on. *)
Definition demo_schedule (mode : string) (threshold : Q) : schedule :=
  Schedule (Some "P100") (Some "AdSets") (Num threshold) (Some mode)
    None None.

Definition demo_campaigns : list (string * campaign_info) :=
  [("c1",
    CampaignInfo (Some "PageA-ItemB-P100") (Some "ACTIVE") (Some (PNum 7))
      (Some [("a1", AdsetInfo (Some "Ad set 1") (Some "ACTIVE") (Some PInf));
             ("a2", AdsetInfo (Some "Ad set 2") (Some "ACTIVE")
                      (Some (PNum 7)));
             ("a3", AdsetInfo (Some "Ad set 3") (Some "PAUSED")
                      (Some (PNum 0)))]))].

End UpdateStatus.

(** ** Metrics and run coordination: [workers/on_off_adsets_worker.py] *)

Module OnOffAdsetsWorker.
Import PyStr Py.
Local Open Scope py_scope.

(** [normalize_campaign_code] *)
Definition normalize_campaign_code (code : string) : string :=
  keep_alnum (lower (strip_chars [" "%char; "-"%char] code)).

(** [is_campaign_code_match] *)
Definition is_campaign_code_match (campaign_name campaign_code : string)
  : bool :=
  contains (normalize_campaign_code campaign_code)
           (normalize_campaign_code campaign_name).

(** *** The metrics engine *)

Definition checkout_actions : list string :=
  [ "omni_initiated_checkout";
    "initiate_checkout";
    "offsite_conversion.fb_pixel_initiate_checkout";
    "checkout_initiated";
    "onsite_conversion.initiate_checkout";
    "onsite_web_initiate_checkout" ].

(** One entry of an item's [actions] list. *)
Record action : Type := Action {
  action_type : option string;
  value : field
}.

(** One item of an insights page; [entity_id] is [item.get(f"{level}_id")]. *)
Record insights_item : Type := Item {
  entity_id : option string;
  entity_name : option string;
  spend : field;
  impressions : field;
  actions : list action
}.

(** [action_type in checkout_actions] *)
Definition is_checkout (a : action) : bool :=
  match action_type a with
  | Some t => mem t checkout_actions
  | None => false
  end.

(** The loop over [actions]: the values of the recognised action types, in
    order; a value that [float] rejects raises. *)
Fixpoint collect_checkout_values (acts : list action) (checkout_values : list Q)
  : exc (list Q) :=
  match acts with
  | [] => Return checkout_values
  | a :: rest =>
      and_then (to_float (value a) 0) (fun action_value =>
        collect_checkout_values rest
          (if is_checkout a then checkout_values ++ [action_value]
           else checkout_values))
  end.

(** [max(l)] on a non-empty list, scanning from the left. *)
Fixpoint max_from (best : Q) (l : list Q) : Q :=
  match l with
  | [] => best
  | x :: r => max_from (if Qlt_bool best x then x else best) r
  end.

(** [max(checkout_values) if checkout_values else 0] *)
Definition initiate_checkout_value (checkout_values : list Q) : Q :=
  match checkout_values with
  | [] => 0
  | x :: r => max_from x r
  end.

(** Lines 150-153: the cost per purchase of one item. *)
Definition cpp_of (spend count : Q) : exc pyfloat :=
  if Qlt_bool 0 count
  then and_then (truediv spend count) (fun q => Return (PNum q))
  else Return PInf.

(** The body of [for item in data_items] up to the value stored in
    [cpp_data]. *)
Definition item_cpp (item : insights_item) : exc pyfloat :=
  and_then (to_float (spend item) 0) (fun spend =>
  and_then (to_float (impressions item) 0) (fun _ =>
  and_then (collect_checkout_values (actions item) []) (fun checkout_values =>
  cpp_of spend (initiate_checkout_value checkout_values)))).


(** A page of a paginated listing: an error answer, or data.  A listing is
    its first page and the pages its [next] cursors lead to; the last page
    has no cursor. *)
Inductive page (A : Type) : Type :=
| PageError
| PageData (items : list A).
Arguments PageError {A}.
Arguments PageData {A} items.

Record raw_adset : Type := RawAdset {
  ra_id : option string;
  ra_name : option string;
  ra_status : option string
}.

Record raw_campaign : Type := RawCampaign {
  rc_id : option string;
  rc_name : option string;
  rc_status : option string;
  rc_adsets : list raw_adset
}.

(** What the platform answers during one run. *)
Record platform : Type := Platform {
  verify_account : string -> bool;
  insights : string -> string -> page insights_item * list (page insights_item);
  campaigns : string -> page raw_campaign * list (page raw_campaign);
  broker_up : bool
}.

Inductive endpoint : Type :=
| VerifyAccount
| Insights (level : string)
| Campaigns.

Inductive message : Type :=
| MsgStarting
| MsgInvalidAccountId
| MsgDateRange
| MsgAccountError
| MsgAccountOk
| MsgFetchingInsights (level : string)
| MsgApiUrl (level : string)
| MsgInsightsError (level : string) (request_no : nat)
| MsgProcessingItems (level : string) (count request_no : nat)
| MsgItemCpp (entity_name : string) (cpp : pyfloat)
| MsgCppSummary (level : string)
| MsgApiError
| MsgFound (total_campaigns : nat)
| MsgNoCampaigns
| MsgCampaign (campaign_name : string) (cpp : pyfloat)
| MsgAdset (adset_name : string) (cpp : pyfloat)
| MsgError (e : exn).

Inductive event : Type :=
| EvRequest (e : endpoint) (account : string) (request_no : nat)
| EvSleepHalf
| EvMsg (m : message)
| EvAcquire (key : string) (acquired : bool)
| EvRelease (key : string)
| EvRpush (key : string) (item : schedule)
| EvDispatch (account : string) (matched_schedule : schedule)
    (campaign_data : list (string * UpdateStatus.campaign_info)).

(** The lock store, the pending queues (each entry is the JSON text of a
    schedule, kept here as the schedule), and the trace. *)
Record world : Type := World {
  locks : gset string;
  queues : gmap string (list schedule);
  trace : list event
}.

Definition emit (e : event) : M world unit :=
  fun w => (Return tt, World (locks w) (queues w) (trace w ++ [e])).

Definition say (m : message) : M world unit := emit (EvMsg m).

(** [for item in data_items]: [cpp_data[entity_id] = cpp] *)
Fixpoint process_items (notify : bool) (total_requests : nat)
    (items : list insights_item) (cpp_data : gmap (option string) pyfloat)
  : M world (gmap (option string) pyfloat) :=
  match items with
  | [] => ret cpp_data
  | item :: rest =>
      let* cpp := lift (item_cpp item) in
      (if notify && Nat.leb total_requests 2
       then say (MsgItemCpp (default "Unknown" (entity_name item)) cpp)
       else ret tt);;
      process_items notify total_requests rest
        (<[entity_id item := cpp]> cpp_data)
  end.

(** [while url] of [get_cpp_from_insights]: [cur] answers the request for
    the current url, [more] are the pages behind its cursor. *)
Fixpoint insights_pages (notify : bool) (account level : string)
    (total_requests : nat) (cur : page insights_item)
    (more : list (page insights_item))
    (cpp_data : gmap (option string) pyfloat)
  : M world (gmap (option string) pyfloat) :=
  let total_requests := S total_requests in
  emit (EvRequest (Insights level) account total_requests);;
  match cur with
  | PageError =>
      (if notify then say (MsgInsightsError level total_requests)
       else ret tt);;
      ret cpp_data
  | PageData data_items =>
      (if notify
       then say (MsgProcessingItems level (length data_items) total_requests)
       else ret tt);;
      let* cpp_data := process_items notify total_requests data_items
                         cpp_data in
      match more with
      | [] => ret cpp_data
      | nxt :: more' =>
          emit EvSleepHalf;;
          insights_pages notify account level total_requests nxt more'
            cpp_data
      end
  end.

(** [get_cpp_from_insights]; the closing summary only writes to the
    progress channel. *)
Definition get_cpp_from_insights (pf : platform) (account level : string)
    (notify : bool) : M world (gmap (option string) pyfloat) :=
  (if notify
   then say (MsgFetchingInsights level);; say (MsgApiUrl level)
   else ret tt);;
  let '(first, more) := insights pf account level in
  let* cpp_data := insights_pages notify account level 0 first more ∅ in
  (if notify then say (MsgCppSummary level) else ret tt);;
  ret cpp_data.

(** *** The run coordinator and the fetch: [fetch_adsets] *)

(** The [ad_account_id] argument: a string, an integer, or [None]. *)
Inductive account_id : Type :=
| IdStr (s : string)
| IdInt (z : Z)
| IdNone.

(** [f"{ad_account_id}"], [str(ad_account_id)] *)
Definition py_str (id : account_id) : string :=
  match id with
  | IdStr s => s
  | IdInt z => pretty z
  | IdNone => "None"
  end.

(** [ad_account_id and isinstance(ad_account_id, (int, str))] *)
Definition valid_account_id (id : account_id) : bool :=
  match id with
  | IdStr s => truthy s
  | IdInt z => negb (Z.eqb z 0)
  | IdNone => false
  end.

Definition lock_key (id : account_id) : string :=
  "lock:fetch_campaign:" ++ py_str id.

Definition pending_schedules_key (id : account_id) : string :=
  "pending_schedules:" ++ py_str id.

(** [str(ad_account_id).replace('act_', '')] *)
Definition clean_id (id : account_id) : string :=
  remove_all "act_" (py_str id).

(** [lock.acquire(blocking=False)]: taken iff nobody holds the key. *)
Definition lock_acquire (key : string) : M world bool :=
  fun w =>
    if decide (key ∈ locks w)
    then (Return false,
          World (locks w) (queues w) (trace w ++ [EvAcquire key false]))
    else (Return true,
          World ({[key]} ∪ locks w) (queues w)
                (trace w ++ [EvAcquire key true])).

(** [lock.release()] by the holder. *)
Definition lock_release (key : string) (w : world) : world :=
  World (locks w ∖ {[key]}) (queues w) (trace w ++ [EvRelease key]).

(** [redis_client_as.rpush(key, json.dumps(item))] *)
Definition rpush (key : string) (item : schedule) : M world unit :=
  fun w =>
    (Return tt,
     World (locks w)
           (<[key := default [] (queues w !! key) ++ [item]]> (queues w))
           (trace w ++ [EvRpush key item])).

(** [fetch_facebook_data(verify_url, ...)]: [true] when the answer has no
    ["error"]. *)
Definition verify (pf : platform) (account : string) : M world bool :=
  emit (EvRequest VerifyAccount account 1);;
  ret (verify_account pf account).

(** [while campaign_url]: [None] when a page answers with an error. *)
Fixpoint campaign_pages (account : string) (request_no : nat)
    (cur : page raw_campaign) (more : list (page raw_campaign))
    (all_campaigns : list raw_campaign)
  : M world (option (list raw_campaign)) :=
  emit (EvRequest Campaigns account (S request_no));;
  match cur with
  | PageError => say MsgApiError;; ret None
  | PageData data =>
      let all_campaigns := all_campaigns ++ data in
      match more with
      | [] => ret (Some all_campaigns)
      | nxt :: more' =>
          emit EvSleepHalf;;
          campaign_pages account (S request_no) nxt more' all_campaigns
      end
  end.

(** The list comprehension that keeps the campaigns whose name matches
    [campaign_code]; [campaign["name"]] may raise [KeyError], and a
    [campaign_code] of [None] raises [AttributeError] at its first use. *)
Fixpoint filter_matching (campaign_code : option string)
    (all_campaigns : list raw_campaign) : exc (list raw_campaign) :=
  match all_campaigns with
  | [] => Return []
  | c :: rest =>
      and_then (getitem "name" (rc_name c)) (fun name =>
      and_then (match campaign_code with
                | Some code => Return (is_campaign_code_match name code)
                | None => Raise AttributeError
                end) (fun keep =>
      and_then (filter_matching campaign_code rest) (fun rest' =>
      Return (if keep : bool then c :: rest' else rest'))))
  end.

(** [d[k] = v] on a dictionary kept in insertion order. *)
Fixpoint dict_set {A : Type} (k : string) (v : A) (d : list (string * A))
  : list (string * A) :=
  match d with
  | [] => [(k, v)]
  | (k', v') :: r =>
      if String.eqb k' k then (k, v) :: r else (k', v') :: dict_set k v r
  end.

(** [for adset in campaign.get("adsets", {}).get("data", [])] *)
Fixpoint build_adsets (cpp_adset_data : gmap (option string) pyfloat)
    (adsets : list raw_adset)
    (acc : list (string * UpdateStatus.adset_info))
  : M world (list (string * UpdateStatus.adset_info)) :=
  match adsets with
  | [] => ret acc
  | a :: rest =>
      let* adset_id := lift (getitem "id" (ra_id a)) in
      let* adset_name := lift (getitem "name" (ra_name a)) in
      let* adset_status := lift (getitem "status" (ra_status a)) in
      let adset_CPP := default PInf (cpp_adset_data !! Some adset_id) in
      let acc := dict_set adset_id
                   (UpdateStatus.AdsetInfo (Some adset_name)
                      (Some adset_status) (Some adset_CPP)) acc in
      say (MsgAdset adset_name adset_CPP);;
      build_adsets cpp_adset_data rest acc
  end.

(** [for campaign in matching_campaigns] *)
Fixpoint build_campaign_data
    (cpp_campaign_data cpp_adset_data : gmap (option string) pyfloat)
    (matching_campaigns : list raw_campaign)
    (campaign_data : list (string * UpdateStatus.campaign_info))
  : M world (list (string * UpdateStatus.campaign_info)) :=
  match matching_campaigns with
  | [] => ret campaign_data
  | c :: rest =>
      let* campaign_id := lift (getitem "id" (rc_id c)) in
      let* campaign_name := lift (getitem "name" (rc_name c)) in
      let* campaign_status := lift (getitem "status" (rc_status c)) in
      let campaign_CPP :=
        default PInf (cpp_campaign_data !! Some campaign_id) in
      say (MsgCampaign campaign_name campaign_CPP);;
      let* adsets := build_adsets cpp_adset_data (rc_adsets c) [] in
      build_campaign_data cpp_campaign_data cpp_adset_data rest
        (dict_set campaign_id
           (UpdateStatus.CampaignInfo (Some campaign_name)
              (Some campaign_status) (Some campaign_CPP) (Some adsets))
           campaign_data)
  end.

(** [process_adsets.apply_async(args=[...])]: hands the snapshot to the
    decision task; raises when the broker cannot be reached. *)
Definition dispatch (pf : platform) (account : string)
    (matched_schedule : schedule)
    (campaign_data : list (string * UpdateStatus.campaign_info))
  : M world unit :=
  if broker_up pf
  then emit (EvDispatch account matched_schedule campaign_data)
  else raise BrokerError.

(** What the task returns, by kind of message. *)
Inductive fetch_result : Type :=
| InvalidAccountId
| Queued (account : string)
| AccountError (account : string)
| CampaignFetchError (account : string)
| NoMatchingCampaigns (account : string)
| Fetched (account : string)
| ErrorDuringFetch (e : exn).

(** The [try] block of [fetch_adsets]. *)
Definition fetch_body (pf : platform) (user_id : Z) (account : string)
    (matched_schedule : schedule) : M world fetch_result :=
  let code := campaign_code matched_schedule in
  let notify := negb (Z.eqb user_id 0) in
  say MsgDateRange;;
  let* reachable := verify pf account in
  if negb reachable then say MsgAccountError;; ret (AccountError account)
  else
    say MsgAccountOk;;
    let* cpp_campaign_data :=
      get_cpp_from_insights pf account "campaign" notify in
    let* cpp_adset_data :=
      get_cpp_from_insights pf account "adset" notify in
    let '(first, more) := campaigns pf account in
    let* listing := campaign_pages account 0 first more [] in
    match listing with
    | None => ret (CampaignFetchError account)
    | Some all_campaigns =>
        let* matching_campaigns := lift (filter_matching code all_campaigns) in
        say (MsgFound (length matching_campaigns));;
        if Nat.eqb (length matching_campaigns) 0
        then say MsgNoCampaigns;; ret (NoMatchingCampaigns account)
        else
          let* campaign_data :=
            build_campaign_data cpp_campaign_data cpp_adset_data
              matching_campaigns [] in
          dispatch pf account matched_schedule campaign_data;;
          ret (Fetched account)
    end.

(** [fetch_adsets] *)
Definition fetch_adsets (pf : platform) (user_id : Z)
    (ad_account_id : account_id) (matched_schedule : schedule)
  : M world fetch_result :=
  say MsgStarting;;
  if negb (valid_account_id ad_account_id)
  then say MsgInvalidAccountId;; ret InvalidAccountId
  else
    let clean_ad_account_id := clean_id ad_account_id in
    let* acquired := lock_acquire (lock_key ad_account_id) in
    if negb acquired then
      rpush (pending_schedules_key ad_account_id) matched_schedule;;
      ret (Queued clean_ad_account_id)
    else
      try_finally
        (try_except
           (fetch_body pf user_id clean_ad_account_id matched_schedule)
           (fun e => say (MsgError e);; ret (ErrorDuringFetch e)))
        (lock_release (lock_key ad_account_id)).

(** Events of the lock store and the pending queues. *)
Definition is_store_event (e : event) : bool :=
  match e with
  | EvAcquire _ _ | EvRelease _ | EvRpush _ _ => true
  | _ => false
  end.

(** [m] leaves the lock store and the queues alone, adds only events that
    are not theirs, and every value it returns satisfies [P]. *)
Definition runs {A : Type} (m : M world A) (P : A -> Prop) : Prop :=
  forall w, exists r evs,
    m w = (r, World (locks w) (queues w) (trace w ++ evs))
    /\ Forall (fun e => is_store_event e = false) evs
    /\ (forall a, r = Return a -> P a).

(** The trivial postcondition. *)
Definition anything {A : Type} (_ : A) : Prop := True.

(** The run left the lock store empty and ended with the release of [key]. *)
Definition released (key : string) (run : exc fetch_result * world) : Prop :=
  locks (snd run) = ∅ /\ last (trace (snd run)) = Some (EvRelease key).

(** The results of a run that got the lock. *)
Definition run_outcome (account : string) (r : fetch_result) : Prop :=
  r = AccountError account \/ r = CampaignFetchError account
  \/ r = NoMatchingCampaigns account \/ r = Fetched account.

(** *** Platforms to run the fetch against *)

Definition demo_items : list insights_item :=
  [Item (Some "a1") (Some "Ad set 1") (Num 10) (Num 200)
     [Action (Some "initiate_checkout") (Num 3);
      Action (Some "omni_initiated_checkout") (Num 5)];
   Item (Some "a2") (Some "Ad set 2") (Num 4) (Num 90) []].

Definition demo_listing : list raw_campaign :=
  [RawCampaign (Some "c1") (Some "PageA-ItemB-P100") (Some "ACTIVE")
     [RawAdset (Some "a1") (Some "Ad set 1") (Some "ACTIVE");
      RawAdset (Some "a2") (Some "Ad set 2") (Some "PAUSED")];
   RawCampaign (Some "c2") (Some "PageA-ItemC-P200") (Some "ACTIVE") []].

Definition demo_campaign_items : list insights_item :=
  [Item (Some "c1") (Some "PageA-ItemB-P100") (Num 14) (Num 290)
     [Action (Some "initiate_checkout") (Num 5)]].

(** Everything answers. *)
Definition demo_platform : platform :=
  Platform (fun _ => true)
    (fun _ level =>
       if String.eqb level "campaign"
       then (PageData demo_campaign_items, [])
       else (PageData demo_items, []))
    (fun _ => (PageData demo_listing, []))
    true.

(** The account cannot be reached. *)
Definition unreachable_account : platform :=
  Platform (fun _ => false)
    (fun _ _ => (PageError, []))
    (fun _ => (PageError, []))
    true.

(** The second page of the campaign listing answers with an error. *)
Definition listing_fails : platform :=
  Platform (fun _ => true)
    (fun _ _ => (PageData demo_items, []))
    (fun _ => (PageData demo_listing, [PageError]))
    true.

(** An insights item carries a spend that is not a number. *)
Definition malformed_insights : platform :=
  Platform (fun _ => true)
    (fun _ _ => (PageData [Item (Some "a1") None Malformed Absent []], []))
    (fun _ => (PageData demo_listing, []))
    true.

(** The task broker is down. *)
Definition broker_down : platform :=
  Platform (fun _ => true)
    (fun _ _ => (PageData demo_items, []))
    (fun _ => (PageData demo_listing, []))
    false.

Definition demo_matched_schedule (code : string) : schedule :=
  Schedule (Some code) (Some "AdSets") (Num 5) (Some "OFF")
    (Some "2025-01-01") (Some "2025-01-31").

Definition idle : world := World ∅ ∅ [].

End OnOffAdsetsWorker.

(** ** Word tests: [workers/on_off_adsets_worker.py], lines 30-46 *)

Module CampaignWords.
Import PyStr.

(** [NON_ALPHANUMERIC_REGEX.sub(' ', text)] with the pattern
    [[^a-zA-Z0-9]+]: every maximal run of characters outside the class
    becomes one space.  [in_run] tells that the previous character was
    outside the class. *)
Fixpoint sub_non_alnum_runs (in_run : bool) (s : string) : string :=
  match s with
  | EmptyString => EmptyString
  | String c r =>
      if is_alnum c then String c (sub_non_alnum_runs false r)
      else if in_run then sub_non_alnum_runs true r
      else String " "%char (sub_non_alnum_runs true r)
  end.

(** [s.split()]: the pieces between runs of whitespace, without the empty
    ones. *)
Fixpoint split_ws (s : string) : list string :=
  match s with
  | EmptyString => []
  | String c r =>
      if isspace c then split_ws r
      else
        match r with
        | EmptyString => [String c EmptyString]
        | String d _ =>
            if isspace d then String c EmptyString :: split_ws r
            else match split_ws r with
                 | w :: ws => String c w :: ws
                 | [] => [String c EmptyString]
                 end
        end
  end.

(** [normalize_text] *)
Definition normalize_text (text : string) : list string :=
  split_ws (lower (sub_non_alnum_runs false text)).

(** [contains_test] *)
Definition contains_test (text : string) : bool :=
  mem "so1" (normalize_text text).

(** [contains_regular] *)
Definition contains_regular (text : string) : bool :=
  mem "so2" (normalize_text text).

(** The lowercase letters and the digits. *)
Definition is_lower_alnum (c : ascii) : bool := is_lower c || is_digit c.

(** The maximal runs of characters of [[a-zA-Z0-9]] of a text, lowercased:
    what [normalize_text] is meant to compute. *)
Fixpoint alnum_words (s : string) : list string :=
  match s with
  | EmptyString => []
  | String c r =>
      if is_alnum c then
        match r with
        | EmptyString => [String (lower_char c) EmptyString]
        | String d _ =>
            if is_alnum d then
              match alnum_words r with
              | w :: ws => String (lower_char c) w :: ws
              | [] => [String (lower_char c) EmptyString]
              end
            else String (lower_char c) EmptyString :: alnum_words r
        end
      else alnum_words r
  end.

End CampaignWords.

(** ** The rest of [workers/edit_budget_worker.py] *)

Module EditBudgetTask.
Import PyStr Py EditBudgetWorker.
Local Open Scope py_scope.

(** All three components are found in the name of the campaign. *)
Definition fully_matches (page item code : string) (c : campaign) : bool :=
  full_match
    (parse_campaign_name_flexible (default "" (c_name c)) page item code).

(** [extract_page_name] *)
Definition extract_page_name (campaign_name : string) : string :=
  if truthy campaign_name
  then strip (lower (hd EmptyString (split "-"%char campaign_name)))
  else "".

(** The [new_budget_dollars] argument: a number, a string, or [None]. *)
Inductive budget : Type :=
| BudgetNum (q : Q)
| BudgetStr (s : string)
| BudgetNone.

(** [f"{new_budget_dollars:.2f}"]: only a number takes the format. *)
Definition format_budget (b : budget) : exc unit :=
  match b with
  | BudgetNum _ => Return tt
  | BudgetStr _ => Raise ValueError
  | BudgetNone => Raise TypeError
  end.

(** What the task meets outside: the answer to the campaign listing
    ([None]: the request raises), the fate of a budget write, and the value
    of [int(float(x) * 100)] as the interpreter computes it on a number and
    on the text of a number ([None]: [float] rejects the text). *)
Record platform : Type := Platform {
  listing : option (list campaign);
  budget_post : string -> Z -> bool;
  minor_units_of_number : Q -> Z;
  minor_units_of_text : string -> option Z
}.

Inductive message : Type :=
| MsgStart
| MsgNoMatch
| MsgInvalidBudget
| MsgBudgetUpdated (campaign_id : string)
| MsgBudgetFailed (campaign_id : string).

Inductive event : Type :=
| EvListing
| EvBudgetPost (campaign_id : string) (daily_budget : Z) (ok : bool)
| EvMsg (m : message).

Definition emit (e : event) : M (list event) unit :=
  fun w => (Return tt, w ++ [e]).

Definition say (m : message) : M (list event) unit := emit (EvMsg m).

(** [s.replace(",", "")] *)
Fixpoint remove_commas (s : string) : string :=
  match s with
  | EmptyString => EmptyString
  | String c r =>
      if Ascii.eqb c ","%char then remove_commas r
      else String c (remove_commas r)
  end.

(** [convert_to_minor_units(user_input, user_id)] with a truthy [user_id]:
    commas are dropped from a string; a value that [float] rejects draws
    the message and [ValueError]. *)
Definition convert_to_minor_units (pf : platform) (user_input : budget)
  : M (list event) Z :=
  match user_input with
  | BudgetNum q => ret (minor_units_of_number pf q)
  | BudgetStr s =>
      match minor_units_of_text pf (remove_commas s) with
      | Some z => ret z
      | None => say MsgInvalidBudget;; raise ValueError
      end
  | BudgetNone => say MsgInvalidBudget;; raise ValueError
  end.

(** [update_campaign_budget] *)
Definition update_campaign_budget (pf : platform) (campaign_id : string)
    (new_daily_budget : Z) : M (list event) bool :=
  let ok := budget_post pf campaign_id new_daily_budget in
  emit (EvBudgetPost campaign_id new_daily_budget ok);; ret ok.

Inductive budget_result : Type :=
| NoExactMatch
| InvalidBudget
| BudgetUpdated (campaign_id : string)
| BudgetUpdateFailed (campaign_id : string).

(** [update_budget_by_campaign_name]; the start message formats the budget
    before anything else is done. *)
Definition update_budget_by_campaign_name (pf : platform)
    (campaign_name : option string) (new_budget_dollars : budget)
    (item_name campaign_code : option string)
  : M (list event) budget_result :=
  let* _ := lift (format_budget new_budget_dollars) in
  say MsgStart;;
  emit EvListing;;
  let* campaign_id :=
    lift (find_campaign_id_by_components (listing pf) campaign_name
            item_name campaign_code) in
  if negb (truthy campaign_id) then say MsgNoMatch;; ret NoExactMatch
  else
    let* converted :=
      try_except
        (let* z := convert_to_minor_units pf new_budget_dollars in
         ret (Some z))
        (fun e =>
           match e with
           | ValueError => say MsgInvalidBudget;; ret None
           | _ => raise e
           end) in
    match converted with
    | None => ret InvalidBudget
    | Some new_daily_budget =>
        let* success :=
          update_campaign_budget pf campaign_id new_daily_budget in
        if success : bool
        then say (MsgBudgetUpdated campaign_id);;
             ret (BudgetUpdated campaign_id)
        else say (MsgBudgetFailed campaign_id);;
             ret (BudgetUpdateFailed campaign_id)
    end.

(** The budget writes of a trace, in order. *)
Fixpoint budget_posts (evs : list event) : list (string * Z * bool) :=
  match evs with
  | [] => []
  | EvBudgetPost id z ok :: rest => (id, z, ok) :: budget_posts rest
  | _ :: rest => budget_posts rest
  end.

End EditBudgetTask.

(** ** Locations: [workers/edit_location_worker.py] *)

Module EditLocationWorker.
Import PyStr Py EditBudgetWorker.
Local Open Scope py_scope.

Record parsed_name : Type := ParsedName {
  page_name : string;
  item_name : string;
  campaign_code : string
}.

(** The rest of a match of [\d+$] once a digit has been read: more digits,
    then the end of the string or a newline that ends it. *)
Fixpoint digits_to_end (s : string) : bool :=
  match s with
  | EmptyString => true
  | String c r =>
      (is_digit c && digits_to_end r)
      || (Ascii.eqb c "010"%char
          && match r with EmptyString => true | _ => false end)
  end.

(** [re.match(r"^P\d+$", part)] *)
Definition is_p_code (part : string) : bool :=
  match part with
  | String "P"%char (String d r) => is_digit d && digits_to_end r
  | _ => false
  end.

(** [parse_campaign_name] *)
Definition parse_campaign_name (campaign_name : string) : parsed_name :=
  if negb (truthy campaign_name) then ParsedName "" "" ""
  else
    match split "-"%char campaign_name with
    | p0 :: p1 :: rest =>
        ParsedName (strip p0) (strip p1)
          (default "" (List.find is_p_code rest))
    | _ => ParsedName campaign_name "" ""
    end.

(** [sep.join(parts)], to build names from their parts. *)
Fixpoint join (sep : string) (parts : list string) : string :=
  match parts with
  | [] => EmptyString
  | [x] => x
  | x :: rest => (x ++ sep ++ join sep rest)%string
  end.

Definition dash_free (s : string) : bool :=
  all_chars (fun c => negb (Ascii.eqb c "-"%char)) s.

(** The targeting payload of step 4. *)
Record targeting : Type := Targeting {
  countries : list string;
  excluded_regions : list string;
  excluded_cities : list (string * nat * string)
}.

(** What the task meets outside: the campaign listing and the ad-set
    listing of a campaign ([None]: the request raises; an ad set may lack
    its id), the keys the two location tables hold for a list of names, and
    the fate of a targeting write. *)
Record platform : Type := Platform {
  listing : option (list campaign);
  ad_sets_of : string -> option (list (option string));
  location_keys : list string -> list string * list string;
  targeting_post : string -> targeting -> bool
}.

Inductive message : Type :=
| MsgStart
| MsgNoMatch
| MsgNoAdSets (campaign_id : string)
| MsgFound (count : nat)
| MsgNoLocationKeys
| MsgAdSetUpdated (ad_set_id : string)
| MsgAdSetFailed (ad_set_id : string)
| MsgFinished (success_count failure_count : nat).

Inductive event : Type :=
| EvListing
| EvAdSets (campaign_id : string)
| EvLocationQuery (names : list string)
| EvTargetingPost (ad_set_id : string) (payload : targeting) (ok : bool)
| EvMsg (m : message).

Definition emit (e : event) : M (list event) unit :=
  fun w => (Return tt, w ++ [e]).

Definition say (m : message) : M (list event) unit := emit (EvMsg m).

(** The list comprehension [[ad_set["id"] for ad_set in ...]] *)
Fixpoint ids_of (ad_sets : list (option string)) : exc (list string) :=
  match ad_sets with
  | [] => Return []
  | a :: rest =>
      and_then (getitem "id" a) (fun id =>
      and_then (ids_of rest) (fun ids => Return (id :: ids)))
  end.

(** [find_ad_set_ids_by_campaign_id] *)
Definition find_ad_set_ids_by_campaign_id (pf : platform)
    (campaign_id : string) : M (list event) (list string) :=
  emit (EvAdSets campaign_id);;
  match ad_sets_of pf campaign_id with
  | None => ret []
  | Some ad_sets => lift (ids_of ad_sets)
  end.

(** [update_ad_set_targeting] *)
Definition update_ad_set_targeting (pf : platform) (ad_set_id : string)
    (payload : targeting) : M (list event) bool :=
  let ok := targeting_post pf ad_set_id payload in
  emit (EvTargetingPost ad_set_id payload ok);; ret ok.

(** Step 5, the loop over [ad_set_ids]. *)
Fixpoint update_all (pf : platform) (payload : targeting)
    (ad_set_ids : list string) (success_count failure_count : nat)
  : M (list event) (nat * nat) :=
  match ad_set_ids with
  | [] => ret (success_count, failure_count)
  | ad_set_id :: rest =>
      let* ok := update_ad_set_targeting pf ad_set_id payload in
      if ok : bool then
        say (MsgAdSetUpdated ad_set_id);;
        update_all pf payload rest (success_count + 1) failure_count
      else
        say (MsgAdSetFailed ad_set_id);;
        update_all pf payload rest success_count (failure_count + 1)
  end.

Inductive location_result : Type :=
| NoExactMatch
| NoAdSets (campaign_id : string)
| NoLocationKeys
| Finished (success_count failure_count : nat).

(** [update_locations_by_campaign_components]; the lookup of the campaign
    is the copy of [find_campaign_id_by_components] in this file, which
    differs from the one of [edit_budget_worker.py] in its log messages
    only. *)
Definition update_locations_by_campaign_components (pf : platform)
    (page_name : option string) (new_regions_city : list string)
    (item_name campaign_code : option string)
  : M (list event) location_result :=
  say MsgStart;;
  emit EvListing;;
  let* campaign_id :=
    lift (find_campaign_id_by_components (listing pf) page_name item_name
            campaign_code) in
  if negb (truthy campaign_id) then say MsgNoMatch;; ret NoExactMatch
  else
    let* ad_set_ids := find_ad_set_ids_by_campaign_id pf campaign_id in
    match ad_set_ids with
    | [] => say (MsgNoAdSets campaign_id);; ret (NoAdSets campaign_id)
    | _ =>
        say (MsgFound (length ad_set_ids));;
        emit (EvLocationQuery new_regions_city);;
        let '(region_keys, city_keys) := location_keys pf new_regions_city in
        match region_keys, city_keys with
        | [], [] => say MsgNoLocationKeys;; ret NoLocationKeys
        | _, _ =>
            let cities_with_radius :=
              map (fun key => (key, 25, "mile")) city_keys in
            let targeting_payload :=
              Targeting ["PH"] region_keys cities_with_radius in
            let* (success_count, failure_count) :=
              update_all pf targeting_payload ad_set_ids 0 0 in
            say (MsgFinished success_count failure_count);;
            ret (Finished success_count failure_count)
        end
    end.

(** The targeting writes of a trace, in order. *)
Fixpoint targeting_posts (evs : list event)
  : list (string * targeting * bool) :=
  match evs with
  | [] => []
  | EvTargetingPost id payload ok :: rest =>
      (id, payload, ok) :: targeting_posts rest
  | _ :: rest => targeting_posts rest
  end.

End EditLocationWorker.

(** ** Measures of a trace of [workers/update_status.py] *)

Module TraceMeasures.
Import UpdateStatus.

(** The seconds spent in [time.sleep]. *)
Fixpoint slept (evs : list event) : nat :=
  match evs with
  | [] => 0
  | EvSleep n :: rest => n + slept rest
  | _ :: rest => slept rest
  end.

Definition is_get (e : event) : bool :=
  match e with EvGet _ _ => true | _ => false end.

Definition is_accepted_post (e : event) : bool :=
  match e with EvPost _ _ true => true | _ => false end.

Definition is_verified_get (new_status : string) (e : event) : bool :=
  match e with
  | EvGet _ (Some s) => String.eqb s new_status
  | _ => false
  end.

Definition count (p : event -> bool) (evs : list event) : nat :=
  length (List.filter p evs).

(** Every platform call of the trace is a write that [allowed] lets through
    or a read of an entity that [readable] lets through. *)
Definition calls_within (allowed : string -> string -> Prop)
    (readable : string -> Prop) (evs : list event) : Prop :=
  Forall (fun e =>
            match e with
            | EvPost entity status _ => allowed entity status
            | EvGet entity _ => readable entity
            | _ => True
            end) evs.

(** The ids of the ad sets of the campaigns that pass the code filter. *)
Fixpoint ids_in_scope (code : string)
    (campaigns_data : list (string * campaign_info)) : list string :=
  match campaigns_data with
  | [] => []
  | (_, c) :: rest =>
      (if is_campaign_code_match (default "" (campaign_name c)) code
       then map fst (default [] (ADSETS c)) else [])
      ++ ids_in_scope code rest
  end.

(** The statuses recorded for the ad sets, campaign by campaign. *)
Definition statuses (campaigns_data : list (string * campaign_info))
  : list (option string) :=
  concat (map (fun x => map (fun y => STATUS (snd y))
                            (default [] (ADSETS (snd x))))
              campaigns_data).

(** The number of positions at which two lists of statuses differ. *)
Fixpoint differences (l l' : list (option string)) : nat :=
  match l, l' with
  | x :: r, y :: r' =>
      (if decide (x = y) then 0 else 1) + differences r r'
  | _, _ => 0
  end.

(** The statuses recorded for the ad sets of one campaign. *)
Definition adset_statuses (adsets : list (string * adset_info))
  : list (option string) :=
  map (fun y => STATUS (snd y)) adsets.

(** A status that a decision pass in mode [mode] may ask for: PAUSED, or
    ACTIVE when the mode is ON. *)
Definition pass_target (mode status : string) : Prop :=
  status = "PAUSED" \/ (status = "ACTIVE" /\ mode = "ON").

(** The platform calls of a decision pass in mode [mode] stay with the ad
    sets [ids] and ask for nothing but a [pass_target]. *)
Definition pass_calls (mode : string) (ids : list string)
    (evs : list event) : Prop :=
  calls_within (fun e s => In e ids /\ pass_target mode s)
               (fun e => In e ids) evs.

(** The variable [target_status] between two iterations: unbound, or bound
    to a [pass_target]. *)
Definition target_var_ok (mode : string) (tv : option string) : Prop :=
  match tv with
  | None => True
  | Some t => pass_target mode t
  end.

(** What the pass over the campaigns of an entry may leave in the trace:
    messages, and writes for campaigns [ids] that ask for ACTIVE in mode
    ["ON"] or for PAUSED in mode ["OFF"]; no read, no sleep, no commit. *)
Definition campaign_write (mode : string) (ids : list string) (e : event)
  : Prop :=
  match e with
  | EvPost entity status _ =>
      In entity ids
      /\ (status = "ACTIVE" /\ mode = "ON"
          \/ status = "PAUSED" /\ mode = "OFF")
  | EvMsg _ => True
  | _ => False
  end.

(** What the end of [process_scheduled_campaigns] adds to the trace. *)
Definition only_commits_and_messages (evs : list event) : Prop :=
  Forall (fun e => (exists s, e = EvCommit s) \/ (exists m, e = EvMsg m)) evs.

End TraceMeasures.

(** ** Measures on the traces of the fetch *)

Module FetchMeasures.
Import PyStr Py OnOffAdsetsWorker.

(** An event of the fetch that goes to [account] or to the progress
    channel: a request for [account], the pause between two pages, or a
    message.  A dispatch and the events of the lock store are not. *)
Definition quiet (account : string) (e : event) : Prop :=
  match e with
  | EvRequest _ a _ => a = account
  | EvSleepHalf | EvMsg _ => True
  | _ => False
  end.

(** [m] leaves the lock store and the queues alone, adds only [quiet]
    events, and every value it returns satisfies [P]. *)
Definition calm {A : Type} (account : string) (m : M world A)
    (P : A -> Prop) : Prop :=
  forall w, exists r evs,
    m w = (r, World (locks w) (queues w) (trace w ++ evs))
    /\ Forall (quiet account) evs
    /\ (forall a, r = Return a -> P a).

(** A campaign of the listing that passes the filter on [code]. *)
Definition matching (code : string) (c : raw_campaign) : Prop :=
  exists name, rc_name c = Some name
               /\ is_campaign_code_match name code = true.

(** An entry of the snapshot built for [code]: the campaign has a name
    that passes the filter, and its ad sets are recorded. *)
Definition snapshot_entry (code : string)
    (x : string * UpdateStatus.campaign_info) : Prop :=
  exists name adsets,
    UpdateStatus.campaign_name (snd x) = Some name
    /\ is_campaign_code_match name code = true
    /\ UpdateStatus.ADSETS (snd x) = Some adsets.

(** What the [try] block of [fetch_adsets] leaves behind: when it reports
    success, its last event is the one dispatch of the run, for the account
    and the schedule of the run, with a snapshot that is not empty and
    holds only campaigns that pass the filter; otherwise there is no
    dispatch at all. *)
Definition fetch_outcome (account : string) (matched_schedule : schedule)
    (r : exc fetch_result) (evs : list event) : Prop :=
  match r with
  | Return (Fetched a) =>
      a = account
      /\ exists evs0 data code,
           evs = evs0 ++ [EvDispatch account matched_schedule data]
           /\ Forall (quiet account) evs0
           /\ campaign_code matched_schedule = Some code
           /\ data <> []
           /\ Forall (snapshot_entry code) data
  | _ => Forall (quiet account) evs
  end.

(** [m] leaves the lock store and the queues alone and ends as
    [fetch_outcome] says. *)
Definition ends (account : string) (matched_schedule : schedule)
    (m : M world fetch_result) : Prop :=
  forall w, exists r evs,
    m w = (r, World (locks w) (queues w) (trace w ++ evs))
    /\ fetch_outcome account matched_schedule r evs.






(** The number of ad sets recorded in a snapshot. *)
Definition recorded_adsets
    (data : list (string * UpdateStatus.campaign_info)) : nat :=
  length (concat (map (fun x => default [] (UpdateStatus.ADSETS (snd x)))
                      data)).

End FetchMeasures.

(** * Properties *)

(** ** Facts about the string primitives *)

Module PyStrFacts.
Import PyStr.

Ltac by_ascii_cases c :=
  destruct c as [[] [] [] [] [] [] [] []]; vm_compute; congruence.

Lemma lower_char_idem c : lower_char (lower_char c) = lower_char c.
Proof. by_ascii_cases c. Qed.

Lemma lower_char_isspace c : isspace (lower_char c) = isspace c.
Proof. by_ascii_cases c. Qed.

Lemma lower_char_dash c :
  Ascii.eqb (lower_char c) "-"%char = Ascii.eqb c "-"%char.
Proof. by_ascii_cases c. Qed.

Lemma lower_char_not_alnum c :
  is_alnum c = false -> is_alnum (lower_char c) = false.
Proof. by_ascii_cases c. Qed.

Lemma lower_idem s : lower (lower s) = lower s.
Proof.
  induction s as [|c s IH]; simpl; [reflexivity|].
  now rewrite lower_char_idem, IH.
Qed.

Lemma truthy_lower s : truthy (lower s) = truthy s.
Proof. now destruct s. Qed.

Lemma lower_empty_inv s : lower s = EmptyString -> s = EmptyString.
Proof. now destruct s. Qed.

Lemma lstrip_lower s :
  lstrip_by isspace (lower s) = lower (lstrip_by isspace s).
Proof.
  induction s as [|c s IH]; simpl; [reflexivity|].
  rewrite lower_char_isspace. now destruct (isspace c).
Qed.

Lemma rstrip_lower s :
  rstrip_by isspace (lower s) = lower (rstrip_by isspace s).
Proof.
  induction s as [|c s IH]; simpl; [reflexivity|].
  rewrite IH, lower_char_isspace.
  destruct (rstrip_by isspace s) as [|d r]; simpl; [|reflexivity].
  now destruct (isspace c).
Qed.

Lemma strip_lower s : strip (lower s) = lower (strip s).
Proof. unfold strip, strip_by. now rewrite lstrip_lower, rstrip_lower. Qed.

Lemma split_lower s :
  split "-"%char (lower s) = map lower (split "-"%char s).
Proof.
  induction s as [|c s IH]; simpl; [reflexivity|].
  rewrite lower_char_dash, IH.
  destruct (Ascii.eqb c "-"%char); simpl; [reflexivity|].
  now destruct (split "-"%char s).
Qed.

Lemma mem_In x l : mem x l = true <-> In x l.
Proof.
  unfold mem. rewrite existsb_exists. split.
  - intros (y & Hy & E). apply String.eqb_eq in E. now subst.
  - intros H. exists x. split; [assumption|apply String.eqb_refl].
Qed.

Lemma mem_same_elements x l l' :
  (forall y, In y l <-> In y l') -> mem x l = mem x l'.
Proof.
  intros H. apply eq_true_iff_eq. rewrite !mem_In. apply H.
Qed.

Lemma contains_empty s : contains EmptyString s = true.
Proof. now destruct s. Qed.

Lemma all_chars_lstrip p q s :
  all_chars p s = true -> all_chars p (lstrip_by q s) = true.
Proof.
  induction s as [|c s IH]; simpl; [reflexivity|].
  intros H. apply andb_true_iff in H as [Hc Hs].
  destruct (q c); [now apply IH|]. simpl. now rewrite Hc, Hs.
Qed.

Lemma all_chars_rstrip p q s :
  all_chars p s = true -> all_chars p (rstrip_by q s) = true.
Proof.
  induction s as [|c s IH]; simpl; [reflexivity|].
  intros H. apply andb_true_iff in H as [Hc Hs].
  specialize (IH Hs).
  destruct (rstrip_by q s) as [|d r].
  - destruct (q c); simpl; [reflexivity|now rewrite Hc].
  - change (all_chars p (String c (String d r)))
      with (p c && all_chars p (String d r)).
    now rewrite Hc, IH.
Qed.

Lemma all_chars_lower_not_alnum s :
  all_chars (fun c => negb (is_alnum c)) s = true ->
  all_chars (fun c => negb (is_alnum c)) (lower s) = true.
Proof.
  induction s as [|c s IH]; simpl; [reflexivity|].
  intros H. apply andb_true_iff in H as [Hc Hs].
  apply negb_true_iff in Hc.
  now rewrite (lower_char_not_alnum _ Hc), IH.
Qed.

Lemma keep_alnum_none s :
  all_chars (fun c => negb (is_alnum c)) s = true ->
  keep_alnum s = EmptyString.
Proof.
  induction s as [|c s IH]; simpl; [reflexivity|].
  intros H. apply andb_true_iff in H as [Hc Hs].
  apply negb_true_iff in Hc. rewrite Hc. now apply IH.
Qed.

End PyStrFacts.

(** ** The code-only filter *)

Module CodeFilterSpec.
Import PyStr PyStrFacts.

Lemma normalize_without_alnum (campaign_code : string) :
  all_chars (fun c => negb (is_alnum c)) campaign_code = true ->
  UpdateStatus.normalize_campaign_code campaign_code = ""
  /\ OnOffAdsetsWorker.normalize_campaign_code campaign_code = "".
Proof.
  intros H. split.
  - unfold UpdateStatus.normalize_campaign_code.
    now apply keep_alnum_none, all_chars_lower_not_alnum.
  - unfold OnOffAdsetsWorker.normalize_campaign_code, strip_chars, strip_by.
    now apply keep_alnum_none, all_chars_lower_not_alnum,
      all_chars_rstrip, all_chars_lstrip.
Qed.

(** C10.  A campaign code that is empty or has no character of
    [[a-zA-Z0-9]] normalises to the empty string, so both copies of
    [is_campaign_code_match] ([update_status.py] and
    [on_off_adsets_worker.py]) answer [True] for every campaign name. *)
Theorem empty_code_matches_every_name (campaign_name campaign_code : string) :
  all_chars (fun c => negb (is_alnum c)) campaign_code = true ->
  UpdateStatus.normalize_campaign_code campaign_code = ""
  /\ OnOffAdsetsWorker.normalize_campaign_code campaign_code = ""
  /\ UpdateStatus.is_campaign_code_match campaign_name campaign_code = true
  /\ OnOffAdsetsWorker.is_campaign_code_match campaign_name campaign_code
     = true.
Proof.
  intros H. destruct (normalize_without_alnum _ H) as [E1 E2].
  unfold UpdateStatus.is_campaign_code_match,
    OnOffAdsetsWorker.is_campaign_code_match.
  rewrite E1, E2, !contains_empty. now repeat split.
Qed.

Lemma empty_code_matches_every_name_witness :
  UpdateStatus.normalize_campaign_code " -/- " = ""
  /\ OnOffAdsetsWorker.normalize_campaign_code " -/- " = ""
  /\ UpdateStatus.is_campaign_code_match "PageA-ItemB-P100" " -/- " = true
  /\ OnOffAdsetsWorker.is_campaign_code_match "PageA-ItemB-P100" " -/- "
     = true.
Proof.
  apply (empty_code_matches_every_name "PageA-ItemB-P100" " -/- ").
  reflexivity.
Defined.

(** With such a code the bulk filter of [fetch_adsets] keeps every campaign
    that has a name. *)
Lemma empty_code_keeps_all (code : string)
    (all_campaigns : list OnOffAdsetsWorker.raw_campaign) :
  all_chars (fun c => negb (is_alnum c)) code = true ->
  Forall (fun c => OnOffAdsetsWorker.rc_name c <> None) all_campaigns ->
  OnOffAdsetsWorker.filter_matching (Some code) all_campaigns
  = Py.Return all_campaigns.
Proof.
  intros Hcode Hall. induction Hall as [|c l Hc Hl IH]; simpl; [reflexivity|].
  destruct (OnOffAdsetsWorker.rc_name c) as [name|]; [|congruence]. simpl.
  destruct (normalize_without_alnum code Hcode) as [_ E].
  unfold OnOffAdsetsWorker.is_campaign_code_match.
  now rewrite E, contains_empty, IH.
Qed.

End CodeFilterSpec.

(** ** The name resolver *)

Module NameResolverSpec.
Import PyStr PyStrFacts Py EditBudgetWorker.

Lemma found_in_iff (expected : string) (parts : list string) :
  found_in expected parts = true
  <-> expected <> "" /\ In (lower expected) parts.
Proof.
  unfold found_in. destruct expected as [|c e]; simpl truthy; cbv iota.
  - split; [discriminate|]. now intros [H _].
  - rewrite mem_In. split; [intros H; split; [discriminate|exact H]|].
    now intros [_ H].
Qed.

Lemma name_parts_In (campaign_name x : string) :
  In x (name_parts campaign_name)
  <-> exists seg, In seg (split "-"%char campaign_name)
                  /\ lower (strip seg) = x.
Proof.
  unfold name_parts. rewrite in_map_iff. split.
  - intros (seg & E & H). now exists seg.
  - intros (seg & H & E). now exists seg.
Qed.

Lemma name_parts_lower (campaign_name : string) :
  name_parts (lower campaign_name) = name_parts campaign_name.
Proof.
  unfold name_parts. rewrite split_lower, map_map. apply map_ext.
  intros seg. now rewrite strip_lower, lower_idem.
Qed.

Lemma found_in_casing (e e' : string) (parts : list string) :
  lower e = lower e' -> found_in e parts = found_in e' parts.
Proof.
  intros E. unfold found_in.
  rewrite <- (truthy_lower e), <- (truthy_lower e'), E. reflexivity.
Qed.

Lemma found_in_same_elements (e : string) (parts parts' : list string) :
  (forall x, In x parts <-> In x parts') ->
  found_in e parts = found_in e parts'.
Proof.
  intros H. unfold found_in. destruct (truthy e); [|reflexivity].
  now apply mem_same_elements.
Qed.

Lemma parse_found (campaign_name page item code : string) :
  campaign_name <> "" ->
  parse_campaign_name_flexible campaign_name page item code
  = MatchRecord (found_in page (name_parts campaign_name))
                (found_in item (name_parts campaign_name))
                (found_in code (name_parts campaign_name)).
Proof.
  intros H. unfold parse_campaign_name_flexible.
  destruct campaign_name; [congruence|reflexivity].
Qed.

Lemma parse_casing (n n' p p' i i' c c' : string) :
  lower n = lower n' -> lower p = lower p' -> lower i = lower i' ->
  lower c = lower c' ->
  parse_campaign_name_flexible n p i c
  = parse_campaign_name_flexible n' p' i' c'.
Proof.
  intros En Ep Ei Ec. unfold parse_campaign_name_flexible.
  rewrite <- (truthy_lower n), <- (truthy_lower n'), En.
  rewrite <- (name_parts_lower n), <- (name_parts_lower n'), En.
  now rewrite (found_in_casing p p' _ Ep), (found_in_casing i i' _ Ei),
    (found_in_casing c c' _ Ec).
Qed.

(** C7, as the code has it.  A component is found exactly when it is
    non-empty and equals, after lowercasing, some dash-delimited segment of
    the name after trimming and lowercasing; the outcome does not depend on
    the casing of either side nor on the order of the segments; the
    normalisation of the inputs in [find_campaign_id_by_components] amounts
    to trimming the expected components; and the two examples of the
    specification hold, also through that function.  Whitespace inside a
    segment is compared as it stands. *)
Theorem name_resolver_matches_segments (n p i c : string) :
  (n <> "" ->
   let r := parse_campaign_name_flexible n p i c in
   let segment_is e :=
     e <> "" /\ exists seg, In seg (split "-"%char n)
                            /\ lower (strip seg) = lower e in
   (page_name_found r = true <-> segment_is p)
   /\ (item_name_found r = true <-> segment_is i)
   /\ (campaign_code_found r = true <-> segment_is c))
  /\ (forall n' p' i' c',
        lower n = lower n' -> lower p = lower p' -> lower i = lower i' ->
        lower c = lower c' ->
        parse_campaign_name_flexible n p i c
        = parse_campaign_name_flexible n' p' i' c')
  /\ (forall n',
        n <> "" -> n' <> "" ->
        (forall x, In x (name_parts n) <-> In x (name_parts n')) ->
        parse_campaign_name_flexible n p i c
        = parse_campaign_name_flexible n' p i c)
  /\ (forall e,
        e <> "" ->
        found_in (norm_lower_strip (Some e)) (name_parts n)
        = found_in (strip e) (name_parts n)
        /\ norm_strip (Some e) = strip e)
  /\ parse_campaign_name_flexible "PageA-ItemB-P100" "pagea" "itemb" "p100"
     = MatchRecord true true true
  /\ parse_campaign_name_flexible "PageA-ItemB-P100" "pagea" "itemc" "p100"
     = MatchRecord true false true
  /\ find_campaign_id_by_components
       (Some [Campaign (Some " pAGEa - ItemB -P100 ") (Some "42")])
       (Some "  PAGEA ") (Some " itemB") (Some "p100  ")
     = Return "42".
Proof.
  split; [|split; [|split; [|split; [|repeat split]]]].
  - intros Hn r segment_is. subst r segment_is.
    rewrite (parse_found n p i c Hn). simpl.
    rewrite !found_in_iff, !name_parts_In. tauto.
  - intros n' p' i' c'. apply parse_casing.
  - intros n' Hn Hn' Hsame.
    rewrite (parse_found n p i c Hn), (parse_found n' p i c Hn').
    now rewrite !(found_in_same_elements _ _ _ Hsame).
  - intros e He. destruct e as [|ch e]; [congruence|].
    split; [|reflexivity].
    unfold norm_lower_strip. cbn [truthy]. rewrite strip_lower.
    apply found_in_casing, lower_idem.
Qed.

Lemma name_resolver_matches_segments_witness :
  page_name_found
    (parse_campaign_name_flexible "Shop - P7" "shop" "bag" "p7") = true
  <-> "shop" <> ""
      /\ exists seg, In seg (split "-"%char "Shop - P7")
                     /\ lower (strip seg) = lower "shop".
Proof.
  refine (proj1 (proj1 (name_resolver_matches_segments
                          "Shop - P7" "shop" "bag" "p7") _)).
  discriminate.
Defined.

(** C7 as stated fails: the specification's normalisation collapses inner
    whitespace, the code's does not.  A page written with two spaces is a
    segment for the former and not for the latter, and the lookup through
    [find_campaign_id_by_components] finds no campaign. *)
Lemma inner_whitespace_is_not_collapsed :
  page_name_found
    (spec_match_components "Page  A-ItemB-P100" "page a" "itemb" "p100")
  = true
  /\ page_name_found
       (parse_campaign_name_flexible "Page  A-ItemB-P100" "page a" "itemb"
          "p100")
     = false
  /\ find_campaign_id_by_components
       (Some [Campaign (Some "Page  A-ItemB-P100") (Some "42")])
       (Some "page a") (Some "itemb") (Some "p100")
     = Return "".
Proof. repeat split. Qed.

End NameResolverSpec.

(** ** The metrics engine *)

Module MetricsSpec.
Import PyStr Py OnOffAdsetsWorker.
Local Open Scope Q_scope.

Lemma Qlt_bool_iff (a b : Q) : Qlt_bool a b = true <-> a < b.
Proof.
  unfold Qlt_bool. rewrite negb_true_iff. split.
  - intros H. apply Qnot_le_lt. intros L.
    apply Qle_bool_iff in L. congruence.
  - intros H. destruct (Qle_bool b a) eqn:E; [|reflexivity].
    apply Qle_bool_iff in E. exfalso. exact (Qlt_not_le _ _ H E).
Qed.

Lemma Qlt_bool_false (a b : Q) : Qlt_bool a b = false <-> ~ a < b.
Proof.
  rewrite <- Qlt_bool_iff. destruct (Qlt_bool a b); split; congruence.
Qed.








End MetricsSpec.

(** ** The apply-and-verify layer *)

Module RetrySpec.
Import PyStr Py UpdateStatus.

Section Retry.
Context {pf : platform}.
Variables entity_id entity_name new_status : string.
Variable max_retries : nat.

Lemma status_is_true cur st : status_is cur st = true <-> cur = Some st.
Proof.
  destruct cur as [s|]; simpl; [|split; discriminate].
  rewrite String.eqb_eq. split; congruence.
Qed.

Lemma note_run (attempt : nat) (w : world pf) :
  (if Nat.ltb 0 attempt
   then say (MsgRetry attempt entity_id new_status) else ret tt) w
  = (Return tt, World (plat w)
                  (trace w ++ retry_note entity_id new_status attempt)).
Proof.
  unfold retry_note. destruct (Nat.ltb 0 attempt); simpl; [reflexivity|].
  unfold ret. rewrite app_nil_r. now destruct w.
Qed.

Lemma backoff_run (attempt : nat) (w : world pf) :
  (if Nat.ltb attempt max_retries
   then emit (EvSleep (2 ^ attempt)) else ret tt) w
  = (Return tt, World (plat w) (trace w ++ backoff max_retries attempt)).
Proof.
  unfold backoff. destruct (Nat.ltb attempt max_retries); simpl; [reflexivity|].
  unfold ret. rewrite app_nil_r. now destruct w.
Qed.

Lemma attempt_step (attempt : nat) (rest : list nat) (w : world pf) :
  retry_attempts entity_id entity_name new_status max_retries
    (attempt :: rest) w
  = let note := retry_note entity_id new_status attempt in
    let '(ok, p1) := post_status pf entity_id new_status (plat w) in
    if ok then
      let '(got, p2) := read_status pf entity_id p1 in
      let seen :=
        note ++ [EvPost entity_id new_status true;
                 EvMsg (MsgUpdated entity_id new_status);
                 EvSleep 1;
                 EvGet entity_id got] in
      if status_is got new_status
      then (Return true,
            World p2 (trace w ++ seen
                      ++ [EvMsg (MsgVerified entity_name new_status)]))
      else retry_attempts entity_id entity_name new_status max_retries rest
             (World p2
                (trace w ++ seen
                 ++ [EvMsg (MsgMismatchWarning entity_name new_status got)]
                 ++ backoff max_retries attempt))
    else retry_attempts entity_id entity_name new_status max_retries rest
           (World p1
              (trace w ++ note
               ++ [EvPost entity_id new_status false;
                   EvMsg (MsgUpdateError entity_id new_status)]
               ++ backoff max_retries attempt)).
Proof.
  cbn [retry_attempts]. unfold retry_note, backoff.
  unfold update_facebook_status, fetch_entity_status.
  destruct (Nat.ltb 0 attempt), (Nat.ltb attempt max_retries);
    unfold bind, say, emit, ret; cbn [plat trace];
    destruct (post_status pf entity_id new_status (plat w)) as [[] p1];
    cbn [plat trace];
    try (destruct (read_status pf entity_id p1) as [got p2];
         destruct (status_is got new_status); cbn [plat trace]);
    repeat (rewrite <- ?app_assoc; cbn [app]); rewrite ?app_nil_r;
    reflexivity.
Qed.

Lemma retry_attempts_trace (n : nat) : forall (a : nat) (w : world pf),
  a + n = max_retries + 1 ->
  exists b p evs,
    retry_attempts entity_id entity_name new_status max_retries (seq a n) w
    = (Return b, World p (trace w ++ evs))
    /\ attempts_trace entity_id entity_name new_status max_retries a evs b.
Proof.
  induction n as [|n IH]; intros a w Ha.
  - exists false, (plat w),
      [EvMsg (MsgGaveUp entity_name new_status (max_retries + 1))].
    split; [reflexivity|].
    replace a with (max_retries + 1) by lia. constructor.
  - cbn [seq]. rewrite attempt_step. cbv zeta.
    destruct (post_status pf entity_id new_status (plat w)) as [[] p1].
    + destruct (read_status pf entity_id p1) as [got p2].
      destruct (status_is got new_status) eqn:E.
      * apply status_is_true in E. subst got.
        eexists true, p2, _. split; [reflexivity|].
        rewrite <- app_assoc. apply trace_verified. lia.
      * edestruct (IH (S a)) as (b & p & evs & Hrun & Htr); [lia|].
        rewrite Hrun. cbn [trace].
        eexists b, p, _. split; [rewrite <- !app_assoc; reflexivity|].
        cbn [app]. 
        apply (trace_mismatch _ _ _ _ a got evs b); [lia| |exact Htr].
        intros ->. rewrite (proj2 (status_is_true _ _) eq_refl) in E.
        discriminate.
    + edestruct (IH (S a)) as (b & p & evs & Hrun & Htr); [lia|].
      rewrite Hrun. cbn [trace].
      eexists b, p, _. split; [rewrite <- !app_assoc; reflexivity|].
      cbn [app].
      apply (trace_transport_failure _ _ _ _ a evs b); [lia|exact Htr].
Qed.

End Retry.

Lemma count_posts_app (l l' : list event) :
  count_posts (l ++ l') = count_posts l + count_posts l'.
Proof. unfold count_posts. now rewrite List.filter_app, length_app. Qed.

Lemma count_posts_note (entity_id new_status : string) (attempt : nat) :
  count_posts (retry_note entity_id new_status attempt) = 0.
Proof. unfold retry_note. now destruct (Nat.ltb 0 attempt). Qed.

Lemma count_posts_backoff (max_retries attempt : nat) :
  count_posts (backoff max_retries attempt) = 0.
Proof. unfold backoff. now destruct (Nat.ltb attempt max_retries). Qed.

Lemma trace_posts_bounded (entity_id entity_name new_status : string)
    (max_retries attempt : nat) (evs : list event) (result : bool) :
  attempts_trace entity_id entity_name new_status max_retries attempt evs
    result ->
  count_posts evs + attempt <= max_retries + 1.
Proof.
  induction 1; rewrite ?count_posts_app, ?count_posts_note,
    ?count_posts_backoff; cbn in *; lia.
Qed.

Lemma not_in_note (entity_id new_status : string) (attempt : nat)
    (id : string) (got : option string) :
  ~ In (EvGet id got) (retry_note entity_id new_status attempt).
Proof.
  unfold retry_note. destruct (Nat.ltb 0 attempt); simpl; [|tauto].
  intros [H|[]]. discriminate.
Qed.

Lemma not_in_backoff (max_retries attempt : nat) (id : string)
    (got : option string) :
  ~ In (EvGet id got) (backoff max_retries attempt).
Proof.
  unfold backoff. destruct (Nat.ltb attempt max_retries); simpl; [|tauto].
  intros [H|[]]. discriminate.
Qed.

Lemma trace_success_iff_verified (entity_id entity_name new_status : string)
    (max_retries attempt : nat) (evs : list event) (result : bool) :
  attempts_trace entity_id entity_name new_status max_retries attempt evs
    result ->
  result = true <-> In (EvGet entity_id (Some new_status)) evs.
Proof.
  induction 1 as [|a Ha|a got later r Ha Hgot Hlater IH|a later r Ha Hlater IH].
  - split; [discriminate|]. intros [H|[]]. discriminate.
  - split; [|reflexivity]. intros _. apply in_or_app. right. simpl. tauto.
  - rewrite IH. rewrite !in_app_iff. split; [tauto|].
    intros [H|[H|[H|H]]]; [now apply not_in_note in H| |
                            now apply not_in_backoff in H|exact H].
    simpl in H. destruct H as [H|[H|[H|[H|[H|[]]]]]]; try discriminate.
    congruence.
  - rewrite IH. rewrite !in_app_iff. split; [tauto|].
    intros [H|[H|[H|H]]]; [now apply not_in_note in H| |
                            now apply not_in_backoff in H|exact H].
    simpl in H. destruct H as [H|[H|[]]]; discriminate.
Qed.

(** C4.  A run of [update_facebook_status_with_retry] always returns; the
    events it adds follow the prescribed shape from attempt 0 (write; after a
    write that went through, a one-second pause and the read-back; a
    read-back that differs draws the warning and is followed, like a failed
    write, by the backoff of [2 ^ attempt] seconds and the next attempt);
    there are at most [max_retries + 1] writes, 3 with the default budget
    of 2; and the result is [True] exactly when a read-back gave the target
    status. *)
Theorem retry_verifies_within_budget (pf : platform)
    (entity_id entity_name new_status : string) (max_retries : nat)
    (w : world pf) :
  exists (result : bool) (p : pstate pf) (evs : list event),
    update_facebook_status_with_retry entity_id entity_name new_status
      max_retries w
    = (Return result, World p (trace w ++ evs))
    /\ attempts_trace entity_id entity_name new_status max_retries 0 evs
         result
    /\ count_posts evs <= max_retries + 1
    /\ (max_retries = default_max_retries -> count_posts evs <= 3)
    /\ (result = true <-> In (EvGet entity_id (Some new_status)) evs).
Proof.
  destruct (retry_attempts_trace entity_id entity_name new_status max_retries
              (max_retries + 1) 0 w eq_refl)
    as (result & p & evs & Hrun & Htrace).
  exists result, p, evs. split; [exact Hrun|]. split; [exact Htrace|].
  pose proof (trace_posts_bounded _ _ _ _ _ _ _ Htrace) as Hposts.
  repeat split.
  - lia.
  - intros ->. unfold default_max_retries in Hposts. lia.
  - now apply (trace_success_iff_verified _ _ _ _ _ _ _ Htrace).
  - now apply (trace_success_iff_verified _ _ _ _ _ _ _ Htrace).
Qed.

Lemma retry_verifies_within_budget_witness :
  exists (result : bool) (p : pstate (stuck_platform "ACTIVE"))
         (evs : list event),
    update_facebook_status_with_retry "a1" "Ad set 1" "PAUSED"
      default_max_retries (World (tt : pstate (stuck_platform "ACTIVE")) [])
    = (Return result, World p ([] ++ evs))
    /\ count_posts evs <= 3.
Proof.
  destruct (retry_verifies_within_budget (stuck_platform "ACTIVE")
              "a1" "Ad set 1" "PAUSED" default_max_retries
              (World (tt : pstate (stuck_platform "ACTIVE")) []))
    as (result & p & evs & Hrun & _ & _ & Hthree & _).
  exists result, p, evs. split; [exact Hrun|]. apply Hthree. reflexivity.
Defined.

(** On a platform that accepts the write and never changes the status, the
    run makes three writes, reads back three times, waits 1 and 2 seconds
    between the attempts, and reports failure. *)
Example stuck_platform_exhausts_the_budget :
  update_facebook_status_with_retry "a1" "Ad set 1" "PAUSED"
    default_max_retries (World (tt : pstate (stuck_platform "ACTIVE")) [])
  = (Return false,
     @World (stuck_platform "ACTIVE") tt
       [EvPost "a1" "PAUSED" true; EvMsg (MsgUpdated "a1" "PAUSED");
        EvSleep 1; EvGet "a1" (Some "ACTIVE");
        EvMsg (MsgMismatchWarning "Ad set 1" "PAUSED" (Some "ACTIVE"));
        EvSleep 1;
        EvMsg (MsgRetry 1 "a1" "PAUSED");
        EvPost "a1" "PAUSED" true; EvMsg (MsgUpdated "a1" "PAUSED");
        EvSleep 1; EvGet "a1" (Some "ACTIVE");
        EvMsg (MsgMismatchWarning "Ad set 1" "PAUSED" (Some "ACTIVE"));
        EvSleep 2;
        EvMsg (MsgRetry 2 "a1" "PAUSED");
        EvPost "a1" "PAUSED" true; EvMsg (MsgUpdated "a1" "PAUSED");
        EvSleep 1; EvGet "a1" (Some "ACTIVE");
        EvMsg (MsgMismatchWarning "Ad set 1" "PAUSED" (Some "ACTIVE"));
        EvMsg (MsgGaveUp "Ad set 1" "PAUSED" 3)]).
Proof. reflexivity. Qed.

End RetrySpec.

(** ** The decision pass over ad sets and campaigns *)

Module DecisionSpec.
Import PyStr Py UpdateStatus.

Section Decision.
Context {pf : platform}.

Lemma retry_run (entity_id entity_name new_status : string)
    (max_retries : nat) (w : world pf) :
  exists ok p evs,
    update_facebook_status_with_retry entity_id entity_name new_status
      max_retries w
    = (Return ok, World p (trace w ++ evs))
    /\ (ok = true -> In (EvGet entity_id (Some new_status)) evs).
Proof.
  destruct (RetrySpec.retry_attempts_trace entity_id entity_name new_status
              max_retries (max_retries + 1) 0 w eq_refl)
    as (ok & p & evs & Hrun & Htrace).
  exists ok, p, evs. split; [exact Hrun|].
  apply (RetrySpec.trace_success_iff_verified _ _ _ _ _ _ _ Htrace).
Qed.

Lemma decide_run (mode : string) (threshold : Q) (cpp : pyfloat)
    (current name : string) (w : world pf) :
  exists d msgs,
    decide_adset mode threshold cpp current name w
    = (Return d, World (plat w) (trace w ++ msgs))
    /\ only_messages msgs
    /\ (mode = "ON" \/ mode = "OFF" -> d <> NoAssignment).
Proof.
  unfold decide_adset, only_messages.
  destruct cpp as [q| |];
    [destruct (Qeq_bool q 0);
     [|destruct (String.eqb mode "OFF") eqn:Eoff;
       [destruct (Qle_bool threshold q)
       |destruct (String.eqb mode "ON") eqn:Eon;
        [destruct (Qlt_bool q threshold)|]]]
    |destruct (String.eqb current "PAUSED")
    |destruct (String.eqb current "PAUSED")];
    cbn;
    first [ eexists _, [_]; split; [reflexivity|]
          | eexists _, []; split; [rewrite app_nil_r; now destruct w|] ];
    (split; [repeat constructor; eauto|]); try discriminate.
  intros [->| ->]; discriminate.
Qed.


Lemma apply_target_eq (id name current t : string) (a : adset_info)
    (w : world pf) :
  apply_target id name current t a w
  = if String.eqb current t
    then (Return (a, false),
          World (plat w)
            (trace w ++ [EvMsg (MsgDecision name current t);
                         EvMsg (MsgAlreadyCorrect name current)]))
    else
      match update_facebook_status_with_retry id name t default_max_retries
              (World (plat w)
                 (trace w ++ [EvMsg (MsgDecision name current t);
                              EvMsg (MsgUpdating name current t)]))
      with
      | (Return true, w2) =>
          (Return (set_status a t, true),
           World (plat w2) (trace w2 ++ [EvMsg (MsgUpdateOk name t)]))
      | (Return false, w2) =>
          (Return (a, false),
           World (plat w2) (trace w2 ++ [EvMsg (MsgUpdateFailed name t)]))
      | (Raise e, w2) => (Raise e, w2)
      end.
Proof.
  unfold apply_target. unfold bind at 1. cbn [say emit plat trace].
  destruct (String.eqb current t); cbn [negb].
  - unfold bind, say, emit, ret. cbn [plat trace].
    now rewrite <- app_assoc.
  - unfold bind at 1. cbn [say emit plat trace]. rewrite <- app_assoc.
    cbn [app]. unfold bind at 1.
    destruct (update_facebook_status_with_retry _ _ _ _ _) as [[[]|e] w2];
      reflexivity.
Qed.

Lemma apply_target_run (id name current t : string) (a : adset_info)
    (w : world pf) :
  exists a' updated p evs,
    apply_target id name current t a w
    = (Return (a', updated), World p (trace w ++ evs))
    /\ status_frame id evs a a' updated.
Proof.
  rewrite apply_target_eq. destruct (String.eqb current t).
  - eexists a, false, (plat w), _. split; [reflexivity|]. now left.
  - edestruct (retry_run id name t default_max_retries) as
      (ok & p & evs & Hrun & Hok).
    rewrite Hrun. cbn [plat trace]. destruct ok.
    + eexists _, true, p, _. split; [rewrite <- !app_assoc; reflexivity|].
      right. exists t. repeat split.
      cbn [app]. right. right. apply in_or_app. left. now apply Hok.
    + eexists a, false, p, _. split; [rewrite <- !app_assoc; reflexivity|].
      now left.
Qed.

Lemma process_adset_run (mode : string) (threshold : Q)
    (tv : option string) (id : string) (a : adset_info) (w : world pf) :
  exists r p evs,
    process_adset mode threshold tv id a w
    = (r, World p (trace w ++ evs))
    /\ match r with
       | Return (a', _, updated) => status_frame id evs a a' updated
       | Raise _ => ~ (mode = "ON" \/ mode = "OFF")
       end.
Proof.
  unfold process_adset.
  edestruct (decide_run mode threshold) as (d & msgs & Hd & _ & Hmode).
  unfold bind at 1. rewrite Hd.
  assert (Htarget : forall t tv',
    exists r p evs,
      (let* (a', updated) :=
         apply_target id (default "Unknown" (NAME a))
           (default "" (STATUS a)) t a in
       (ret (a', tv', updated)
        : M (world pf) (adset_info * option string * bool)))%py
        (World (plat w) (trace w ++ msgs))
      = (r, World p (trace w ++ evs))
      /\ match r with
         | Return (a', _, updated) => status_frame id evs a a' updated
         | Raise _ => ~ (mode = "ON" \/ mode = "OFF")
         end).
  { intros t tv'. unfold bind.
    edestruct (apply_target_run id) as (a' & u & p & evs & Hrun & Hframe).
    rewrite Hrun. cbn [trace]. unfold ret.
    eexists _, p, _. split; [rewrite <- app_assoc; reflexivity|].
    cbn beta iota. destruct Hframe as [H|(t' & H1 & H2 & H3)]; [now left|].
    right. exists t'. repeat split; try assumption.
    apply in_or_app. now right. }
  destruct d as [|t|].
  - eexists _, (plat w), msgs. split; [reflexivity|]. now left.
  - apply Htarget.
  - destruct tv as [t|]; [apply Htarget|].
    eexists _, (plat w), msgs. split; [reflexivity|].
    intros H. now apply (Hmode H).
Qed.


Lemma adset_frame_more (evs evs' : list event) (x y : string * adset_info) :
  (forall e, In e evs -> In e evs') ->
  adset_frame evs x y -> adset_frame evs' x y.
Proof.
  intros Hsub [Hid [H|(t & H1 & H2)]]; split; try assumption;
    [now left|right; exists t; auto].
Qed.

Lemma campaign_frame_more (evs evs' : list event)
    (x y : string * campaign_info) :
  (forall e, In e evs -> In e evs') ->
  campaign_frame evs x y -> campaign_frame evs' x y.
Proof.
  intros Hsub (H1 & H2 & H3 & H4 & H5). repeat split; try assumption.
  destruct (ADSETS (snd x)), (ADSETS (snd y)); try assumption.
  eapply Forall2_impl; [exact H5|].
  intros a b. now apply adset_frame_more.
Qed.

Lemma process_adset_items_run (mode : string) (threshold : Q)
    (adsets : list (string * adset_info)) :
  forall (st : counters) (w : world pf),
  exists r p evs,
    process_adset_items mode threshold adsets st w
    = (r, World p (trace w ++ evs))
    /\ match r with
       | Return (adsets', st') =>
           Forall2 (adset_frame evs) adsets adsets'
           /\ total_processed st' = total_processed st + length adsets
       | Raise _ => ~ (mode = "ON" \/ mode = "OFF")
       end.
Proof.
  induction adsets as [|[id a] rest IH]; intros st w.
  - exists (Return ([], st)), (plat w), []. rewrite app_nil_r. cbn.
    split; [now destruct w|]. split; [constructor|lia].
  - cbn [process_adset_items]. unfold bind at 1.
    destruct (process_adset_run mode threshold (target_status_var st) id a w)
      as (r & p & evs & Hrun & Hr).
    rewrite Hrun. destruct r as [[[a' tv] updated]|e].
    + match goal with
      | |- context [process_adset_items _ _ rest ?s] =>
          destruct (IH s (World p (trace w ++ evs)))
            as (r2 & p2 & evs2 & Hrun2 & Hr2)
      end.
      unfold bind at 1. rewrite Hrun2. cbn [trace].
      destruct r2 as [[rest' st']|e].
      * eexists _, p2, _. split; [rewrite <- app_assoc; reflexivity|].
        cbn beta iota. destruct Hr2 as [Hf Hn]. split.
        -- constructor.
           ++ split; [reflexivity|]. cbn [fst snd].
              destruct Hr as [[-> _]|(t & -> & _ & Hin)]; [now left|].
              right. exists t. split; [reflexivity|].
              apply in_or_app. now left.
           ++ eapply Forall2_impl; [exact Hf|].
              intros x y. apply adset_frame_more.
              intros e He. apply in_or_app. now right.
        -- rewrite Hn. cbn [total_processed length]. lia.
      * eexists _, p2, _. split; [rewrite <- app_assoc; reflexivity|].
        exact Hr2.
    + eexists _, p, _. split; [reflexivity|]. exact Hr.
Qed.

Lemma process_campaign_items_run (code mode : string) (threshold : Q)
    (data : list (string * campaign_info)) :
  forall (st : counters) (w : world pf),
  exists r p evs,
    process_campaign_items code mode threshold data st w
    = (r, World p (trace w ++ evs))
    /\ match r with
       | Return (data', st') =>
           Forall2 (campaign_frame evs) data data'
           /\ total_processed st'
              = total_processed st + adsets_in_scope code data
       | Raise _ => ~ (mode = "ON" \/ mode = "OFF")
       end.
Proof.
  induction data as [|[id c] rest IH]; intros st w.
  - exists (Return ([], st)), (plat w), []. rewrite app_nil_r. cbn.
    split; [now destruct w|]. split; [constructor|lia].
  - cbn [process_campaign_items adsets_in_scope].
    destruct (is_campaign_code_match (default "" (campaign_name c)) code);
      cbn [negb].
    + unfold bind at 1. cbn [say emit plat trace].
      destruct (process_adset_items_run mode threshold
                  (default [] (ADSETS c)) st
                  (World (plat w)
                     (trace w ++ [EvMsg (MsgProcessingCampaign
                                           (default "" (campaign_name c)))])))
        as (r & p & evs & Hrun & Hr).
      unfold bind at 1. rewrite Hrun. cbn [trace].
      destruct r as [[adsets' st']|e].
      * unfold bind at 1.
        match goal with
        | |- context [process_campaign_items _ _ _ rest st' ?w1] =>
            destruct (IH st' w1) as (r2 & p2 & evs2 & Hrun2 & Hr2)
        end.
        rewrite Hrun2. cbn [trace].
        destruct r2 as [[rest' st'']|e].
        -- eexists _, p2, _.
           split; [rewrite <- !app_assoc; reflexivity|].
           cbn beta iota. destruct Hr as [Hf Hn], Hr2 as [Hf2 Hn2]. split.
           ++ constructor.
              ** repeat split. cbn [fst snd ADSETS].
                 destruct (ADSETS c) as [l|]; [|exact I].
                 eapply Forall2_impl; [exact Hf|].
                 intros x y. apply adset_frame_more.
                 intros e He. cbn [app]. right.
                 apply in_or_app. now left.
              ** eapply Forall2_impl; [exact Hf2|].
                 intros x y. apply campaign_frame_more.
                 intros e He. cbn [app]. right.
                 apply in_or_app. now right.
           ++ rewrite Hn2, Hn. lia.
        -- eexists _, p2, _.
           split; [rewrite <- !app_assoc; reflexivity|]. exact Hr2.
      * eexists _, p, _. split; [rewrite <- !app_assoc; reflexivity|].
        exact Hr.
    + destruct (IH st w) as (r2 & p2 & evs2 & Hrun2 & Hr2).
      unfold bind at 1. rewrite Hrun2.
      destruct r2 as [[rest' st'']|e].
      * eexists _, p2, _. split; [reflexivity|].
        cbn beta iota. destruct Hr2 as [Hf2 Hn2]. split.
        -- constructor; [|exact Hf2]. repeat split. cbn [fst snd].
           destruct (ADSETS c) as [l|]; [|exact I].
           clear. induction l; constructor; [|assumption].
           split; [reflexivity|now left].
        -- rewrite Hn2. lia.
      * eexists _, p2, _. split; [reflexivity|]. exact Hr2.
Qed.


Lemma process_adsets_run (sd : schedule)
    (data : list (string * campaign_info)) (w : world pf)
    (code : string) (threshold : Q) (mode : string) :
  campaign_code sd = Some code ->
  to_float (cpp_metric sd) 0 = Return threshold ->
  on_off sd = Some mode ->
  upper mode = "ON" \/ upper mode = "OFF" ->
  exists n u data' p evs,
    process_adsets sd data w
    = (Return (Processed n u code data'), World p (trace w ++ evs))
    /\ n = adsets_in_scope code data
    /\ Forall2 (campaign_frame evs) data data'.
Proof.
  intros Hcode Hthr Hmode Hon.
  unfold process_adsets, try_except. rewrite Hcode, Hthr, Hmode.
  cbn [getitem]. unfold bind at 1. unfold bind at 1. unfold bind at 1.
  unfold bind at 1. unfold lift. cbv beta iota. cbn [say emit plat trace].
  unfold bind at 1.
  match goal with
  | |- context [process_campaign_items _ _ _ _ ?s ?w1] =>
      destruct (process_campaign_items_run code (upper mode) threshold data
                  s w1) as (r & p & evs & Hrun & Hr)
  end.
  rewrite Hrun. cbn [trace].
  destruct r as [[data' st]|e]; [|now elim Hr].
  destruct Hr as [Hf Hn]. cbn [total_processed] in Hn.
  unfold bind, say, emit, ret. cbn [plat trace].
  eexists _, _, data', p, _.
  split; [rewrite <- !app_assoc; reflexivity|]. split; [exact Hn|].
  eapply Forall2_impl; [exact Hf|].
  intros x y. apply campaign_frame_more.
  intros e He. cbn [app]. right. apply in_or_app. now left.
Qed.


End Decision.



(** On the platform that accepts writes and changes nothing, the pass over
    [demo_campaigns] tries ad sets 1 and 2 three times each, skips ad set 3,
    counts three processed and none updated, and hands the snapshot back as
    it was. *)
Example stuck_platform_leaves_snapshot :
  let '(r, w) :=
    process_adsets (demo_schedule "OFF" 5) demo_campaigns
      (World (tt : pstate (stuck_platform "ACTIVE")) []) in
  r = Return (Processed 3 0 "P100" demo_campaigns)
  /\ count_posts (trace w) = 6.
Proof. vm_compute. split; reflexivity. Qed.

(** The end-to-end scenario of the specification: mode OFF, threshold 5, an
    active ad set at 7: target PAUSED, one write, verified, recorded as
    PAUSED. *)
Example off_mode_pauses_expensive_adset :
  let a2 := AdsetInfo (Some "Ad set 2") (Some "ACTIVE") (Some (PNum 7)) in
  process_adset "OFF" 5 None "a2" a2
    (World (∅ : pstate obedient_platform) [])
  = (Return (set_status a2 "PAUSED", Some "PAUSED", true),
     @World obedient_platform {["a2" := "PAUSED"]}
       [EvMsg (MsgDecision "Ad set 2" "ACTIVE" "PAUSED");
        EvMsg (MsgUpdating "Ad set 2" "ACTIVE" "PAUSED");
        EvPost "a2" "PAUSED" true; EvMsg (MsgUpdated "a2" "PAUSED");
        EvSleep 1; EvGet "a2" (Some "PAUSED");
        EvMsg (MsgVerified "Ad set 2" "PAUSED");
        EvMsg (MsgUpdateOk "Ad set 2" "PAUSED")]).
Proof. vm_compute. reflexivity. Qed.

(** C1.  An ad set whose cost metric is [float('inf')] (or [None]) is left
    alone when it is already PAUSED; otherwise the decision is the target
    PAUSED, whatever the mode and the threshold, and it is applied with
    verification: the ad set is recorded PAUSED when the apply succeeds and
    unchanged when it fails. *)
Theorem undefined_metric_targets_paused (pf : platform) (mode : string)
    (threshold : Q) (tv : option string) (id : string) (a : adset_info)
    (w : world pf) :
  CPP a = Some PInf \/ CPP a = Some PNone ->
  let current := default "" (STATUS a) in
  let name := default "Unknown" (NAME a) in
  (current = "PAUSED" ->
   process_adset mode threshold tv id a w
   = (Return (a, tv, false),
      World (plat w) (trace w ++ [EvMsg (MsgAlreadyOff name)])))
  /\ (current <> "PAUSED" ->
      decide_adset mode threshold (default (PNum 0) (CPP a)) current name w
      = (Return (Target "PAUSED"),
         World (plat w) (trace w ++ [EvMsg (MsgNoSales name)]))
      /\ exists ok w2,
           update_facebook_status_with_retry id name "PAUSED"
             default_max_retries
             (World (plat w)
                (trace w ++ [EvMsg (MsgNoSales name);
                             EvMsg (MsgDecision name current "PAUSED");
                             EvMsg (MsgUpdating name current "PAUSED")]))
           = (Return ok, w2)
           /\ process_adset mode threshold tv id a w
              = (Return (if ok then set_status a "PAUSED" else a,
                         Some "PAUSED", ok),
                 World (plat w2)
                   (trace w2
                    ++ [EvMsg (if ok then MsgUpdateOk name "PAUSED"
                               else MsgUpdateFailed name "PAUSED")]))).
Proof.
  intros Hcpp current name. subst current name.
  assert (Hdec : forall b,
    String.eqb (default "" (STATUS a)) "PAUSED" = b ->
    decide_adset mode threshold (default (PNum 0) (CPP a))
      (default "" (STATUS a)) (default "Unknown" (NAME a)) w
    = if b
      then (Return Continue,
            World (plat w)
              (trace w ++ [EvMsg (MsgAlreadyOff
                                    (default "Unknown" (NAME a)))]))
      else (Return (Target "PAUSED"),
            World (plat w)
              (trace w ++ [EvMsg (MsgNoSales
                                    (default "Unknown" (NAME a)))]))).
  { intros b Hb. unfold decide_adset.
    destruct Hcpp as [-> | ->]; cbn [default]; rewrite Hb;
      now destruct b. }
  split.
  - intros Hcur. apply String.eqb_eq in Hcur.
    unfold process_adset, bind. now rewrite (Hdec true Hcur).
  - intros Hcur. apply String.eqb_neq in Hcur.
    split; [exact (Hdec false Hcur)|].
    destruct (retry_run id (default "Unknown" (NAME a)) "PAUSED"
                default_max_retries
                (World (plat w)
                   (trace w
                    ++ [EvMsg (MsgNoSales (default "Unknown" (NAME a)));
                        EvMsg (MsgDecision (default "Unknown" (NAME a))
                                 (default "" (STATUS a)) "PAUSED");
                        EvMsg (MsgUpdating (default "Unknown" (NAME a))
                                 (default "" (STATUS a)) "PAUSED")])))
      as (ok & p & evs & Hrun & _).
    exists ok, (World p
                  ((trace w
                    ++ [EvMsg (MsgNoSales (default "Unknown" (NAME a)));
                        EvMsg (MsgDecision (default "Unknown" (NAME a))
                                 (default "" (STATUS a)) "PAUSED");
                        EvMsg (MsgUpdating (default "Unknown" (NAME a))
                                 (default "" (STATUS a)) "PAUSED")])
                   ++ evs)).
    split; [exact Hrun|].
    unfold process_adset. unfold bind at 1. rewrite (Hdec false Hcur).
    unfold bind at 1. rewrite apply_target_eq, Hcur. cbn [plat trace].
    rewrite <- app_assoc. cbn [app]. rewrite Hrun.
    now destruct ok.
Qed.

Lemma undefined_metric_targets_paused_witness :
  process_adset "ON" 5 None "a1"
    (AdsetInfo (Some "Ad set 1") (Some "PAUSED") (Some PInf))
    (World (tt : pstate (stuck_platform "PAUSED")) [])
  = (Return (AdsetInfo (Some "Ad set 1") (Some "PAUSED") (Some PInf),
             None, false),
     @World (stuck_platform "PAUSED") tt
       ([] ++ [EvMsg (MsgAlreadyOff "Ad set 1")])).
Proof.
  refine (proj1 (undefined_metric_targets_paused (stuck_platform "PAUSED")
                   "ON" 5 None "a1"
                   (AdsetInfo (Some "Ad set 1") (Some "PAUSED") (Some PInf))
                   (World (tt : pstate (stuck_platform "PAUSED")) []) _) _).
  - left. reflexivity.
  - reflexivity.
Defined.

(** The second end-to-end scenario: mode ON, threshold 5, no checkouts, an
    active ad set: target PAUSED, applied and recorded. *)
Example on_mode_pauses_adset_without_checkouts :
  let a1 := AdsetInfo (Some "Ad set 1") (Some "ACTIVE") (Some PInf) in
  exists w,
    process_adset "ON" 5 None "a1" a1
      (World (∅ : pstate obedient_platform) [])
    = (Return (set_status a1 "PAUSED", Some "PAUSED", true), w)
    /\ count_posts (trace w) = 1
    /\ In (EvPost "a1" "PAUSED" true) (trace w).
Proof. eexists. vm_compute. repeat split. tauto. Qed.




Section Campaigns.
Context {pf : platform}.

Lemma campaign_held_eq (mode : string) (threshold : Z) (id : string)
    (c : campaign_info) (rest : list (string * campaign_info))
    (u : bool) (w : world pf) (q : Q) :
  mode = "ON" ->
  C_CPP c = Some (PNum q) ->
  (inject_Z threshold <= q)%Q ->
  scheduled_campaign_items mode threshold ((id, c) :: rest) u w
  = (let* (rest', u') := scheduled_campaign_items mode threshold rest u in
     ret ((id, c) :: rest', u'))%py
      (World (plat w)
         (trace w ++ [EvMsg (MsgCampaignRemains id
                               (default "" (C_STATUS c)))])).
Proof.
  intros -> Hcpp Hq. cbn [scheduled_campaign_items].
  remember (default "" (C_STATUS c)) as current eqn:Ecur.
  rewrite Hcpp. cbn [default from_option Datatypes.id String.eqb Ascii.eqb Bool.eqb py_lt lift].
  assert (E : Qlt_bool q (inject_Z threshold) = false).
  { apply MetricsSpec.Qlt_bool_false. now apply Qle_not_lt. }
  unfold bind, lift, ret, say, emit. cbv beta iota. rewrite E.
  cbv beta iota. reflexivity.
Qed.

Lemma campaign_paused_eq (mode : string) (threshold : Z) (id : string)
    (c : campaign_info) (rest : list (string * campaign_info))
    (u : bool) (w : world pf) (q : Q) :
  mode = "OFF" ->
  C_CPP c = Some (PNum q) ->
  (inject_Z threshold <= q)%Q ->
  default "" (C_STATUS c) <> "PAUSED" ->
  scheduled_campaign_items mode threshold ((id, c) :: rest) u w
  = let '(ok, p) := post_status pf id "PAUSED" (plat w) in
    (let* (rest', u') :=
       scheduled_campaign_items mode threshold rest (if ok then true else u) in
     ret ((id, if ok then set_campaign_status c "PAUSED" else c) :: rest',
          u'))%py
      (World p
         (trace w
          ++ [EvPost id "PAUSED" ok;
              EvMsg (if ok then MsgUpdated id "PAUSED"
                     else MsgUpdateError id "PAUSED")]
          ++ (if ok then [EvMsg (MsgCampaignUpdated id "PAUSED")] else []))).
Proof.
  intros -> Hcpp Hq Hcur. apply String.eqb_neq in Hcur.
  cbn [scheduled_campaign_items].
  remember (default "" (C_STATUS c)) as current eqn:Ecur.
  rewrite Hcpp. cbn [default from_option Datatypes.id String.eqb Ascii.eqb Bool.eqb py_ge lift].
  apply Qle_bool_iff in Hq.
  unfold bind, lift, ret. cbv beta iota. rewrite Hq. cbv beta iota.
  rewrite Hcur. cbn [negb]. unfold update_facebook_status.
  destruct (post_status pf id "PAUSED" (plat w)) as [[] p];
    unfold bind, say, emit, ret; cbn [plat trace];
    rewrite <- ?app_assoc; cbn [app]; rewrite ?app_nil_r; reflexivity.
Qed.

End Campaigns.

(** C2, as the code has it.  At the Campaigns watch level in mode ON, a
    campaign whose metric is a number at or above the threshold is held: it
    is handed back unchanged, no write is issued for it, and the only event
    is the message that it remains as it is.  PAUSED is targeted at this
    level in mode OFF, where such a campaign that is not yet PAUSED gets the
    write. *)
Theorem campaign_on_mode_holds_at_threshold (pf : platform)
    (threshold : Z) (id : string) (c : campaign_info)
    (rest : list (string * campaign_info)) (u : bool) (w : world pf)
    (q : Q) :
  C_CPP c = Some (PNum q) ->
  (inject_Z threshold <= q)%Q ->
  scheduled_campaign_items "ON" threshold ((id, c) :: rest) u w
  = (let* (rest', u') := scheduled_campaign_items "ON" threshold rest u in
     ret ((id, c) :: rest', u'))%py
      (World (plat w)
         (trace w ++ [EvMsg (MsgCampaignRemains id
                               (default "" (C_STATUS c)))]))
  /\ (default "" (C_STATUS c) <> "PAUSED" ->
      scheduled_campaign_items "OFF" threshold ((id, c) :: rest) u w
      = let '(ok, p) := post_status pf id "PAUSED" (plat w) in
        (let* (rest', u') :=
           scheduled_campaign_items "OFF" threshold rest
             (if ok then true else u) in
         ret ((id, if ok then set_campaign_status c "PAUSED" else c)
              :: rest', u'))%py
          (World p
             (trace w
              ++ [EvPost id "PAUSED" ok;
                  EvMsg (if ok then MsgUpdated id "PAUSED"
                         else MsgUpdateError id "PAUSED")]
              ++ (if ok then [EvMsg (MsgCampaignUpdated id "PAUSED")]
                  else [])))).
Proof.
  intros Hcpp Hq. split.
  - now apply (campaign_held_eq "ON" threshold id c rest u w q).
  - intros Hcur.
    now apply (campaign_paused_eq "OFF" threshold id c rest u w q).
Qed.

Lemma campaign_on_mode_holds_at_threshold_witness :
  let c := CampaignInfo (Some "PageA-ItemB-P100") (Some "ACTIVE")
             (Some (PNum 7)) None in
  scheduled_campaign_items "ON" 5 [("c1", c)] false
    (World (∅ : pstate obedient_platform) [])
  = (Return ([("c1", c)], false),
     @World obedient_platform ∅
       [EvMsg (MsgCampaignRemains "c1" "ACTIVE")]).
Proof.
  intros c.
  refine (proj1 (campaign_on_mode_holds_at_threshold obedient_platform 5
                   "c1" c [] false
                   (World (∅ : pstate obedient_platform) []) 7 _ _)).
  - reflexivity.
  - vm_compute. discriminate.
Defined.

(** C2 as stated fails: in mode ON with threshold 5, an active campaign at
    7 is not paused; the task leaves the stored snapshot as it is and issues
    no write. *)
Lemma campaign_at_threshold_stays_active_in_on_mode :
  let c := CampaignInfo (Some "PageA-ItemB-P100") (Some "ACTIVE")
             (Some (PNum 7)) None in
  let sd := Schedule (Some "P100") (Some "Campaigns") (Num 5) (Some "ON")
              None None in
  let entry := CampaignEntry (Some [("c1", c)]) in
  process_scheduled_campaigns sd (Some entry)
    (World (∅ : pstate obedient_platform) [])
  = (Return (ProcessedScheduled "Campaigns" entry),
     @World obedient_platform ∅
       [EvMsg (MsgCampaignRemains "c1" "ACTIVE")])
  /\ (7 >= inject_Z (trunc 5))%Q.
Proof. split; [reflexivity|vm_compute; discriminate]. Qed.

End DecisionSpec.

(** ** The run coordinator *)

Module CoordinatorSpec.
Import PyStr Py OnOffAdsetsWorker.

Lemma runs_ret {A : Type} (a : A) (P : A -> Prop) : P a -> runs (ret a) P.
Proof.
  intros H w. exists (Return a), []. rewrite app_nil_r.
  split; [now destruct w|]. split; [constructor|]. now intros ? [= <-].
Qed.

Lemma runs_raise {A : Type} (e : exn) (P : A -> Prop) : runs (raise e) P.
Proof.
  intros w. exists (Raise e), []. rewrite app_nil_r.
  split; [now destruct w|]. split; [constructor|]. discriminate.
Qed.

Lemma runs_lift {A : Type} (r : exc A) (P : A -> Prop) :
  (forall a, r = Return a -> P a) -> runs (lift r) P.
Proof.
  intros H w. exists r, []. rewrite app_nil_r.
  split; [now destruct w|]. split; [constructor|exact H].
Qed.

Lemma runs_emit (e : event) (P : unit -> Prop) :
  is_store_event e = false -> P tt -> runs (emit e) P.
Proof.
  intros He H w. exists (Return tt), [e].
  split; [reflexivity|]. split; [now constructor|]. now intros [] _.
Qed.

Lemma runs_say (m : message) (P : unit -> Prop) : P tt -> runs (say m) P.
Proof. now apply runs_emit. Qed.

Lemma runs_bind {A B : Type} (m : M world A) (k : A -> M world B)
    (P : A -> Prop) (Q : B -> Prop) :
  runs m P -> (forall a, P a -> runs (k a) Q) -> runs (bind m k) Q.
Proof.
  intros Hm Hk w. destruct (Hm w) as (r & evs & Hrun & Hcalm & HP).
  unfold bind. rewrite Hrun. destruct r as [a|e].
  - destruct (Hk a (HP a eq_refl) (World (locks w) (queues w) (trace w ++ evs)))
      as (r2 & evs2 & Hrun2 & Hcalm2 & HQ).
    rewrite Hrun2. cbn [locks queues trace].
    exists r2, (evs ++ evs2). rewrite app_assoc.
    split; [reflexivity|]. split; [now apply Forall_app|exact HQ].
  - exists (Raise e), evs. split; [reflexivity|]. split; [exact Hcalm|].
    discriminate.
Qed.

Lemma runs_try_except {A : Type} (m : M world A) (h : exn -> M world A)
    (P : A -> Prop) :
  runs m P -> (forall e, runs (h e) P) -> runs (try_except m h) P.
Proof.
  intros Hm Hh w. destruct (Hm w) as (r & evs & Hrun & Hcalm & HP).
  unfold try_except. rewrite Hrun. destruct r as [a|e].
  - exists (Return a), evs. auto.
  - destruct (Hh e (World (locks w) (queues w) (trace w ++ evs)))
      as (r2 & evs2 & Hrun2 & Hcalm2 & HQ).
    rewrite Hrun2. cbn [locks queues trace].
    exists r2, (evs ++ evs2). rewrite app_assoc.
    split; [reflexivity|]. split; [now apply Forall_app|exact HQ].
Qed.

Lemma runs_weaken {A : Type} (m : M world A) (P Q : A -> Prop) :
  runs m P -> (forall a, P a -> Q a) -> runs m Q.
Proof.
  intros Hm HPQ w. destruct (Hm w) as (r & evs & Hrun & Hcalm & HP).
  exists r, evs. split; [exact Hrun|]. split; [exact Hcalm|]. auto.
Qed.

Ltac runs_step :=
  match goal with
  | |- runs (bind _ _) _ =>
      eapply runs_bind with (P := anything); [|intros ? _]
  | |- runs (ret _) _ => apply runs_ret
  | |- runs (raise _) _ => apply runs_raise
  | |- runs (lift _) _ => apply runs_lift; intros ? _
  | |- runs (say _) _ => apply runs_say
  | |- runs (emit _) _ => apply runs_emit; [reflexivity|]
  | |- runs (if ?b then _ else _) _ => destruct b
  | |- anything _ => exact I
  end.

Lemma runs_process_items notify n items : forall cpp_data,
  runs (process_items notify n items cpp_data) anything.
Proof.
  induction items as [|item rest IH]; intros cpp_data;
    cbn [process_items]; [repeat runs_step|].
  eapply runs_bind with (P := anything); [repeat runs_step|intros cpp _].
  eapply runs_bind with (P := anything); [repeat runs_step|intros _ _].
  apply IH.
Qed.

Lemma runs_insights_pages notify account level more :
  forall n cur cpp_data,
  runs (insights_pages notify account level n cur more cpp_data) anything.
Proof.
  induction more as [|nxt more IH]; intros n cur cpp_data;
    cbn [insights_pages];
    (eapply runs_bind with (P := anything); [repeat runs_step|intros _ _]);
    destruct cur as [|items];
    try (eapply runs_bind with (P := anything);
         [repeat runs_step|intros _ _]; repeat runs_step; fail).
  - eapply runs_bind with (P := anything); [repeat runs_step|intros _ _].
    eapply runs_bind with (P := anything);
      [apply runs_process_items|intros ? _]. repeat runs_step.
  - eapply runs_bind with (P := anything); [repeat runs_step|intros _ _].
    eapply runs_bind with (P := anything);
      [apply runs_process_items|intros ? _].
    eapply runs_bind with (P := anything); [repeat runs_step|intros _ _].
    apply IH.
Qed.

Lemma runs_get_cpp pf account level notify :
  runs (get_cpp_from_insights pf account level notify) anything.
Proof.
  unfold get_cpp_from_insights.
  eapply runs_bind with (P := anything); [repeat runs_step|intros _ _].
  destruct (insights pf account level) as [first more].
  eapply runs_bind with (P := anything);
    [apply runs_insights_pages|intros ? _].
  eapply runs_bind with (P := anything); [repeat runs_step|intros _ _].
  repeat runs_step.
Qed.

Lemma runs_campaign_pages account more : forall n cur all,
  runs (campaign_pages account n cur more all) anything.
Proof.
  induction more as [|nxt more IH]; intros n cur all;
    cbn [campaign_pages];
    (eapply runs_bind with (P := anything); [repeat runs_step|intros _ _]);
    destruct cur as [|data]; try (repeat runs_step; fail).
  eapply runs_bind with (P := anything); [repeat runs_step|intros _ _].
  apply IH.
Qed.

Lemma runs_build_adsets cpp adsets : forall acc,
  runs (build_adsets cpp adsets acc) anything.
Proof.
  induction adsets as [|a rest IH]; intros acc; cbn [build_adsets];
    [repeat runs_step|].
  do 3 (eapply runs_bind with (P := anything); [repeat runs_step|intros ? _]).
  eapply runs_bind with (P := anything); [repeat runs_step|intros _ _].
  apply IH.
Qed.

Lemma runs_build_campaign_data cpp_c cpp_a matching : forall acc,
  runs (build_campaign_data cpp_c cpp_a matching acc) anything.
Proof.
  induction matching as [|c rest IH]; intros acc;
    cbn [build_campaign_data]; [repeat runs_step|].
  do 3 (eapply runs_bind with (P := anything); [repeat runs_step|intros ? _]).
  eapply runs_bind with (P := anything); [repeat runs_step|intros _ _].
  eapply runs_bind with (P := anything);
    [apply runs_build_adsets|intros ? _].
  apply IH.
Qed.

Lemma runs_dispatch pf account sched data :
  runs (dispatch pf account sched data) anything.
Proof. unfold dispatch. repeat runs_step. Qed.

Lemma runs_fetch_body pf user_id account sched :
  runs (fetch_body pf user_id account sched) (run_outcome account).
Proof.
  unfold fetch_body, run_outcome, verify.
  eapply runs_bind with (P := anything); [repeat runs_step|intros _ _].
  eapply runs_bind with (P := anything); [repeat runs_step|intros reachable _].
  destruct reachable; cbn [negb].
  2:{ eapply runs_bind with (P := anything); [repeat runs_step|intros _ _].
      apply runs_ret. tauto. }
  eapply runs_bind with (P := anything); [repeat runs_step|intros _ _].
  eapply runs_bind with (P := anything); [apply runs_get_cpp|intros cc _].
  eapply runs_bind with (P := anything); [apply runs_get_cpp|intros ca _].
  destruct (campaigns pf account) as [first more].
  eapply runs_bind with (P := anything);
    [apply runs_campaign_pages|intros listing _].
  destruct listing as [all|]; [|apply runs_ret; tauto].
  eapply runs_bind with (P := anything); [repeat runs_step|intros matching _].
  eapply runs_bind with (P := anything); [repeat runs_step|intros _ _].
  destruct (Nat.eqb (length matching) 0).
  - eapply runs_bind with (P := anything); [repeat runs_step|intros _ _].
    apply runs_ret. tauto.
  - eapply runs_bind with (P := anything);
      [apply runs_build_campaign_data|intros data _].
    eapply runs_bind with (P := anything); [apply runs_dispatch|intros _ _].
    apply runs_ret. tauto.
Qed.

Lemma acquire_then_release (key : string) (held : gset string) :
  key ∉ held -> ({[key]} ∪ held) ∖ {[key]} = held.
Proof.
  intros Hfree. apply set_eq. intros x.
  rewrite elem_of_difference, elem_of_union, elem_of_singleton. split.
  - intros [[E|H] Hne]; [contradiction|exact H].
  - intros H. split; [now right|]. intros E. subst x. contradiction.
Qed.

(** C5.  When the lock of the account is held, [fetch_adsets] on a valid
    account id appends the schedule at the tail of the account's pending
    list and returns the queued result at once: the lock store is untouched,
    the other queues are untouched, and the only events are the start
    message, the failed non-blocking acquire and the push; no request goes
    to the platform and nothing is raised. *)
Theorem contention_defers_the_run (pf : platform) (user_id : Z)
    (id : account_id) (sched : schedule) (w : world) :
  valid_account_id id = true ->
  lock_key id ∈ locks w ->
  let pending := default [] (queues w !! pending_schedules_key id) in
  exists w',
    fetch_adsets pf user_id id sched w = (Return (Queued (clean_id id)), w')
    /\ locks w' = locks w
    /\ queues w' !! pending_schedules_key id = Some (pending ++ [sched])
    /\ (forall key, key <> pending_schedules_key id ->
                    queues w' !! key = queues w !! key)
    /\ trace w'
       = trace w ++ [EvMsg MsgStarting;
                     EvAcquire (lock_key id) false;
                     EvRpush (pending_schedules_key id) sched].
Proof.
  intros Hvalid Hheld pending.
  unfold fetch_adsets. unfold bind at 1. cbn [say emit]. rewrite Hvalid.
  cbn [negb]. unfold bind at 1. unfold lock_acquire. cbn [locks queues trace].
  destruct (decide (lock_key id ∈ locks w)) as [_|Hn]; [|contradiction].
  cbn [negb]. unfold bind, rpush, ret. cbn [locks queues trace].
  eexists. split; [reflexivity|]. cbn [locks queues trace].
  split; [reflexivity|]. split; [apply lookup_insert_eq|].
  split; [intros key Hkey; now apply lookup_insert_ne|].
  now rewrite <- !app_assoc.
Qed.

Lemma contention_defers_the_run_witness :
  exists w',
    fetch_adsets demo_platform 7 (IdStr "act_123")
      (demo_matched_schedule "P100")
      (World {[lock_key (IdStr "act_123")]} ∅ [])
    = (Return (Queued "123"), w')
    /\ queues w' !! "pending_schedules:act_123"
       = Some [demo_matched_schedule "P100"]
    /\ trace w'
       = [EvMsg MsgStarting;
          EvAcquire "lock:fetch_campaign:act_123" false;
          EvRpush "pending_schedules:act_123" (demo_matched_schedule "P100")].
Proof.
  destruct (contention_defers_the_run demo_platform 7 (IdStr "act_123")
              (demo_matched_schedule "P100")
              (World {[lock_key (IdStr "act_123")]} ∅ []))
    as (w' & Hrun & _ & Hq & _ & Htr).
  - reflexivity.
  - vm_compute. reflexivity.
  - exists w'. split; [exact Hrun|]. split; [exact Hq|exact Htr].
Defined.

(** A second contended trigger queues behind the first. *)
Example pending_runs_queue_in_order :
  let held := World {[lock_key (IdStr "act_123")]} ∅ [] in
  let '(_, w1) :=
    fetch_adsets demo_platform 7 (IdStr "act_123")
      (demo_matched_schedule "P100") held in
  let '(_, w2) :=
    fetch_adsets demo_platform 7 (IdStr "act_123")
      (demo_matched_schedule "P200") w1 in
  queues w2 !! "pending_schedules:act_123"
  = Some [demo_matched_schedule "P100"; demo_matched_schedule "P200"].
Proof. vm_compute. reflexivity. Qed.

(** C6.  When [fetch_adsets] on a valid account id gets the lock, the task
    returns (it never raises), with an account error, a campaign-fetch
    error, no matching campaign, success, or the message of an exception;
    the release of the lock is the last event, nothing touches the lock
    store between the acquire and the release, and afterwards the lock is
    free and the lock store and the queues are as before the run. *)
Theorem lock_is_released_on_every_exit (pf : platform) (user_id : Z)
    (id : account_id) (sched : schedule) (w : world) :
  valid_account_id id = true ->
  lock_key id ∉ locks w ->
  exists r w' evs,
    fetch_adsets pf user_id id sched w = (Return r, w')
    /\ (lock_key id ∉ locks w')
    /\ locks w' = locks w
    /\ queues w' = queues w
    /\ trace w'
       = trace w ++ [EvMsg MsgStarting; EvAcquire (lock_key id) true]
         ++ evs ++ [EvRelease (lock_key id)]
    /\ Forall (fun e => is_store_event e = false) evs
    /\ (run_outcome (clean_id id) r \/ exists e, r = ErrorDuringFetch e).
Proof.
  intros Hvalid Hfree.
  unfold fetch_adsets. unfold bind at 1. cbn [say emit]. rewrite Hvalid.
  cbn [negb]. unfold bind at 1. unfold lock_acquire. cbn [locks queues trace].
  destruct (decide (lock_key id ∈ locks w)) as [Hin|_]; [contradiction|].
  cbn [negb]. unfold try_finally, try_except.
  match goal with
  | |- context [fetch_body pf user_id (clean_id id) sched ?w1] =>
      destruct (runs_fetch_body pf user_id (clean_id id) sched w1)
        as (r & evs & Hrun & Hcalm & Hout)
  end.
  rewrite Hrun. cbn [locks queues trace]. destruct r as [r|e].
  - exists r, (World (locks w) (queues w)
                 (((trace w ++ [EvMsg MsgStarting])
                   ++ [EvAcquire (lock_key id) true]) ++ evs
                  ++ [EvRelease (lock_key id)])), evs.
    unfold lock_release. cbn [locks queues trace].
    rewrite (acquire_then_release _ _ Hfree), <- !app_assoc.
    repeat split; auto.
  - exists (ErrorDuringFetch e),
      (World (locks w) (queues w)
         (((trace w ++ [EvMsg MsgStarting])
           ++ [EvAcquire (lock_key id) true])
          ++ (evs ++ [EvMsg (MsgError e)])
          ++ [EvRelease (lock_key id)])), (evs ++ [EvMsg (MsgError e)]).
    unfold bind, say, emit, ret, lock_release. cbn [locks queues trace].
    rewrite (acquire_then_release _ _ Hfree), <- !app_assoc.
    repeat split; eauto.
    apply Forall_app. split; [exact Hcalm|repeat constructor].
Qed.

Lemma lock_is_released_on_every_exit_witness :
  exists r w' evs,
    fetch_adsets unreachable_account 7 (IdStr "act_123")
      (demo_matched_schedule "P100") idle
    = (Return r, w')
    /\ (lock_key (IdStr "act_123") ∉ locks w')
    /\ trace w'
       = [] ++ [EvMsg MsgStarting;
                EvAcquire (lock_key (IdStr "act_123")) true]
         ++ evs ++ [EvRelease (lock_key (IdStr "act_123"))].
Proof.
  destruct (lock_is_released_on_every_exit unreachable_account 7
              (IdStr "act_123") (demo_matched_schedule "P100") idle)
    as (r & w' & evs & Hrun & Hfree & _ & _ & Htr & _).
  - reflexivity.
  - apply not_elem_of_empty.
  - exists r, w', evs. split; [exact Hrun|]. split; [exact Hfree|exact Htr].
Defined.

(** The exit paths, one by one: the result, the lock store and the last
    event after the run. *)

Example exit_on_success :
  let run := fetch_adsets demo_platform 7 (IdStr "act_123")
               (demo_matched_schedule "P100") idle in
  fst run = Return (Fetched "123")
  /\ released "lock:fetch_campaign:act_123" run.
Proof. vm_compute. repeat split. Qed.

Example exit_on_unreachable_account :
  let run := fetch_adsets unreachable_account 7 (IdStr "act_123")
               (demo_matched_schedule "P100") idle in
  fst run = Return (AccountError "123")
  /\ released "lock:fetch_campaign:act_123" run.
Proof. vm_compute. repeat split. Qed.

Example exit_on_campaign_fetch_error :
  let run := fetch_adsets listing_fails 7 (IdStr "act_123")
               (demo_matched_schedule "P100") idle in
  fst run = Return (CampaignFetchError "123")
  /\ released "lock:fetch_campaign:act_123" run.
Proof. vm_compute. repeat split. Qed.

Example exit_on_zero_matching_campaigns :
  let run := fetch_adsets demo_platform 7 (IdStr "act_123")
               (demo_matched_schedule "P999") idle in
  fst run = Return (NoMatchingCampaigns "123")
  /\ released "lock:fetch_campaign:act_123" run.
Proof. vm_compute. repeat split. Qed.

Example exit_on_exception_in_metrics :
  let run := fetch_adsets malformed_insights 7 (IdStr "act_123")
               (demo_matched_schedule "P100") idle in
  fst run = Return (ErrorDuringFetch ValueError)
  /\ released "lock:fetch_campaign:act_123" run.
Proof. vm_compute. repeat split. Qed.

Example exit_on_exception_in_dispatch :
  let run := fetch_adsets broker_down 7 (IdInt 123)
               (demo_matched_schedule "P100") idle in
  fst run = Return (ErrorDuringFetch BrokerError)
  /\ released "lock:fetch_campaign:123" run.
Proof. vm_compute. repeat split. Qed.

(** An invalid account id is turned down before the lock is tried. *)
Example invalid_account_id_is_rejected :
  fetch_adsets demo_platform 7 (IdStr "") (demo_matched_schedule "P100")
    (World {[lock_key (IdStr "")]} ∅ [])
  = (Return InvalidAccountId,
     World {[lock_key (IdStr "")]} ∅
       [EvMsg MsgStarting; EvMsg MsgInvalidAccountId]).
Proof. reflexivity. Qed.

End CoordinatorSpec.

(** * Further properties of the workers *)

(** ** The code filter, beyond the empty code *)

Module CodeFilterMore.
Import PyStr PyStrFacts.

Ltac ascii_fact c :=
  destruct c as [[] [] [] [] [] [] [] []]; vm_compute; intros;
  repeat split; congruence.

Lemma lower_char_not_alnum_inv c :
  is_alnum (lower_char c) = is_alnum c.
Proof. ascii_fact c. Qed.

Lemma lower_alnum_is_lower_alnum c :
  is_alnum c = true ->
  CampaignWords.is_lower_alnum (lower_char c) = true.
Proof. by_ascii_cases c. Qed.

Lemma lower_alnum_fixed c :
  CampaignWords.is_lower_alnum c = true ->
  lower_char c = c /\ is_alnum c = true.
Proof. ascii_fact c. Qed.

Lemma keep_alnum_lstrip (p : ascii -> bool) (s : string) :
  (forall c, p c = true -> is_alnum c = false) ->
  keep_alnum (lower (lstrip_by p s)) = keep_alnum (lower s).
Proof.
  intros Hp. induction s as [|c s IH]; [reflexivity|]. cbn [lstrip_by].
  destruct (p c) eqn:E; [|reflexivity].
  rewrite IH. cbn [lower keep_alnum].
  now rewrite lower_char_not_alnum_inv, (Hp c E).
Qed.

Lemma keep_alnum_rstrip (p : ascii -> bool) (s : string) :
  (forall c, p c = true -> is_alnum c = false) ->
  keep_alnum (lower (rstrip_by p s)) = keep_alnum (lower s).
Proof.
  intros Hp. induction s as [|c s IH]; [reflexivity|]. cbn [rstrip_by].
  destruct (rstrip_by p s) as [|d r] eqn:E.
  - cbn [lower keep_alnum] in IH. destruct (p c) eqn:Ec.
    + cbn [lower keep_alnum].
      now rewrite lower_char_not_alnum_inv, (Hp c Ec), <- IH.
    + cbn [lower keep_alnum]. now rewrite <- IH.
  - change (lower (String c (String d r)))
      with (String (lower_char c) (lower (String d r))).
    cbn [keep_alnum]. rewrite IH. reflexivity.
Qed.

Lemma normalize_copies_agree (code : string) :
  OnOffAdsetsWorker.normalize_campaign_code code
  = UpdateStatus.normalize_campaign_code code.
Proof.
  unfold OnOffAdsetsWorker.normalize_campaign_code,
    UpdateStatus.normalize_campaign_code, strip_chars, strip_by.
  assert (Hp : forall c,
            existsb (Ascii.eqb c) [" "%char; "-"%char] = true ->
            is_alnum c = false).
  { intros c. ascii_fact c. }
  now rewrite (keep_alnum_rstrip _ _ Hp), (keep_alnum_lstrip _ _ Hp).
Qed.

(** The two copies of the code filter are the same function: stripping
    spaces and hyphens at the ends first, as [on_off_adsets_worker.py] does,
    changes neither the normal form nor the answer of
    [is_campaign_code_match]. *)
Theorem code_filter_copies_agree (campaign_name campaign_code : string) :
  OnOffAdsetsWorker.normalize_campaign_code campaign_code
  = UpdateStatus.normalize_campaign_code campaign_code
  /\ OnOffAdsetsWorker.is_campaign_code_match campaign_name campaign_code
     = UpdateStatus.is_campaign_code_match campaign_name campaign_code.
Proof.
  split; [apply normalize_copies_agree|].
  unfold OnOffAdsetsWorker.is_campaign_code_match,
    UpdateStatus.is_campaign_code_match.
  now rewrite !normalize_copies_agree.
Qed.

Lemma normalized_is_lower_alnum (s : string) :
  all_chars CampaignWords.is_lower_alnum (keep_alnum (lower s)) = true.
Proof.
  induction s as [|c s IH]; [reflexivity|]. cbn [lower keep_alnum].
  rewrite lower_char_not_alnum_inv.
  destruct (is_alnum c) eqn:E; [|exact IH].
  cbn [all_chars]. now rewrite (lower_alnum_is_lower_alnum c E), IH.
Qed.

Lemma lower_alnum_normal (s : string) :
  all_chars CampaignWords.is_lower_alnum s = true ->
  keep_alnum (lower s) = s.
Proof.
  induction s as [|c s IH]; [reflexivity|]. cbn [all_chars].
  intros H. apply andb_true_iff in H as [Hc Hs].
  destruct (lower_alnum_fixed c Hc) as [E1 E2].
  cbn [lower keep_alnum]. now rewrite E1, E2, IH.
Qed.

(** The normal form of a campaign code or name holds only lowercase letters
    and digits, and normalising it again changes nothing; so a match depends
    on the normal forms of the two arguments only. *)
Theorem normalize_campaign_code_is_a_normal_form (code name : string) :
  let n := UpdateStatus.normalize_campaign_code code in
  all_chars CampaignWords.is_lower_alnum n = true
  /\ UpdateStatus.normalize_campaign_code n = n
  /\ OnOffAdsetsWorker.normalize_campaign_code
       (OnOffAdsetsWorker.normalize_campaign_code code)
     = OnOffAdsetsWorker.normalize_campaign_code code
  /\ UpdateStatus.is_campaign_code_match
       (UpdateStatus.normalize_campaign_code name) n
     = UpdateStatus.is_campaign_code_match name code.
Proof.
  intros n. subst n. unfold UpdateStatus.is_campaign_code_match.
  rewrite !normalize_copies_agree.
  unfold UpdateStatus.normalize_campaign_code.
  pose proof (normalized_is_lower_alnum code) as Hc.
  pose proof (normalized_is_lower_alnum name) as Hn.
  now rewrite !(lower_alnum_normal _ Hc), !(lower_alnum_normal _ Hn).
Qed.

Lemma append_cons (c : ascii) (a b : string) :
  (String c a ++ b)%string = String c (a ++ b)%string.
Proof. reflexivity. Qed.

Lemma append_nil (b : string) : (EmptyString ++ b)%string = b.
Proof. reflexivity. Qed.

Lemma lower_app (a b : string) : lower (a ++ b) = (lower a ++ lower b)%string.
Proof.
  induction a as [|c a IH]; [reflexivity|].
  rewrite append_cons. cbn [lower]. now rewrite IH, append_cons.
Qed.

Lemma keep_alnum_app (a b : string) :
  keep_alnum (a ++ b) = (keep_alnum a ++ keep_alnum b)%string.
Proof.
  induction a as [|c a IH]; [reflexivity|].
  rewrite append_cons. cbn [keep_alnum].
  destruct (is_alnum c); rewrite ?append_cons; now rewrite IH.
Qed.

Lemma normalize_app (a b : string) :
  UpdateStatus.normalize_campaign_code (a ++ b)
  = (UpdateStatus.normalize_campaign_code a
     ++ UpdateStatus.normalize_campaign_code b)%string.
Proof.
  unfold UpdateStatus.normalize_campaign_code.
  now rewrite lower_app, keep_alnum_app.
Qed.

Lemma prefix_app (x q : string) : String.prefix x (x ++ q) = true.
Proof.
  induction x as [|c x IH]; [now destruct q|].
  rewrite append_cons. cbn [String.prefix].
  destruct (ascii_dec c c); [exact IH|congruence].
Qed.

Lemma contains_app (p x q : string) : contains x (p ++ x ++ q) = true.
Proof.
  induction p as [|c p IH].
  - rewrite append_nil.
    destruct (x ++ q)%string eqn:E; cbn [contains];
      rewrite <- E, prefix_app; reflexivity.
  - rewrite append_cons. cbn [contains]. rewrite IH. apply orb_true_r.
Qed.

(** A code that occurs in the campaign name as it stands is matched,
    whatever surrounds it; and characters outside [[a-zA-Z0-9]] in the name
    do not stop a match: a code is also found when the name has a separator
    in the middle of it. *)
Theorem literal_code_is_matched (before code after sep : string) :
  UpdateStatus.is_campaign_code_match (before ++ code ++ after) code = true
  /\ OnOffAdsetsWorker.is_campaign_code_match (before ++ code ++ after) code
     = true
  /\ (all_chars (fun c => negb (is_alnum c)) sep = true ->
      UpdateStatus.is_campaign_code_match
        (before ++ sep ++ after) (before ++ after) = true).
Proof.
  assert (H : UpdateStatus.is_campaign_code_match
                (before ++ code ++ after) code = true).
  { unfold UpdateStatus.is_campaign_code_match.
    rewrite !normalize_app. apply contains_app. }
  split; [exact H|]. split.
  - unfold OnOffAdsetsWorker.is_campaign_code_match.
    rewrite !normalize_copies_agree. exact H.
  - intros Hsep. unfold UpdateStatus.is_campaign_code_match.
    rewrite !normalize_app.
    destruct (CodeFilterSpec.normalize_without_alnum sep Hsep) as [E _].
    rewrite E, append_nil.
    pose proof (contains_app ""
                  (UpdateStatus.normalize_campaign_code before
                   ++ UpdateStatus.normalize_campaign_code after) "") as C.
    rewrite append_nil in C.
    replace ((UpdateStatus.normalize_campaign_code before
              ++ UpdateStatus.normalize_campaign_code after) ++ "")%string
      with (UpdateStatus.normalize_campaign_code before
            ++ UpdateStatus.normalize_campaign_code after)%string in C.
    + exact C.
    + clear. generalize (UpdateStatus.normalize_campaign_code before
                         ++ UpdateStatus.normalize_campaign_code after)%string.
      intros s. induction s as [|c s IH]; [reflexivity|].
      rewrite append_cons. congruence.
Qed.

Lemma literal_code_is_matched_witness :
  UpdateStatus.is_campaign_code_match ("Page" ++ "-" ++ "P100")
    ("Page" ++ "P100") = true.
Proof.
  refine (proj2 (proj2 (literal_code_is_matched "Page" "x" "P100" "-")) _).
  reflexivity.
Defined.

End CodeFilterMore.

(** ** The word tests *)

Module CampaignWordsSpec.
Import PyStr PyStrFacts CampaignWords.

Ltac ascii_fact c :=
  destruct c as [[] [] [] [] [] [] [] []]; vm_compute; intros;
  repeat split; congruence.

Lemma alnum_not_space c : is_alnum c = true -> isspace c = false.
Proof. ascii_fact c. Qed.

Lemma lower_alnum c : is_alnum (lower_char c) = is_alnum c.
Proof. ascii_fact c. Qed.

Lemma lower_is_lower_alnum c :
  is_alnum c = true -> is_lower_alnum (lower_char c) = true.
Proof. ascii_fact c. Qed.

(** [normalize_text] computes the lowercased maximal alphanumeric runs,
    whether or not the scan is inside a run of separators. *)
Lemma normalize_text_refines (s : string) : forall in_run,
  split_ws (lower (sub_non_alnum_runs in_run s)) = alnum_words s.
Proof.
  induction s as [|c r IH]; intros in_run; [reflexivity|].
  cbn [sub_non_alnum_runs alnum_words].
  destruct (is_alnum c) eqn:Ec.
  - cbn [lower split_ws].
    assert (Hc : isspace (lower_char c) = false).
    { apply alnum_not_space. now rewrite lower_alnum. }
    rewrite Hc. destruct r as [|d r']; [reflexivity|].
    specialize (IH false). cbn [sub_non_alnum_runs] in IH |- *.
    destruct (is_alnum d) eqn:Ed.
    + cbn [lower] in IH |- *.
      assert (Hd : isspace (lower_char d) = false).
      { apply alnum_not_space. now rewrite lower_alnum. }
      rewrite Hd. now rewrite IH.
    + cbn [lower] in IH |- *.
      change (isspace (lower_char " "%char)) with true. cbv iota.
      now rewrite IH.
  - destruct in_run; [apply IH|]. cbn [lower split_ws].
    change (isspace (lower_char " "%char)) with true. cbv iota. apply IH.
Qed.

Lemma alnum_words_nonempty (c : ascii) (r : string) :
  is_alnum c = true -> alnum_words (String c r) <> [].
Proof.
  intros Hc. cbn [alnum_words]. rewrite Hc.
  destruct r as [|d r']; [discriminate|].
  destruct (is_alnum d); [|discriminate].
  destruct (alnum_words (String d r')); discriminate.
Qed.

Lemma alnum_words_separator (a : string) (c : ascii) (b : string) :
  is_alnum c = false ->
  alnum_words (a ++ String c b) = alnum_words a ++ alnum_words b.
Proof.
  intros Hc. induction a as [|x a IH].
  - change (EmptyString ++ String c b)%string with (String c b).
    cbn [alnum_words]. now rewrite Hc.
  - rewrite CodeFilterMore.append_cons. cbn [alnum_words].
    destruct (is_alnum x) eqn:Ex; [|exact IH].
    destruct a as [|d a'].
    + change (EmptyString ++ String c b)%string with (String c b) in *.
      cbn [alnum_words]. now rewrite Hc.
    + rewrite CodeFilterMore.append_cons in *. destruct (is_alnum d) eqn:Ed.
      * rewrite IH.
        pose proof (alnum_words_nonempty d a' Ed) as Hne.
        destruct (alnum_words (String d a')) as [|w ws]; [congruence|].
        reflexivity.
      * now rewrite IH.
Qed.

Lemma alnum_words_single (w : string) :
  w <> EmptyString -> all_chars is_alnum w = true ->
  alnum_words w = [lower w].
Proof.
  induction w as [|c r IH]; [congruence|]. intros _ H.
  cbn [all_chars] in H. apply andb_true_iff in H as [Hc Hr].
  cbn [alnum_words]. rewrite Hc. destruct r as [|d r']; [reflexivity|].
  assert (Hd : is_alnum d = true).
  { cbn [all_chars] in Hr. now apply andb_true_iff in Hr as [Hd _]. }
  rewrite Hd, IH; [reflexivity|discriminate|exact Hr].
Qed.

Lemma alnum_words_shape (s : string) :
  Forall (fun w => w <> EmptyString /\ all_chars is_lower_alnum w = true)
         (alnum_words s).
Proof.
  induction s as [|c r IH]; [constructor|]. cbn [alnum_words].
  destruct (is_alnum c) eqn:Ec; [|exact IH].
  pose proof (lower_is_lower_alnum c Ec) as Hc.
  destruct r as [|d r'].
  - repeat constructor; [discriminate|]. cbn [all_chars]. now rewrite Hc.
  - destruct (is_alnum d).
    + destruct (alnum_words (String d r')) as [|w ws].
      * repeat constructor; [discriminate|]. cbn [all_chars]. now rewrite Hc.
      * inversion IH as [|? ? [_ Hw] Hws]; subst. constructor; [|exact Hws].
        split; [discriminate|]. cbn [all_chars]. now rewrite Hc, Hw.
    + constructor; [|exact IH]. split; [discriminate|].
      cbn [all_chars]. now rewrite Hc.
Qed.

(** [normalize_text] yields the maximal runs of letters and digits of the
    text, lowercased: every word is non-empty and made of lowercase letters
    and digits; a character outside [[a-zA-Z0-9]] separates the words on its
    two sides; and a non-empty text of letters and digits is one word. *)
Theorem normalize_text_words (text a b w : string) (c : ascii) :
  Forall (fun x => x <> EmptyString /\ all_chars is_lower_alnum x = true)
         (normalize_text text)
  /\ (is_alnum c = false ->
      normalize_text (a ++ String c b)
      = normalize_text a ++ normalize_text b)
  /\ (w <> EmptyString -> all_chars is_alnum w = true ->
      normalize_text w = [lower w]).
Proof.
  unfold normalize_text. rewrite !normalize_text_refines.
  split; [apply alnum_words_shape|]. split.
  - apply alnum_words_separator.
  - apply alnum_words_single.
Qed.

Lemma normalize_text_words_witness :
  normalize_text ("Shop" ++ String "-"%char "SO1")
  = normalize_text "Shop" ++ normalize_text "SO1".
Proof.
  refine (proj1 (proj2 (normalize_text_words "" "Shop" "SO1" "" "-"%char)) _).
  reflexivity.
Defined.

Lemma all_alnum_of_lower (w v : string) :
  lower w = v -> all_chars is_alnum v = true -> all_chars is_alnum w = true.
Proof.
  intros <-. induction w as [|c r IH]; [reflexivity|].
  cbn [lower all_chars]. rewrite lower_alnum. intros H.
  apply andb_true_iff in H as [Hc Hr]. now rewrite Hc, IH.
Qed.

Lemma mem_app (x : string) (l l' : list string) :
  mem x (l ++ l') = mem x l || mem x l'.
Proof. unfold mem. apply existsb_app. Qed.

(** [contains_test] and [contains_regular] look for [so1] and [so2] as whole
    words, in any casing: the marker is found between two separators, and a
    text of letters and digits only carries it exactly when it is the
    marker. *)
Theorem marker_is_a_whole_word (a b w : string) (c1 c2 : ascii) :
  (is_alnum c1 = false -> is_alnum c2 = false -> lower w = "so1" ->
   contains_test (a ++ String c1 (w ++ String c2 b)) = true)
  /\ (is_alnum c1 = false -> is_alnum c2 = false -> lower w = "so2" ->
      contains_regular (a ++ String c1 (w ++ String c2 b)) = true)
  /\ (w <> EmptyString -> all_chars is_alnum w = true ->
      contains_test w = String.eqb "so1" (lower w)
      /\ contains_regular w = String.eqb "so2" (lower w)).
Proof.
  assert (Hfound : forall marker,
            all_chars is_alnum marker = true -> marker <> EmptyString ->
            is_alnum c1 = false -> is_alnum c2 = false -> lower w = marker ->
            mem marker (normalize_text (a ++ String c1 (w ++ String c2 b)))
            = true).
  { intros marker Hm Hne H1 H2 Hw. unfold normalize_text.
    rewrite !normalize_text_refines.
    rewrite (alnum_words_separator a c1 _ H1).
    rewrite (alnum_words_separator w c2 _ H2).
    rewrite (alnum_words_single w).
    - rewrite Hw, !mem_app. cbn [mem existsb]. rewrite String.eqb_refl.
      cbn. apply orb_true_r.
    - intros ->. cbn in Hw. congruence.
    - now apply (all_alnum_of_lower w marker). }
  split; [|split].
  - intros H1 H2 Hw. now apply (Hfound "so1").
  - intros H1 H2 Hw. now apply (Hfound "so2").
  - intros Hne Hw. unfold contains_test, contains_regular, normalize_text.
    rewrite !normalize_text_refines, (alnum_words_single w Hne Hw).
    cbn [mem existsb]. now rewrite !orb_false_r.
Qed.

Lemma marker_is_a_whole_word_witness :
  contains_test ("Shop" ++ String "-"%char ("SO1" ++ String "-"%char "P100"))
  = true.
Proof.
  refine (proj1 (marker_is_a_whole_word "Shop" "P100" "SO1"
                   "-"%char "-"%char) _ _ _); reflexivity.
Defined.

End CampaignWordsSpec.

(** ** The name resolver, beyond the flexible parser *)

Module NameResolverMore.
Import PyStr PyStrFacts Py EditBudgetWorker.

Ltac ascii_fact c :=
  destruct c as [[] [] [] [] [] [] [] []]; vm_compute; intros;
  repeat split; congruence.

Lemma split_nonempty (s : string) : split "-"%char s <> [].
Proof.
  destruct s as [|c r]; [discriminate|]. cbn [split].
  destruct (Ascii.eqb c "-"%char); [discriminate|].
  destruct (split "-"%char r); discriminate.
Qed.

Lemma split_dash_free (a : string) :
  EditLocationWorker.dash_free a = true -> split "-"%char a = [a].
Proof.
  unfold EditLocationWorker.dash_free.
  induction a as [|c a IH]; [reflexivity|]. cbn [all_chars split].
  intros H. apply andb_true_iff in H as [Hc Ha].
  apply negb_true_iff in Hc. now rewrite Hc, (IH Ha).
Qed.

Lemma split_app_dash (a b : string) :
  EditLocationWorker.dash_free a = true ->
  split "-"%char (a ++ "-" ++ b) = a :: split "-"%char b.
Proof.
  unfold EditLocationWorker.dash_free.
  induction a as [|c a IH]; [reflexivity|]. cbn [all_chars].
  intros H. apply andb_true_iff in H as [Hc Ha].
  apply negb_true_iff in Hc. rewrite CodeFilterMore.append_cons. cbn [split].
  now rewrite Hc, (IH Ha).
Qed.

Lemma split_join (parts : list string) :
  parts <> [] ->
  Forall (fun p => EditLocationWorker.dash_free p = true) parts ->
  split "-"%char (EditLocationWorker.join "-" parts) = parts.
Proof.
  intros Hne H. induction H as [|p rest Hp Hrest IH]; [congruence|].
  destruct rest as [|q rest'].
  - now apply split_dash_free.
  - change (EditLocationWorker.join "-" (p :: q :: rest'))
      with (p ++ "-" ++ EditLocationWorker.join "-" (q :: rest'))%string.
    rewrite (split_app_dash _ _ Hp), IH; [reflexivity|discriminate].
Qed.

Lemma split_pieces_dash_free (s : string) :
  Forall (fun p => EditLocationWorker.dash_free p = true)
         (split "-"%char s).
Proof.
  induction s as [|c r IH]; [repeat constructor|]. cbn [split].
  destruct (Ascii.eqb c "-"%char) eqn:Ec; [now constructor|].
  destruct (split "-"%char r) as [|p ps]; [repeat constructor; cbn;
    now rewrite Ec|].
  inversion IH as [|? ? Hp Hps]; subst. constructor; [|exact Hps].
  unfold EditLocationWorker.dash_free in *. cbn [all_chars].
  now rewrite Ec, Hp.
Qed.

Lemma lower_char_keeps_dash_free c :
  negb (Ascii.eqb (lower_char c) "-"%char) = negb (Ascii.eqb c "-"%char).
Proof. now rewrite lower_char_dash. Qed.

Lemma lower_dash_free (s : string) :
  EditLocationWorker.dash_free (lower s) = EditLocationWorker.dash_free s.
Proof.
  unfold EditLocationWorker.dash_free.
  induction s as [|c r IH]; [reflexivity|]. cbn [lower all_chars].
  now rewrite lower_char_keeps_dash_free, IH.
Qed.

Lemma strip_dash_free (s : string) :
  EditLocationWorker.dash_free s = true ->
  EditLocationWorker.dash_free (strip s) = true.
Proof.
  unfold EditLocationWorker.dash_free, strip, strip_by. intros H.
  now apply all_chars_rstrip, all_chars_lstrip.
Qed.

(** The page name that [extract_page_name] takes from a campaign name is
    free of dashes and, unless it is empty, is found in that name by the
    flexible parser. *)
Theorem extracted_page_is_found (campaign_name item code : string) :
  EditLocationWorker.dash_free
    (EditBudgetTask.extract_page_name campaign_name) = true
  /\ (EditBudgetTask.extract_page_name campaign_name <> "" ->
      page_name_found
        (parse_campaign_name_flexible campaign_name
           (EditBudgetTask.extract_page_name campaign_name) item code)
      = true).
Proof.
  unfold EditBudgetTask.extract_page_name.
  destruct (truthy campaign_name) eqn:Et; [|split; [reflexivity|congruence]].
  destruct (split "-"%char campaign_name) as [|h t] eqn:Es;
    [now apply split_nonempty in Es|].
  cbn [hd]. pose proof (split_pieces_dash_free campaign_name) as Hfree.
  rewrite Es in Hfree. inversion Hfree as [|? ? Hh _]; subst. split.
  - apply strip_dash_free. now rewrite lower_dash_free.
  - intros Hne. unfold parse_campaign_name_flexible. rewrite Et.
    cbn [negb page_name_found]. rewrite strip_lower in *.
    apply NameResolverSpec.found_in_iff. split; [exact Hne|].
    rewrite lower_idem. unfold name_parts. rewrite Es. now left.
Qed.

Lemma extracted_page_is_found_witness :
  page_name_found
    (parse_campaign_name_flexible " Shop A -Bag-P7"
       (EditBudgetTask.extract_page_name " Shop A -Bag-P7") "bag" "p7")
  = true.
Proof.
  refine (proj2 (extracted_page_is_found " Shop A -Bag-P7" "bag" "p7") _).
  vm_compute. discriminate.
Defined.

Lemma find_p_code (rest : list string) :
  default "" (List.find EditLocationWorker.is_p_code rest) = ""
  \/ EditLocationWorker.is_p_code
       (default "" (List.find EditLocationWorker.is_p_code rest)) = true.
Proof.
  destruct (List.find EditLocationWorker.is_p_code rest) as [x|] eqn:E;
    [|now left].
  right. now apply find_some in E.
Qed.

(** [parse_campaign_name] reads a name by position.  For a name joined from
    dash-free parts, the page and the item are the first two parts, trimmed,
    and the code is the first later part of the form [P] and digits, or
    empty when there is none; a name without a dash is handed back whole,
    untrimmed, as the page; the code returned is always empty or of that
    form; and the page and the item it reads off a name of two parts or more
    are found in that name by the flexible parser. *)
Theorem positional_parse_reads_the_parts (p0 p1 : string)
    (rest : list string) (campaign_name x y : string) :
  (EditLocationWorker.dash_free p0 = true ->
   EditLocationWorker.dash_free p1 = true ->
   Forall (fun p => EditLocationWorker.dash_free p = true) rest ->
   EditLocationWorker.parse_campaign_name
     (EditLocationWorker.join "-" (p0 :: p1 :: rest))
   = EditLocationWorker.ParsedName (strip p0) (strip p1)
       (default "" (List.find EditLocationWorker.is_p_code rest)))
  /\ (campaign_name <> "" ->
      EditLocationWorker.dash_free campaign_name = true ->
      EditLocationWorker.parse_campaign_name campaign_name
      = EditLocationWorker.ParsedName campaign_name "" "")
  /\ (let code := EditLocationWorker.campaign_code
                    (EditLocationWorker.parse_campaign_name campaign_name) in
      code = "" \/ EditLocationWorker.is_p_code code = true)
  /\ (split "-"%char campaign_name = p0 :: p1 :: rest ->
      let r := EditLocationWorker.parse_campaign_name campaign_name in
      (EditLocationWorker.page_name r <> "" ->
       page_name_found
         (parse_campaign_name_flexible campaign_name
            (EditLocationWorker.page_name r) x y) = true)
      /\ (EditLocationWorker.item_name r <> "" ->
          item_name_found
            (parse_campaign_name_flexible campaign_name x
               (EditLocationWorker.item_name r) y) = true)).
Proof.
  split; [|split; [|split]].
  - intros H0 H1 Hrest. unfold EditLocationWorker.parse_campaign_name.
    rewrite split_join; [|discriminate|repeat constructor; assumption].
    change (EditLocationWorker.join "-" (p0 :: p1 :: rest))
      with (p0 ++ "-" ++ EditLocationWorker.join "-" (p1 :: rest))%string.
    destruct (p0 ++ "-" ++ EditLocationWorker.join "-" (p1 :: rest))%string
      eqn:E; [|reflexivity].
    destruct p0; discriminate.
  - intros Hne Hfree. unfold EditLocationWorker.parse_campaign_name.
    rewrite (split_dash_free _ Hfree).
    destruct campaign_name; [congruence|reflexivity].
  - unfold EditLocationWorker.parse_campaign_name.
    destruct (truthy campaign_name); cbn [negb]; [|now left].
    destruct (split "-"%char campaign_name) as [|q0 [|q1 qs]];
      [now left|now left|].
    cbn [EditLocationWorker.campaign_code]. apply find_p_code.
  - intros Hsplit r. subst r.
    unfold EditLocationWorker.parse_campaign_name. rewrite Hsplit.
    assert (Ht : truthy campaign_name = true).
    { destruct campaign_name; [discriminate|reflexivity]. }
    rewrite Ht. cbn [negb EditLocationWorker.page_name
                       EditLocationWorker.item_name].
    unfold parse_campaign_name_flexible. rewrite Ht.
    cbn [negb page_name_found item_name_found]. split; intros Hne.
    + apply NameResolverSpec.found_in_iff. split; [exact Hne|].
      unfold name_parts. rewrite Hsplit. now left.
    + apply NameResolverSpec.found_in_iff. split; [exact Hne|].
      unfold name_parts. rewrite Hsplit. right. now left.
Qed.

Lemma positional_parse_reads_the_parts_witness :
  EditLocationWorker.parse_campaign_name
    (EditLocationWorker.join "-" ["Marisse "; "HairOil"; "so2"; "P199"])
  = EditLocationWorker.ParsedName "Marisse" "HairOil" "P199".
Proof.
  refine (proj1 (positional_parse_reads_the_parts "Marisse " "HairOil"
                   ["so2"; "P199"] "" "" "") _ _ _).
  - reflexivity.
  - reflexivity.
  - repeat constructor.
Defined.

End NameResolverMore.

(** ** The lookup of a campaign by its components *)

Module CampaignLookupSpec.
Import PyStr Py EditBudgetWorker.

Import EditBudgetTask.

Lemma scan_sound (page item code : string) (data : list campaign) :
  forall best id,
  scan_campaigns page item code best data = Return id ->
  id = ""
  \/ exists c, In c data /\ c_id c = Some id
               /\ fully_matches page item code c = true.
Proof.
  induction data as [|c rest IH]; intros best id H; cbn [scan_campaigns] in H.
  - left. congruence.
  - fold (fully_matches page item code c) in H.
    destruct (Nat.ltb best _) eqn:Eb.
    + destruct (c_id c) as [cid|] eqn:Eid; [|discriminate].
      destruct (fully_matches page item code c) eqn:Ef.
      * right. exists c. injection H as <-. repeat split; auto. now left.
      * destruct (IH _ _ H) as [->|(c' & Hin & Hid & Hf)]; [now left|].
        right. exists c'. repeat split; auto. now right.
    + destruct (fully_matches page item code c) eqn:Ef.
      * destruct (c_id c) as [cid|] eqn:Eid; [|discriminate].
        right. exists c. injection H as <-. repeat split; auto. now left.
      * destruct (IH _ _ H) as [->|(c' & Hin & Hid & Hf)]; [now left|].
        right. exists c'. repeat split; auto. now right.
Qed.


Lemma find_sound (response : option (list campaign))
    (page item code : option string) (id : string) :
  find_campaign_id_by_components response page item code = Return id ->
  id = ""
  \/ exists data c,
       response = Some data /\ In c data /\ c_id c = Some id
       /\ fully_matches (norm_lower_strip page) (norm_lower_strip item)
            (norm_strip code) c = true.
Proof.
  unfold find_campaign_id_by_components.
  destruct response as [data|]; [|left; congruence].
  destruct (negb _ || negb _ || negb _)%bool; [left; congruence|].
  intros H. destruct (scan_sound _ _ _ _ _ _ H) as [->|(c & H1 & H2 & H3)];
    [now left|].
  right. now exists data, c.
Qed.



End CampaignLookupSpec.

(** ** The budget and location tasks *)

Module TaskSpec.
Import PyStr Py EditBudgetWorker.

Section Budget.
Import EditBudgetTask.

(** [update_budget_by_campaign_name] writes a budget at most once, and only
    to a campaign of the listing whose name carries all three components; it
    reports success exactly when that write went through; and a budget
    that is not a number makes the task raise at its start message, before
    the listing is asked for. *)
Theorem budget_is_written_to_a_full_match (pf : platform)
    (campaign_name : option string) (b : budget)
    (item code : option string) (w : list event) :
  exists r evs,
    update_budget_by_campaign_name pf campaign_name b item code w
    = (r, w ++ evs)
    /\ (forall id z ok, In (id, z, ok) (budget_posts evs) ->
          budget_posts evs = [(id, z, ok)]
          /\ ok = budget_post pf id z
          /\ (r = Return (if ok then BudgetUpdated id
                          else BudgetUpdateFailed id))
          /\ exists data c,
               listing pf = Some data /\ In c data /\ c_id c = Some id
               /\ fully_matches (norm_lower_strip campaign_name)
                    (norm_lower_strip item) (norm_strip code) c = true)
    /\ (forall id, r = Return (BudgetUpdated id) ->
          exists z, budget_posts evs = [(id, z, true)])
    /\ ((forall q, b <> BudgetNum q) ->
        evs = [] /\ exists e, r = Raise e).
Proof.
  unfold update_budget_by_campaign_name.
  destruct b as [q|s|]; cbn [format_budget lift].
  2:{ exists (Raise ValueError), []. rewrite app_nil_r.
      split; [reflexivity|]. split; [intros ? ? ? []|].
      split; [discriminate|]. intros _. split; [reflexivity|eauto]. }
  2:{ exists (Raise TypeError), []. rewrite app_nil_r.
      split; [reflexivity|]. split; [intros ? ? ? []|].
      split; [discriminate|]. intros _. split; [reflexivity|eauto]. }
  unfold bind at 1. unfold bind at 1. unfold bind at 1. unfold bind at 1.
  cbn [say emit]. unfold lift.
  destruct (find_campaign_id_by_components (listing pf) campaign_name item
              code) as [id|e] eqn:Efind.
  2:{ eexists _, _. split; [rewrite <- app_assoc; reflexivity|].
      split; [intros ? ? ? []|]. split; [discriminate|].
      intros H. now elim (H q). }
  destruct (truthy id) eqn:Et; cbn [negb].
  2:{ unfold bind, say, emit, ret. eexists _, _.
      split; [rewrite <- !app_assoc; reflexivity|].
      split; [intros ? ? ? []|]. split; [discriminate|].
      intros H. now elim (H q). }
  destruct (CampaignLookupSpec.find_sound _ _ _ _ _ Efind)
    as [->|(data & c & Hl & Hin & Hid & Hf)]; [discriminate|].
  unfold try_except, convert_to_minor_units, update_campaign_budget,
    bind, say, emit, ret.
  destruct (budget_post pf id (minor_units_of_number pf q)) eqn:Eok.
  - eexists _, _. split; [rewrite <- !app_assoc; reflexivity|].
    cbn [app budget_posts]. split; [|split].
    + intros id' z ok [H|[]]. injection H as <- <- <-.
      split; [reflexivity|]. split; [now rewrite Eok|].
      split; [reflexivity|]. now exists data, c.
    + intros id' H. injection H as <-. eauto.
    + intros H. now elim (H q).
  - eexists _, _. split; [rewrite <- !app_assoc; reflexivity|].
    cbn [app budget_posts]. split; [|split].
    + intros id' z ok [H|[]]. injection H as <- <- <-.
      split; [reflexivity|]. split; [now rewrite Eok|].
      split; [reflexivity|]. now exists data, c.
    + discriminate.
    + intros H. now elim (H q).
Qed.

End Budget.

Lemma budget_is_written_to_a_full_match_witness :
  exists r evs,
    EditBudgetTask.update_budget_by_campaign_name
      (EditBudgetTask.Platform None (fun _ _ => true) (fun _ => 0%Z)
         (fun _ => None))
      (Some "Shop") (EditBudgetTask.BudgetStr "1,000") (Some "bag")
      (Some "P7") []
    = (r, [] ++ evs)
    /\ evs = [] /\ exists e, r = Raise e.
Proof.
  destruct (budget_is_written_to_a_full_match
              (EditBudgetTask.Platform None (fun _ _ => true) (fun _ => 0%Z)
                 (fun _ => None))
              (Some "Shop") (EditBudgetTask.BudgetStr "1,000") (Some "bag")
              (Some "P7") [])
    as (r & evs & Hrun & _ & _ & Hraise).
  exists r, evs. split; [exact Hrun|]. apply Hraise. discriminate.
Defined.

Section Locations.
Import EditLocationWorker.

Lemma targeting_posts_app (l l' : list event) :
  targeting_posts (l ++ l') = targeting_posts l ++ targeting_posts l'.
Proof.
  induction l as [|e l IH]; [reflexivity|].
  destruct e; cbn [app targeting_posts]; now rewrite IH.
Qed.

Lemma update_all_run (pf : platform) (payload : targeting)
    (ids : list string) :
  forall (s f : nat) (w : list event),
  exists evs,
    update_all pf payload ids s f w
    = (Return (s + length (List.filter
                             (fun a => targeting_post pf a payload) ids),
               f + length (List.filter
                             (fun a => negb (targeting_post pf a payload))
                             ids)),
       w ++ evs)
    /\ targeting_posts evs
       = map (fun a => (a, payload, targeting_post pf a payload)) ids.
Proof.
  induction ids as [|a rest IH]; intros s f w.
  - exists []. cbn. rewrite app_nil_r, !Nat.add_0_r. now split.
  - cbn [update_all List.filter map]. unfold update_ad_set_targeting.
    unfold bind at 1. unfold bind at 1. cbn [emit ret].
    destruct (targeting_post pf a payload) eqn:Eok; cbn [negb].
    + unfold bind at 1. cbn [say emit].
      destruct (IH (s + 1) f ((w ++ [EvTargetingPost a payload true])
                              ++ [EvMsg (MsgAdSetUpdated a)]))
        as (evs & Hrun & Hposts).
      rewrite Hrun.
      exists ([EvTargetingPost a payload true; EvMsg (MsgAdSetUpdated a)]
              ++ evs).
      split.
      * rewrite <- !app_assoc. cbn [length app].
        replace (s + 1 + length (List.filter
                   (fun a => targeting_post pf a payload) rest))
          with (s + S (length (List.filter
                   (fun a => targeting_post pf a payload) rest))) by lia.
        reflexivity.
      * cbn [app targeting_posts]. now rewrite Hposts.
    + unfold bind at 1. cbn [say emit].
      destruct (IH s (f + 1) ((w ++ [EvTargetingPost a payload false])
                              ++ [EvMsg (MsgAdSetFailed a)]))
        as (evs & Hrun & Hposts).
      rewrite Hrun.
      exists ([EvTargetingPost a payload false; EvMsg (MsgAdSetFailed a)]
              ++ evs).
      split.
      * rewrite <- !app_assoc. cbn [length app].
        replace (f + 1 + length (List.filter
                   (fun a => negb (targeting_post pf a payload)) rest))
          with (f + S (length (List.filter
                   (fun a => negb (targeting_post pf a payload)) rest)))
          by lia.
        reflexivity.
      * cbn [app targeting_posts]. now rewrite Hposts.
Qed.

(** [update_locations_by_campaign_components] ends with the counts only
    after it has written the same payload once to every ad set listed under
    a campaign whose name carries all three components, in the order of the
    listing and whatever the writes answer: the successes and the failures
    add up to the number of ad sets.  The payload excludes the regions and
    cities found for the names, each city with a radius of 25 miles, inside
    the country PH.  On every other way out nothing is written. *)
Theorem locations_are_written_to_every_ad_set (pf : platform)
    (page : option string) (names : list string)
    (item code : option string) (w : list event) :
  exists r evs,
    update_locations_by_campaign_components pf page names item code w
    = (r, w ++ evs)
    /\ match r with
       | Return (Finished s f) =>
           exists data c cid ads ids regions cities,
             listing pf = Some data /\ In c data /\ c_id c = Some cid
             /\ EditBudgetTask.fully_matches (norm_lower_strip page)
                  (norm_lower_strip item) (norm_strip code) c = true
             /\ ad_sets_of pf cid = Some ads /\ ids_of ads = Return ids
             /\ location_keys pf names = (regions, cities)
             /\ (regions <> [] \/ cities <> [])
             /\ let payload :=
                  Targeting ["PH"] regions
                    (map (fun key => (key, 25, "mile")) cities) in
                targeting_posts evs
                = map (fun a => (a, payload, targeting_post pf a payload))
                      ids
                /\ s = length (List.filter
                                 (fun a => targeting_post pf a payload) ids)
                /\ s + f = length ids
       | _ => targeting_posts evs = []
       end.
Proof.
  unfold update_locations_by_campaign_components.
  unfold bind at 1. unfold bind at 1. unfold bind at 1.
  cbn [say emit]. unfold lift.
  destruct (find_campaign_id_by_components (listing pf) page item code)
    as [cid|e] eqn:Efind.
  2:{ eexists _, _. split; [rewrite <- app_assoc; reflexivity|]. reflexivity. }
  destruct (truthy cid) eqn:Et; cbn [negb].
  2:{ unfold bind, say, emit, ret. eexists _, _.
      split; [rewrite <- !app_assoc; reflexivity|]. reflexivity. }
  destruct (CampaignLookupSpec.find_sound _ _ _ _ _ Efind)
    as [->|(data & c & Hl & Hin & Hid & Hf)]; [discriminate|].
  unfold bind at 1. unfold find_ad_set_ids_by_campaign_id.
  unfold bind at 1. cbn [emit].
  destruct (ad_sets_of pf cid) as [ads|] eqn:Eads.
  2:{ unfold bind, say, emit, ret. eexists _, _.
      split; [rewrite <- !app_assoc; reflexivity|]. reflexivity. }
  unfold lift. destruct (ids_of ads) as [ids|e] eqn:Eids.
  2:{ eexists _, _. split; [rewrite <- !app_assoc; reflexivity|].
      reflexivity. }
  destruct ids as [|a0 ids'].
  { unfold bind, say, emit, ret. eexists _, _.
    split; [rewrite <- !app_assoc; reflexivity|]. reflexivity. }
  remember (a0 :: ids') as ids eqn:Eq.
  unfold bind at 1. unfold bind at 1. cbn [say emit].
  destruct (location_keys pf names) as [regions cities] eqn:Ekeys.
  assert (Hgo : regions <> [] \/ cities <> [] ->
    exists r evs,
      (let* (success_count, failure_count) :=
         update_all pf (Targeting ["PH"] regions
                          (map (fun key => (key, 25, "mile")) cities))
           ids 0 0 in
       say (MsgFinished success_count failure_count);;
       ret (Finished success_count failure_count))%py
        (((((w ++ [EvMsg MsgStart]) ++ [EvListing]) ++ [EvAdSets cid])
          ++ [EvMsg (MsgFound (length ids))])
         ++ [EvLocationQuery names])
      = (r, w ++ evs)
      /\ match r with
         | Return (Finished s f) =>
             exists data c cid ads ids regions0 cities0,
               listing pf = Some data /\ In c data /\ c_id c = Some cid
               /\ EditBudgetTask.fully_matches (norm_lower_strip page)
                    (norm_lower_strip item) (norm_strip code) c = true
               /\ ad_sets_of pf cid = Some ads /\ ids_of ads = Return ids
               /\ (regions, cities) = (regions0, cities0)
               /\ (regions0 <> [] \/ cities0 <> [])
               /\ let payload :=
                    Targeting ["PH"] regions0
                      (map (fun key => (key, 25, "mile")) cities0) in
                  targeting_posts evs
                  = map (fun a => (a, payload, targeting_post pf a payload))
                        ids
                  /\ s = length (List.filter
                                   (fun a => targeting_post pf a payload)
                                   ids)
                  /\ s + f = length ids
         | _ => targeting_posts evs = []
         end).
  { intros Hkeys. unfold bind at 1.
    edestruct (update_all_run pf) as (evs & Hrun & Hposts).
    rewrite Hrun. unfold bind, say, emit, ret. eexists _, _.
    split; [rewrite <- !app_assoc; reflexivity|]. cbn beta iota.
    exists data, c, cid, ads, ids, regions, cities.
    repeat (split; [assumption || reflexivity|]).
    split; [|split].
    - cbn [app targeting_posts]. rewrite targeting_posts_app, Hposts.
      cbn [targeting_posts]. now rewrite app_nil_r.
    - reflexivity.
    - cbn [Nat.add].
      clear. induction ids as [|a l IH]; [reflexivity|].
      cbn [List.filter]. destruct (targeting_post pf a _);
        cbn [negb length]; lia. }
  destruct regions as [|r0 regions'], cities as [|c0 cities'].
  - unfold bind, say, emit, ret. eexists _, _.
    split; [rewrite <- !app_assoc; reflexivity|]. reflexivity.
  - apply Hgo. right. discriminate.
  - apply Hgo. left. discriminate.
  - apply Hgo. left. discriminate.
Qed.

End Locations.

End TaskSpec.

(** ** The apply-and-verify layer: time and calls *)

Module RetryMore.
Import PyStr Py UpdateStatus TraceMeasures.

Lemma slept_app (l l' : list event) : slept (l ++ l') = slept l + slept l'.
Proof.
  induction l as [|e l IH]; [reflexivity|].
  destruct e; cbn [app slept]; rewrite IH; lia.
Qed.

Lemma count_app (p : event -> bool) (l l' : list event) :
  count p (l ++ l') = count p l + count p l'.
Proof. unfold count. now rewrite List.filter_app, length_app. Qed.

Lemma slept_note (entity_id new_status : string) (attempt : nat) :
  slept (retry_note entity_id new_status attempt) = 0.
Proof. unfold retry_note. now destruct (Nat.ltb 0 attempt). Qed.

Lemma count_note (p : event -> bool) (entity_id new_status : string)
    (attempt : nat) :
  (forall m, p (EvMsg m) = false) ->
  count p (retry_note entity_id new_status attempt) = 0.
Proof.
  intros Hp. unfold retry_note, count.
  destruct (Nat.ltb 0 attempt); cbn; now rewrite ?Hp.
Qed.

Lemma count_backoff (p : event -> bool) (max_retries attempt : nat) :
  (forall n, p (EvSleep n) = false) ->
  count p (backoff max_retries attempt) = 0.
Proof.
  intros Hp. unfold backoff, count.
  destruct (Nat.ltb attempt max_retries); cbn; now rewrite ?Hp.
Qed.

Lemma slept_bounded (entity_id entity_name new_status : string)
    (max_retries attempt : nat) (evs : list event) (result : bool) :
  attempts_trace entity_id entity_name new_status max_retries attempt evs
    result ->
  slept evs + 2 ^ (Nat.min attempt max_retries) + attempt
  <= max_retries + 1 + 2 ^ max_retries.
Proof.
  induction 1 as [|a Ha|a got later r Ha Hgot Hlater IH|a later r Ha Hlater IH].
  - rewrite Nat.min_r by lia. cbn [slept]. lia.
  - rewrite slept_app, slept_note. cbn [slept]. rewrite Nat.min_l by lia.
    assert (2 ^ a <= 2 ^ max_retries) by (apply Nat.pow_le_mono_r; lia).
    lia.
  - rewrite slept_app, slept_note. cbn [app slept]. rewrite slept_app.
    unfold backoff. destruct (Nat.ltb a max_retries) eqn:E.
    + apply Nat.ltb_lt in E. rewrite Nat.min_l in IH by lia.
      rewrite Nat.min_l by lia. cbn [slept]. rewrite Nat.pow_succ_r' in IH.
      lia.
    + apply Nat.ltb_ge in E. rewrite Nat.min_r in IH by lia.
      rewrite Nat.min_l by lia. cbn [slept app].
      replace a with max_retries in * by lia. lia.
  - rewrite slept_app, slept_note. cbn [app slept]. rewrite slept_app.
    unfold backoff. destruct (Nat.ltb a max_retries) eqn:E.
    + apply Nat.ltb_lt in E. rewrite Nat.min_l in IH by lia.
      rewrite Nat.min_l by lia. cbn [slept]. rewrite Nat.pow_succ_r' in IH.
      lia.
    + apply Nat.ltb_ge in E. rewrite Nat.min_r in IH by lia.
      rewrite Nat.min_l by lia. cbn [slept app].
      replace a with max_retries in * by lia. lia.
Qed.

Lemma reads_follow_accepted_writes (entity_id entity_name new_status : string)
    (max_retries attempt : nat) (evs : list event) (result : bool) :
  attempts_trace entity_id entity_name new_status max_retries attempt evs
    result ->
  count is_get evs = count is_accepted_post evs
  /\ count (is_verified_get new_status) evs = Nat.b2n result.
Proof.
  induction 1 as [|a Ha|a got later r Ha Hgot Hlater IH|a later r Ha Hlater IH].
  - now split.
  - rewrite !count_app, !count_note by reflexivity.
    unfold count. cbn. now rewrite String.eqb_refl.
  - destruct IH as [IH1 IH2].
    rewrite !count_app, !count_note, !count_backoff by reflexivity.
    rewrite IH1, IH2. unfold count at 1 3 5. cbn.
    split; [reflexivity|].
    destruct got as [s|]; [|reflexivity].
    destruct (String.eqb s new_status) eqn:E; [|reflexivity].
    apply String.eqb_eq in E. congruence.
  - destruct IH as [IH1 IH2].
    rewrite !count_app, !count_note, !count_backoff by reflexivity.
    rewrite IH1, IH2. now unfold count at 1 3 5.
Qed.

Lemma trace_calls_target (entity_id entity_name new_status : string)
    (max_retries attempt : nat) (evs : list event) (result : bool) :
  attempts_trace entity_id entity_name new_status max_retries attempt evs
    result ->
  calls_within (fun e s => e = entity_id /\ s = new_status)
    (fun e => e = entity_id) evs.
Proof.
  unfold calls_within.
  assert (Hnote : forall a,
            Forall (fun e => match e with
                             | EvPost entity status _ =>
                                 entity = entity_id /\ status = new_status
                             | EvGet entity _ => entity = entity_id
                             | _ => True
                             end) (retry_note entity_id new_status a)).
  { intros a. unfold retry_note. destruct (Nat.ltb 0 a); repeat constructor. }
  assert (Hback : forall a,
            Forall (fun e => match e with
                             | EvPost entity status _ =>
                                 entity = entity_id /\ status = new_status
                             | EvGet entity _ => entity = entity_id
                             | _ => True
                             end) (backoff max_retries a)).
  { intros a. unfold backoff.
    destruct (Nat.ltb a max_retries); repeat constructor. }
  induction 1; repeat (apply Forall_app; split); auto;
    repeat constructor.
Qed.

(** A run of [update_facebook_status_with_retry] sleeps at most
    [max_retries + 2 ^ max_retries] seconds in all, 6 with the default
    budget; it reads the status back once for every write the platform
    accepted and never otherwise; it has one read-back equal to the target
    when it returns [True] and none when it returns [False]; and it calls
    the platform for the entity and the status it was given only. *)
Theorem retry_time_and_calls_are_bounded (pf : platform)
    (entity_id entity_name new_status : string) (max_retries : nat)
    (w : world pf) :
  exists (result : bool) (p : pstate pf) (evs : list event),
    update_facebook_status_with_retry entity_id entity_name new_status
      max_retries w
    = (Return result, World p (trace w ++ evs))
    /\ slept evs <= max_retries + 2 ^ max_retries
    /\ (max_retries = default_max_retries -> slept evs <= 6)
    /\ count is_get evs = count is_accepted_post evs
    /\ count (is_verified_get new_status) evs = Nat.b2n result
    /\ calls_within (fun e s => e = entity_id /\ s = new_status)
         (fun e => e = entity_id) evs.
Proof.
  destruct (RetrySpec.retry_attempts_trace entity_id entity_name new_status
              max_retries (max_retries + 1) 0 w eq_refl)
    as (result & p & evs & Hrun & Htrace).
  exists result, p, evs. split; [exact Hrun|].
  pose proof (slept_bounded _ _ _ _ _ _ _ Htrace) as Hs.
  rewrite Nat.min_0_l in Hs. cbn [Nat.pow] in Hs.
  destruct (reads_follow_accepted_writes _ _ _ _ _ _ _ Htrace) as [Hr Hv].
  repeat split; try assumption.
  - lia.
  - intros ->. unfold default_max_retries in Hs. cbn in Hs. lia.
  - now apply (trace_calls_target _ entity_name _ max_retries 0 _ result).
Qed.

Lemma retry_time_and_calls_are_bounded_witness :
  exists (result : bool) (p : pstate (stuck_platform "ACTIVE"))
         (evs : list event),
    update_facebook_status_with_retry "a1" "Ad set 1" "PAUSED"
      default_max_retries (World (tt : pstate (stuck_platform "ACTIVE")) [])
    = (Return result, World p ([] ++ evs))
    /\ slept evs <= 6.
Proof.
  destruct (retry_time_and_calls_are_bounded (stuck_platform "ACTIVE")
              "a1" "Ad set 1" "PAUSED" default_max_retries
              (World (tt : pstate (stuck_platform "ACTIVE")) []))
    as (result & p & evs & Hrun & _ & Hsix & _).
  exists result, p, evs. split; [exact Hrun|]. apply Hsix. reflexivity.
Defined.

Section Refusing.
Context {pf : platform}.
Variables entity_id entity_name new_status : string.
Variable max_retries : nat.
Hypothesis refuses :
  forall p, fst (post_status pf entity_id new_status p) = false.

Lemma refused_attempts (n : nat) : forall (a : nat) (w : world pf),
  a + n = max_retries + 1 ->
  exists p evs,
    retry_attempts entity_id entity_name new_status max_retries (seq a n) w
    = (Return false, World p (trace w ++ evs))
    /\ count is_post evs = n
    /\ count is_get evs = 0
    /\ slept evs + 2 ^ (Nat.min a max_retries) = 2 ^ max_retries.
Proof.
  induction n as [|n IH]; intros a w Ha.
  - exists (plat w),
      [EvMsg (MsgGaveUp entity_name new_status (max_retries + 1))].
    split; [reflexivity|]. rewrite Nat.min_r by lia. now repeat split.
  - cbn [seq]. rewrite RetrySpec.attempt_step. cbv zeta.
    pose proof (refuses (plat w)) as Hr.
    destruct (post_status pf entity_id new_status (plat w)) as [ok p1].
    cbn [fst] in Hr. subst ok.
    edestruct (IH (S a)) as (p & evs & Hrun & Hposts & Hgets & Hslept);
      [lia|].
    rewrite Hrun. cbn [trace].
    eexists p, _. split; [rewrite <- !app_assoc; reflexivity|].
    rewrite !count_app, !count_note, !count_backoff by reflexivity.
    rewrite !slept_app, slept_note, Hposts, Hgets. cbn [app].
    unfold count at 1 2. cbn [List.filter is_post is_get length slept].
    repeat split; try reflexivity.
    unfold backoff. destruct (Nat.ltb a max_retries) eqn:E.
    + apply Nat.ltb_lt in E. rewrite Nat.min_l in Hslept by lia.
      rewrite Nat.min_l by lia. cbn [slept].
      rewrite Nat.pow_succ_r' in Hslept. lia.
    + apply Nat.ltb_ge in E. rewrite Nat.min_r in Hslept by lia.
      rewrite Nat.min_l by lia. cbn [slept].
      replace a with max_retries by lia. lia.
Qed.

End Refusing.

(** When the platform refuses every write for the entity, the run makes
    [max_retries + 1] writes and no read, sleeps [2 ^ max_retries - 1]
    seconds of backoff in all, and returns [False]. *)
Theorem retry_against_refused_writes (pf : platform)
    (entity_id entity_name new_status : string) (max_retries : nat)
    (w : world pf) :
  (forall p, fst (post_status pf entity_id new_status p) = false) ->
  exists (p : pstate pf) (evs : list event),
    update_facebook_status_with_retry entity_id entity_name new_status
      max_retries w
    = (Return false, World p (trace w ++ evs))
    /\ count is_post evs = max_retries + 1
    /\ count is_get evs = 0
    /\ slept evs + 1 = 2 ^ max_retries.
Proof.
  intros Hrefuses.
  destruct (refused_attempts entity_id entity_name new_status max_retries
              Hrefuses (max_retries + 1) 0 w eq_refl)
    as (p & evs & Hrun & Hposts & Hgets & Hslept).
  exists p, evs. rewrite Nat.min_0_l in Hslept. cbn [Nat.pow] in Hslept.
  now repeat split.
Qed.

Lemma retry_against_refused_writes_witness :
  exists (p : pstate unreachable_platform) (evs : list event),
    update_facebook_status_with_retry "a1" "Ad set 1" "PAUSED" 2
      (World (tt : pstate unreachable_platform) [])
    = (Return false, World p ([] ++ evs))
    /\ count is_post evs = 2 + 1
    /\ count is_get evs = 0
    /\ slept evs + 1 = 2 ^ 2.
Proof.
  apply (retry_against_refused_writes unreachable_platform "a1" "Ad set 1"
           "PAUSED" 2 (World (tt : pstate unreachable_platform) [])).
  reflexivity.
Defined.

End RetryMore.

(** ** The decision pass over ad sets: scope and counts *)

Module AdsetPassMore.
Import PyStr Py UpdateStatus TraceMeasures.

Lemma calls_within_app (allowed : string -> string -> Prop)
    (readable : string -> Prop) (l l' : list event) :
  calls_within allowed readable l -> calls_within allowed readable l' ->
  calls_within allowed readable (l ++ l').
Proof. unfold calls_within. intros. now apply Forall_app. Qed.

Lemma calls_within_weaken (allowed allowed' : string -> string -> Prop)
    (readable readable' : string -> Prop) (l : list event) :
  (forall e s, allowed e s -> allowed' e s) ->
  (forall e, readable e -> readable' e) ->
  calls_within allowed readable l -> calls_within allowed' readable' l.
Proof.
  unfold calls_within. intros Ha Hr H. eapply Forall_impl; [exact H|].
  intros [] He; cbn in *; auto.
Qed.

Lemma messages_call_nothing (allowed : string -> string -> Prop)
    (readable : string -> Prop) (l : list event) :
  only_messages l -> calls_within allowed readable l.
Proof.
  unfold only_messages, calls_within. intros H.
  eapply Forall_impl; [exact H|]. now intros e [m ->].
Qed.

Lemma pass_calls_more (mode : string) (ids ids' : list string)
    (l : list event) :
  (forall e, In e ids -> In e ids') ->
  pass_calls mode ids l -> pass_calls mode ids' l.
Proof.
  intros H. unfold pass_calls. apply calls_within_weaken; [|exact H].
  intros e s [He Hs]. auto.
Qed.

Section Pass.
Context {pf : platform}.

Lemma retry_calls (id name t : string) (max_retries : nat) (w : world pf) :
  exists ok p evs,
    update_facebook_status_with_retry id name t max_retries w
    = (Return ok, World p (trace w ++ evs))
    /\ calls_within (fun e s => e = id /\ s = t) (fun e => e = id) evs.
Proof.
  destruct (RetrySpec.retry_attempts_trace id name t max_retries
              (max_retries + 1) 0 w eq_refl)
    as (ok & p & evs & Hrun & Htrace).
  exists ok, p, evs. split; [exact Hrun|].
  now apply (RetryMore.trace_calls_target id name t max_retries 0 evs ok).
Qed.

Lemma decide_target (mode : string) (threshold : Q) (cpp : pyfloat)
    (current name t : string) (w w' : world pf) :
  decide_adset mode threshold cpp current name w = (Return (Target t), w') ->
  pass_target mode t.
Proof.
  unfold decide_adset, bind, say, emit, ret, pass_target.
  destruct cpp as [q| |];
    [destruct (Qeq_bool q 0); [discriminate|];
     destruct (String.eqb mode "OFF");
       [destruct (Qle_bool threshold q)
       |destruct (String.eqb mode "ON") eqn:Eon;
          [apply String.eqb_eq in Eon; destruct (Qlt_bool q threshold)|]]
    |destruct (String.eqb current "PAUSED")
    |destruct (String.eqb current "PAUSED")];
    cbn; intros H; inversion H; auto.
Qed.

(** One ad set: the calls, the count and the result. *)
Lemma process_adset_account (mode : string) (threshold : Q)
    (tv : option string) (id : string) (a : adset_info) (w : world pf) :
  target_var_ok mode tv ->
  exists r p evs,
    process_adset mode threshold tv id a w = (r, World p (trace w ++ evs))
    /\ pass_calls mode [id] evs
    /\ match r with
       | Return (a', tv', updated) =>
           Nat.b2n updated
           = (if decide (STATUS a = STATUS a') then 0 else 1)
           /\ target_var_ok mode tv'
       | Raise e =>
           e = UnboundLocalError "target_status"
           /\ mode <> "ON" /\ mode <> "OFF"
       end.
Proof.
  intros Htv. unfold process_adset.
  destruct (DecisionSpec.decide_run mode threshold
              (default (PNum 0) (CPP a)) (default "" (STATUS a))
              (default "Unknown" (NAME a)) w)
    as (d & msgs & Hd & Hmsgs & Hmode).
  unfold bind at 1. rewrite Hd.
  assert (Htarget : forall t tv',
    pass_target mode t -> target_var_ok mode tv' ->
    exists r p evs,
      (let* (a', updated) :=
         apply_target id (default "Unknown" (NAME a))
           (default "" (STATUS a)) t a in
       (ret (a', tv', updated)
        : M (world pf) (adset_info * option string * bool)))%py
        (World (plat w) (trace w ++ msgs))
      = (r, World p (trace w ++ evs))
      /\ pass_calls mode [id] evs
      /\ match r with
         | Return (a', tv'', updated) =>
             Nat.b2n updated
             = (if decide (STATUS a = STATUS a') then 0 else 1)
             /\ target_var_ok mode tv''
         | Raise e =>
             e = UnboundLocalError "target_status"
             /\ mode <> "ON" /\ mode <> "OFF"
         end).
  { intros t tv' Ht Htv'. unfold bind. rewrite DecisionSpec.apply_target_eq.
    destruct (String.eqb (default "" (STATUS a)) t) eqn:Ecur.
    - unfold ret. eexists _, _, _.
      split; [cbn [plat trace]; rewrite <- app_assoc; reflexivity|].
      split.
      + apply calls_within_app; [now apply messages_call_nothing|].
        repeat constructor.
      + cbn beta iota. split; [|exact Htv'].
        now destruct (decide (STATUS a = STATUS a)).
    - cbn [plat trace].
      edestruct (retry_calls id (default "Unknown" (NAME a)) t
                   default_max_retries) as (ok & p & evs & Hrun & Hcalls).
      rewrite Hrun. cbn [plat trace]. unfold ret.
      assert (Hpass : pass_calls mode [id]
                (msgs ++ [EvMsg (MsgDecision (default "Unknown" (NAME a))
                                   (default "" (STATUS a)) t);
                          EvMsg (MsgUpdating (default "Unknown" (NAME a))
                                   (default "" (STATUS a)) t)]
                 ++ evs)).
      { apply calls_within_app; [now apply messages_call_nothing|].
        apply calls_within_app; [repeat constructor|].
        eapply calls_within_weaken; [| |exact Hcalls].
        - intros e s [-> ->]. split; [now left|exact Ht].
        - intros e ->. now left. }
      destruct ok.
      + eexists _, p, _. split; [rewrite <- !app_assoc; reflexivity|].
        split.
        * rewrite !app_assoc. apply calls_within_app;
            [rewrite <- !app_assoc; exact Hpass|repeat constructor].
        * cbn beta iota. split; [|exact Htv'].
          cbn [set_status STATUS Nat.b2n].
          destruct (decide (STATUS a = Some t)) as [E|]; [|reflexivity].
          rewrite E in Ecur. cbn in Ecur.
          now rewrite String.eqb_refl in Ecur.
      + eexists _, p, _. split; [rewrite <- !app_assoc; reflexivity|].
        split.
        * rewrite !app_assoc. apply calls_within_app;
            [rewrite <- !app_assoc; exact Hpass|repeat constructor].
        * cbn beta iota. split; [|exact Htv'].
          now destruct (decide (STATUS a = STATUS a)). }
  destruct d as [|t|].
  - eexists _, (plat w), msgs. split; [reflexivity|].
    split; [now apply messages_call_nothing|]. cbn beta iota.
    split; [|exact Htv]. now destruct (decide (STATUS a = STATUS a)).
  - assert (Ht : pass_target mode t) by (eapply decide_target; exact Hd).
    apply Htarget; [exact Ht|exact Ht].
  - destruct tv as [t|].
    + apply Htarget; exact Htv.
    + eexists _, (plat w), msgs. split; [reflexivity|].
      split; [now apply messages_call_nothing|]. cbn beta iota.
      split; [reflexivity|].
      split; intros ->; apply Hmode; auto.
Qed.

Lemma differences_refl (l : list (option string)) : differences l l = 0.
Proof.
  induction l as [|x l IH]; [reflexivity|]. cbn [differences].
  now destruct (decide (x = x)).
Qed.

Lemma differences_bounded (l l' : list (option string)) :
  differences l l' <= length l.
Proof.
  revert l'. induction l as [|x l IH]; intros [|y l']; cbn; try lia.
  specialize (IH l'). destruct (decide (x = y)); lia.
Qed.

Lemma differences_app (l1 l1' l2 l2' : list (option string)) :
  length l1 = length l1' ->
  differences (l1 ++ l2) (l1' ++ l2')
  = differences l1 l1' + differences l2 l2'.
Proof.
  revert l1'. induction l1 as [|x l1 IH]; intros [|y l1'] Hlen;
    try discriminate; [reflexivity|].
  cbn [app differences]. rewrite IH by (cbn in Hlen; lia). lia.
Qed.

Lemma process_adset_items_account (mode : string) (threshold : Q)
    (adsets : list (string * adset_info)) (st : counters) (w : world pf) :
  target_var_ok mode (target_status_var st) ->
  exists r p evs,
    process_adset_items mode threshold adsets st w
    = (r, World p (trace w ++ evs))
    /\ pass_calls mode (map fst adsets) evs
    /\ match r with
       | Return (adsets', st') =>
           map fst adsets' = map fst adsets
           /\ total_processed st' = total_processed st + length adsets
           /\ total_updated st'
              = total_updated st
                + differences (adset_statuses adsets) (adset_statuses adsets')
           /\ target_var_ok mode (target_status_var st')
       | Raise e =>
           e = UnboundLocalError "target_status"
           /\ mode <> "ON" /\ mode <> "OFF"
       end.
Proof.
  revert st w. induction adsets as [|[id a] rest IH]; intros st w Htv.
  - exists (Return ([], st)), (plat w), [].
    split; [destruct w; cbn; now rewrite app_nil_r|].
    split; [constructor|]. cbn. repeat split; try lia. exact Htv.
  - cbn [process_adset_items].
    destruct (process_adset_account mode threshold (target_status_var st)
                id a w Htv) as (r1 & p1 & evs1 & Hrun1 & Hcalls1 & Hr1).
    unfold bind at 1. rewrite Hrun1.
    destruct r1 as [[[a' tv] updated]|e].
    + destruct Hr1 as [Hupd Htv1].
      match goal with
      | |- context [process_adset_items _ _ rest ?s] =>
          destruct (IH s (World p1 (trace w ++ evs1)) Htv1)
            as (r2 & p2 & evs2 & Hrun2 & Hcalls2 & Hr2)
      end.
      unfold bind at 1. rewrite Hrun2. cbn [trace].
      exists (match r2 with
              | Return (rest', st'') => Return ((id, a') :: rest', st'')
              | Raise e => Raise e
              end), p2, (evs1 ++ evs2).
      split; [destruct r2 as [[rest' st'']|e]; unfold ret;
              now rewrite <- app_assoc|].
      split.
      { apply calls_within_app.
        - eapply pass_calls_more; [|exact Hcalls1].
          intros e [<-|[]]. now left.
        - eapply pass_calls_more; [|exact Hcalls2].
          intros e He. now right. }
      destruct r2 as [[rest' st'']|e]; [|exact Hr2].
      destruct Hr2 as (Hids & Hn & Hu & Htv2).
      cbn [total_processed total_updated] in *.
      split; [cbn [map fst]; now rewrite Hids|].
      split; [cbn [length]; lia|]. split; [|exact Htv2].
      unfold adset_statuses in *. cbn [map snd differences].
      rewrite Hu, Hupd. lia.
    + exists (Raise e), p1, evs1. split; [reflexivity|].
      split; [|exact Hr1].
      eapply pass_calls_more; [|exact Hcalls1]. intros x [<-|[]]. now left.
Qed.

Lemma process_campaign_items_account (code mode : string) (threshold : Q)
    (data : list (string * campaign_info)) (st : counters) (w : world pf) :
  target_var_ok mode (target_status_var st) ->
  exists r p evs,
    process_campaign_items code mode threshold data st w
    = (r, World p (trace w ++ evs))
    /\ pass_calls mode (ids_in_scope code data) evs
    /\ match r with
       | Return (data', st') =>
           map fst data' = map fst data
           /\ total_processed st'
              = total_processed st + adsets_in_scope code data
           /\ total_updated st'
              = total_updated st
                + differences (statuses data) (statuses data')
           /\ differences (statuses data) (statuses data')
              <= adsets_in_scope code data
           /\ target_var_ok mode (target_status_var st')
       | Raise e =>
           e = UnboundLocalError "target_status"
           /\ mode <> "ON" /\ mode <> "OFF"
       end.
Proof.
  revert st w. induction data as [|[cid c] rest IH]; intros st w Htv.
  - exists (Return ([], st)), (plat w), [].
    split; [destruct w; cbn; now rewrite app_nil_r|].
    split; [constructor|]. cbn. repeat split; try lia. exact Htv.
  - cbn [process_campaign_items ids_in_scope adsets_in_scope].
    destruct (is_campaign_code_match (default "" (campaign_name c)) code).
    + cbn [negb]. unfold bind at 1, say, emit. cbn [plat trace].
      destruct (process_adset_items_account mode threshold
                  (default [] (ADSETS c)) st
                  (World (plat w)
                     (trace w ++ [EvMsg (MsgProcessingCampaign
                                           (default "" (campaign_name c)))]))
                  Htv)
        as (r1 & p1 & evs1 & Hrun1 & Hcalls1 & Hr1).
      unfold bind at 1. rewrite Hrun1. cbn [trace].
      destruct r1 as [[adsets' st']|e].
      * destruct Hr1 as (Hids1 & Hn1 & Hu1 & Htv1).
        unfold bind at 1.
        match goal with
        | |- context [process_campaign_items _ _ _ rest st' ?w1] =>
            destruct (IH st' w1 Htv1)
              as (r2 & p2 & evs2 & Hrun2 & Hcalls2 & Hr2)
        end.
        rewrite Hrun2. cbn [trace].
        eexists (match r2 with
                 | Return (rest', st'') => Return ((cid, _) :: rest', st'')
                 | Raise e => Raise e
                 end), p2, ([_] ++ evs1 ++ evs2).
        split; [destruct r2 as [[rest' st'']|e]; unfold ret;
                rewrite <- !app_assoc; reflexivity|].
        split.
        { apply calls_within_app; [repeat constructor|].
          apply calls_within_app.
          - eapply pass_calls_more; [|exact Hcalls1].
            intros e He. apply in_or_app. now left.
          - eapply pass_calls_more; [|exact Hcalls2].
            intros e He. apply in_or_app. now right. }
        destruct r2 as [[rest' st'']|e]; [|exact Hr2].
        destruct Hr2 as (Hids & Hn & Hu & Hle & Htv2).
        assert (Hst : statuses ((cid, c) :: rest)
                      = adset_statuses (default [] (ADSETS c))
                        ++ statuses rest) by reflexivity.
        assert (Hst' : statuses
                         ((cid,
                           CampaignInfo (campaign_name c) (C_STATUS c)
                             (C_CPP c)
                             match ADSETS c with
                             | Some _ => Some adsets'
                             | None => None
                             end) :: rest')
                       = adset_statuses adsets' ++ statuses rest').
        { unfold statuses. cbn [map concat snd ADSETS].
          f_equal. destruct (ADSETS c); [reflexivity|].
          cbn [default from_option Datatypes.id] in Hids1.
          now destruct adsets'. }
        rewrite Hst, Hst'.
        assert (Hlen : length (adset_statuses (default [] (ADSETS c)))
                       = length (adset_statuses adsets')).
        { unfold adset_statuses. rewrite !length_map.
          rewrite <- (length_map fst adsets'), Hids1. now rewrite length_map. }
        rewrite (differences_app _ _ _ _ Hlen).
        pose proof (differences_bounded
                      (adset_statuses (default [] (ADSETS c)))
                      (adset_statuses adsets')) as Hb.
        unfold adset_statuses in Hb at 3. rewrite length_map in Hb.
        cbn [total_processed total_updated] in *.
        split; [cbn [map fst]; now rewrite Hids|].
        repeat split; try lia. exact Htv2.
      * exists (Raise e), p1, ([EvMsg (MsgProcessingCampaign
                                         (default "" (campaign_name c)))]
                               ++ evs1).
        split; [now rewrite <- app_assoc|]. split; [|exact Hr1].
        apply calls_within_app; [repeat constructor|].
        eapply pass_calls_more; [|exact Hcalls1].
        intros x Hx. apply in_or_app. now left.
    + cbn [negb app Nat.add].
      destruct (IH st w Htv) as (r2 & p2 & evs2 & Hrun2 & Hcalls2 & Hr2).
      unfold bind at 1. rewrite Hrun2.
      exists (match r2 with
              | Return (rest', st') => Return ((cid, c) :: rest', st')
              | Raise e => Raise e
              end), p2, evs2.
      split; [now destruct r2 as [[rest' st']|e]|].
      split; [exact Hcalls2|].
      destruct r2 as [[rest' st']|e]; [|exact Hr2].
      destruct Hr2 as (Hids & Hn & Hu & Hle & Htv2).
      assert (Hst : forall l, statuses ((cid, c) :: l)
                    = adset_statuses (default [] (ADSETS c)) ++ statuses l)
        by reflexivity.
      rewrite !Hst, differences_app, differences_refl by reflexivity.
      split; [cbn [map fst]; now rewrite Hids|].
      repeat split; try lia. exact Htv2.
Qed.

Lemma process_adsets_account (sd : schedule)
    (data : list (string * campaign_info)) (w : world pf) :
  exists r p evs,
    process_adsets sd data w = (Return r, World p (trace w ++ evs))
    /\ pass_calls (upper (default "" (on_off sd)))
         (ids_in_scope (default "" (campaign_code sd)) data) evs
    /\ match r with
       | Processed n u code data' =>
           campaign_code sd = Some code
           /\ n = adsets_in_scope code data
           /\ u = differences (statuses data) (statuses data')
           /\ u <= n
           /\ map fst data' = map fst data
       | ErrorInProcessAdsets e =>
           (p = plat w /\ evs = [EvMsg (MsgError e)]
            /\ (campaign_code sd = None /\ e = KeyError "campaign_code"
                \/ cpp_metric sd = Malformed /\ e = ValueError
                \/ on_off sd = None /\ e = KeyError "on_off"))
           \/ (e = UnboundLocalError "target_status"
               /\ upper (default "" (on_off sd)) <> "ON"
               /\ upper (default "" (on_off sd)) <> "OFF")
       end.
Proof.
  unfold process_adsets, try_except.
  destruct (campaign_code sd) as [code|] eqn:Hcode.
  2:{ eexists _, (plat w), _. split; [reflexivity|].
      split; [repeat constructor|]. left. repeat split. now left. }
  destruct (cpp_metric sd) as [|threshold|] eqn:Hcpp.
  3:{ eexists _, (plat w), _. split; [reflexivity|].
      split; [repeat constructor|]. left. repeat split. right. now left. }
  all: destruct (on_off sd) as [mode|] eqn:Hmode.
  2,4: eexists _, (plat w), _; (split; [reflexivity|]);
       (split; [repeat constructor|]); left; repeat split; right; now right.
  all: cbn [getitem to_float default from_option Datatypes.id].
  all: unfold bind at 1; unfold bind at 1; unfold bind at 1;
       unfold bind at 1; unfold lift; cbv beta iota;
       cbn [say emit plat trace]; unfold bind at 1.
  all: match goal with
       | |- context [process_campaign_items _ _ ?thr _ ?s ?w1] =>
           destruct (process_campaign_items_account code (upper mode) thr
                       data s w1 I)
             as (r & p & evs & Hrun & Hcalls & Hr)
       end.
  all: rewrite Hrun; cbn [trace].
  all: destruct r as [[data' st]|e].
  all: unfold bind, say, emit, ret; cbn [plat trace].
  all: eexists _, p, _; (split; [rewrite <- !app_assoc; reflexivity|]).
  all: split;
         [apply calls_within_app; [repeat constructor|];
          apply calls_within_app; [exact Hcalls|repeat constructor]|].
  1,3: destruct Hr as (Hids & Hn & Hu & Hle & _);
       cbn [total_processed total_updated] in *; rewrite Hn, Hu;
       repeat split; [lia|exact Hids].
  all: right; exact Hr.
Qed.

End Pass.

(** A decision pass never raises, every platform call it makes is for an
    ad set of a campaign that passes the code filter, and every write asks
    for PAUSED, or for ACTIVE when the mode is ON. *)
Theorem pass_calls_stay_in_scope (pf : platform) (sd : schedule)
    (data : list (string * campaign_info)) (w : world pf)
    (code mode : string) :
  campaign_code sd = Some code ->
  on_off sd = Some mode ->
  exists r p evs,
    process_adsets sd data w = (Return r, World p (trace w ++ evs))
    /\ calls_within
         (fun entity status =>
            In entity (ids_in_scope code data)
            /\ (status = "PAUSED"
                \/ (status = "ACTIVE" /\ upper mode = "ON")))
         (fun entity => In entity (ids_in_scope code data)) evs.
Proof.
  intros Hcode Hmode.
  destruct (process_adsets_account sd data w)
    as (r & p & evs & Hrun & Hcalls & _).
  rewrite Hcode, Hmode in Hcalls. exists r, p, evs. split; [exact Hrun|].
  exact Hcalls.
Qed.

Lemma pass_calls_stay_in_scope_witness :
  exists r p evs,
    process_adsets (demo_schedule "on" 5) demo_campaigns
      (World (∅ : pstate obedient_platform) [])
    = (Return r, World p evs)
    /\ calls_within
         (fun entity status =>
            In entity ["a1"; "a2"; "a3"]
            /\ (status = "PAUSED" \/ (status = "ACTIVE" /\ "ON" = "ON")))
         (fun entity => In entity ["a1"; "a2"; "a3"]) evs.
Proof.
  exact (pass_calls_stay_in_scope obedient_platform (demo_schedule "on" 5)
           demo_campaigns (World (∅ : pstate obedient_platform) [])
           "P100" "on" eq_refl eq_refl).
Defined.

(** When a pass ends with its summary, [total_updated] is the number of ad
    sets whose recorded status differs from the one the snapshot came in
    with; it is at most [total_processed], and the snapshot keeps its
    campaigns. *)
Theorem updated_counts_changed_statuses (pf : platform) (sd : schedule)
    (data data' : list (string * campaign_info)) (w w' : world pf)
    (n u : nat) (code : string) :
  process_adsets sd data w = (Return (Processed n u code data'), w') ->
  u = differences (statuses data) (statuses data')
  /\ u <= n
  /\ map fst data' = map fst data.
Proof.
  intros Hrun.
  destruct (process_adsets_account sd data w)
    as (r & p & evs & Hrun' & _ & Hr).
  rewrite Hrun in Hrun'. injection Hrun' as <- _. tauto.
Qed.

Lemma updated_counts_changed_statuses_witness :
  exists data',
    2 = differences (statuses demo_campaigns) (statuses data')
    /\ 2 <= 3
    /\ map fst data' = map fst demo_campaigns.
Proof.
  eexists.
  eapply (updated_counts_changed_statuses obedient_platform
            (demo_schedule "OFF" 5) demo_campaigns _
            (World (∅ : pstate obedient_platform) []) _ 3 2 "P100").
  vm_compute. reflexivity.
Defined.



Lemma skipped_campaigns_raise (pf : platform) (code mode : string)
    (threshold : Q) (skipped data : list (string * campaign_info))
    (st : counters) (w w1 : world pf) (e : exn) :
  Forall (fun x => is_campaign_code_match
                     (default "" (campaign_name (snd x))) code = false)
         skipped ->
  process_campaign_items code mode threshold data st w = (Raise e, w1) ->
  process_campaign_items code mode threshold (skipped ++ data) st w
  = (Raise e, w1).
Proof.
  intros Hs Hrun. induction Hs as [|[cid c] skipped Hc _ IH]; [exact Hrun|].
  cbn [app process_campaign_items]. cbn [snd] in Hc. rewrite Hc.
  cbn [negb]. unfold bind. now rewrite IH.
Qed.

(** With a mode that is neither ON nor OFF, a pass whose first ad set in
    scope has a non-zero numeric metric reads [target_status] before any
    assignment: it ends with the error, having called nothing. *)
Theorem unknown_mode_stops_at_first_spending_ad_set (pf : platform)
    (sd : schedule) (skipped rest : list (string * campaign_info))
    (cid : string) (c : campaign_info) (id : string) (a : adset_info)
    (more : list (string * adset_info)) (code mode : string)
    (threshold q : Q) (w : world pf) :
  campaign_code sd = Some code ->
  to_float (cpp_metric sd) 0 = Return threshold ->
  on_off sd = Some mode ->
  upper mode <> "ON" -> upper mode <> "OFF" ->
  Forall (fun x => is_campaign_code_match
                     (default "" (campaign_name (snd x))) code = false)
         skipped ->
  is_campaign_code_match (default "" (campaign_name c)) code = true ->
  ADSETS c = Some ((id, a) :: more) ->
  CPP a = Some (PNum q) -> Qeq_bool q 0 = false ->
  process_adsets sd (skipped ++ (cid, c) :: rest) w
  = (Return (ErrorInProcessAdsets (UnboundLocalError "target_status")),
     World (plat w)
       (trace w
        ++ [EvMsg (MsgProcessingAdsets threshold (upper mode));
            EvMsg (MsgProcessingCampaign (default "" (campaign_name c)));
            EvMsg (MsgError (UnboundLocalError "target_status"))])).
Proof.
  intros Hcode Hthr Hmode Hon Hoff Hs Hc Hads Hcpp Hq.
  apply String.eqb_neq in Hon, Hoff.
  unfold process_adsets, try_except. rewrite Hcode, Hthr, Hmode.
  cbn [getitem]. unfold bind at 1. unfold bind at 1. unfold bind at 1.
  unfold bind at 1. unfold lift. cbv beta iota. cbn [say emit plat trace].
  unfold bind at 1.
  match goal with
  | |- context [process_campaign_items _ _ _ _ ?s ?w1] =>
      rewrite (skipped_campaigns_raise pf code (upper mode) threshold
                 skipped ((cid, c) :: rest) s w1
                 (World (plat w)
                    (trace w
                     ++ [EvMsg (MsgProcessingAdsets threshold (upper mode));
                         EvMsg (MsgProcessingCampaign
                                  (default "" (campaign_name c)))]))
                 (UnboundLocalError "target_status") Hs)
  end.
  - unfold bind, say, emit, ret. cbn [plat trace].
    rewrite <- !app_assoc. reflexivity.
  - cbn [process_campaign_items]. rewrite Hc, Hads. cbn [negb].
    cbn [default from_option Datatypes.id process_adset_items].
    unfold process_adset, decide_adset. rewrite Hcpp.
    cbn [default from_option Datatypes.id]. rewrite Hq, Hon, Hoff.
    unfold bind, say, emit, ret, raise. cbn [plat trace target_status_var].
    rewrite <- !app_assoc. reflexivity.
Qed.

Lemma unknown_mode_stops_at_first_spending_ad_set_witness :
  process_adsets (demo_schedule "on " 5)
    ([("c0", CampaignInfo (Some "PageA-ItemB-P200") (Some "ACTIVE")
               (Some (PNum 7)) (Some []))]
     ++ ("c1",
         CampaignInfo (Some "PageA-ItemB-P100") (Some "ACTIVE")
           (Some (PNum 7))
           (Some [("a2", AdsetInfo (Some "Ad set 2") (Some "ACTIVE")
                           (Some (PNum 7)))])) :: [])
    (World (tt : pstate (stuck_platform "ACTIVE")) [])
  = (Return (ErrorInProcessAdsets (UnboundLocalError "target_status")),
     @World (stuck_platform "ACTIVE") tt
       ([]
        ++ [EvMsg (MsgProcessingAdsets 5 (upper "on "));
            EvMsg (MsgProcessingCampaign
                     (default "" (Some "PageA-ItemB-P100")));
            EvMsg (MsgError (UnboundLocalError "target_status"))])).
Proof.
  apply (unknown_mode_stops_at_first_spending_ad_set
           (stuck_platform "ACTIVE") (demo_schedule "on " 5)
           [("c0", CampaignInfo (Some "PageA-ItemB-P200") (Some "ACTIVE")
                     (Some (PNum 7)) (Some []))]
           [] "c1"
           (CampaignInfo (Some "PageA-ItemB-P100") (Some "ACTIVE")
              (Some (PNum 7))
              (Some [("a2", AdsetInfo (Some "Ad set 2") (Some "ACTIVE")
                              (Some (PNum 7)))]))
           "a2" (AdsetInfo (Some "Ad set 2") (Some "ACTIVE") (Some (PNum 7)))
           [] "P100" "on " 5 7
           (World (tt : pstate (stuck_platform "ACTIVE")) []));
    try reflexivity; try (vm_compute; discriminate).
  constructor; [reflexivity|constructor].
Defined.

End AdsetPassMore.

(** ** The pass over the campaigns of an entry *)

Module CampaignPassSpec.
Import PyStr Py UpdateStatus TraceMeasures.

Lemma campaign_write_more (mode : string) (ids ids' : list string)
    (evs : list event) :
  (forall e, In e ids -> In e ids') ->
  Forall (campaign_write mode ids) evs ->
  Forall (campaign_write mode ids') evs.
Proof.
  intros H Hf. eapply Forall_impl; [exact Hf|].
  intros [] He; cbn in *; tauto || (destruct He; auto).
Qed.

Lemma campaign_write_no_sleep (mode : string) (ids : list string)
    (evs : list event) :
  Forall (campaign_write mode ids) evs -> slept evs = 0.
Proof.
  induction 1 as [|e evs He _ IH]; [reflexivity|].
  destruct e; cbn in He |- *; tauto.
Qed.

Lemma campaign_write_no_commit (mode : string) (ids : list string)
    (evs : list event) (status : string) :
  Forall (campaign_write mode ids) evs -> ~ In (EvCommit status) evs.
Proof.
  intros Hf Hin. rewrite List.Forall_forall in Hf. exact (Hf _ Hin).
Qed.

Lemma campaign_write_calls (mode : string) (ids : list string)
    (evs : list event) :
  Forall (campaign_write mode ids) evs ->
  calls_within
    (fun entity status =>
       In entity ids
       /\ (status = "ACTIVE" /\ mode = "ON"
           \/ status = "PAUSED" /\ mode = "OFF"))
    (fun _ => False) evs.
Proof.
  intros Hf. eapply Forall_impl; [exact Hf|].
  intros [] He; cbn in He |- *; tauto.
Qed.

Section Pass.
Context {pf : platform}.

Lemma scheduled_campaign_items_account (mode : string) (threshold : Z)
    (data : list (string * campaign_info)) :
  forall (u : bool) (w : world pf),
  exists r p evs,
    scheduled_campaign_items mode threshold data u w
    = (r, World p (trace w ++ evs))
    /\ Forall (campaign_write mode (map fst data)) evs
    /\ count_posts evs <= length data
    /\ match r with
       | Return (data', u') =>
           map fst data' = map fst data
           /\ u' = u || existsb is_accepted_post evs
           /\ (existsb is_accepted_post evs = false -> data' = data)
       | Raise e => e = TypeError
       end.
Proof.
  induction data as [|[cid c] rest IH]; intros u w.
  - exists (Return ([], u)), (plat w), []. rewrite app_nil_r. cbn.
    split; [now destruct w|]. split; [constructor|]. split; [lia|].
    split; [reflexivity|]. split; [now rewrite orb_false_r|reflexivity].
  - cbn [scheduled_campaign_items].
    assert (Hrest : forall c' u1 w1 evs1,
      trace w1 = trace w ++ evs1 ->
      Forall (campaign_write mode [cid]) evs1 ->
      count_posts evs1 <= 1 ->
      u1 = u || existsb is_accepted_post evs1 ->
      (existsb is_accepted_post evs1 = false -> c' = c) ->
      exists r p evs,
        (let* (rest', u') :=
           scheduled_campaign_items mode threshold rest u1 in
         (ret ((cid, c') :: rest', u')
          : M (world pf) (list (string * campaign_info) * bool)))%py
          w1
        = (r, World p (trace w ++ evs))
        /\ Forall (campaign_write mode (map fst ((cid, c) :: rest))) evs
        /\ count_posts evs <= length ((cid, c) :: rest)
        /\ match r with
           | Return (data', u') =>
               map fst data' = map fst ((cid, c) :: rest)
               /\ u' = u || existsb is_accepted_post evs
               /\ (existsb is_accepted_post evs = false
                   -> data' = (cid, c) :: rest)
           | Raise e => e = TypeError
           end).
    { intros c' u1 w1 evs1 Htr Hw1 Hn1 Hu1 Hc1.
      destruct (IH u1 w1) as (r2 & p2 & evs2 & Hrun2 & Hw2 & Hn2 & Hr2).
      unfold bind. rewrite Hrun2, Htr.
      exists (match r2 with
              | Return (rest', u') => Return ((cid, c') :: rest', u')
              | Raise e => Raise e
              end), p2, (evs1 ++ evs2).
      split; [destruct r2 as [[rest' u']|e]; unfold ret;
              now rewrite <- app_assoc|].
      split.
      { apply Forall_app. split.
        - eapply campaign_write_more; [|exact Hw1].
          intros e [<-|[]]. now left.
        - eapply campaign_write_more; [|exact Hw2].
          intros e He. now right. }
      split; [rewrite RetrySpec.count_posts_app; cbn [length]; lia|].
      destruct r2 as [[rest' u']|e]; [|exact Hr2].
      destruct Hr2 as (Hids & Hu2 & Hd2). rewrite existsb_app.
      split; [cbn [map fst]; now rewrite Hids|].
      split; [rewrite Hu2, Hu1; now rewrite orb_assoc|].
      intros [H1 H2]%orb_false_elim. now rewrite Hc1, Hd2. }
    assert (Hnone : exists r p evs,
      (say (MsgCampaignRemains cid (default "" (C_STATUS c)));;
       let* (rest', u0) := scheduled_campaign_items mode threshold rest u in
       (ret ((cid, c) :: rest', u0)
        : M (world pf) (list (string * campaign_info) * bool)))%py w
      = (r, World p (trace w ++ evs))
      /\ Forall (campaign_write mode (map fst ((cid, c) :: rest))) evs
      /\ count_posts evs <= length ((cid, c) :: rest)
      /\ match r with
         | Return (data', u') =>
             map fst data' = map fst ((cid, c) :: rest)
             /\ u' = u || existsb is_accepted_post evs
             /\ (existsb is_accepted_post evs = false
                 -> data' = (cid, c) :: rest)
         | Raise e => e = TypeError
         end).
    { unfold bind at 1, say, emit.
      eapply Hrest; [reflexivity|repeat constructor|cbn; lia|
                     cbn; now rewrite orb_false_r|reflexivity]. }
    assert (Hsome : forall s,
      (s = "ACTIVE" /\ mode = "ON" \/ s = "PAUSED" /\ mode = "OFF") ->
      exists r p evs,
        (let* (c', u0) :=
           (if negb (String.eqb (default "" (C_STATUS c)) s) then
              let* success := update_facebook_status cid s in
              if success : bool then
                say (MsgCampaignUpdated cid s);;
                ret (set_campaign_status c s, true)
              else ret (c, u)
            else ret (c, u)) in
         let* (rest', u') :=
           scheduled_campaign_items mode threshold rest u0 in
         (ret ((cid, c') :: rest', u')
          : M (world pf) (list (string * campaign_info) * bool)))%py w
        = (r, World p (trace w ++ evs))
        /\ Forall (campaign_write mode (map fst ((cid, c) :: rest))) evs
        /\ count_posts evs <= length ((cid, c) :: rest)
        /\ match r with
           | Return (data', u') =>
               map fst data' = map fst ((cid, c) :: rest)
               /\ u' = u || existsb is_accepted_post evs
               /\ (existsb is_accepted_post evs = false
                   -> data' = (cid, c) :: rest)
           | Raise e => e = TypeError
           end).
    { intros s Hs.
      destruct (String.eqb (default "" (C_STATUS c)) s); cbn [negb].
      - unfold bind at 1, ret at 1.
        apply (Hrest c u w []); [now rewrite app_nil_r|constructor|cbn; lia|
                                 cbn; now rewrite orb_false_r|reflexivity].
      - unfold bind at 1. unfold bind at 1. unfold update_facebook_status.
        destruct (post_status pf cid s (plat w)) as [[] p1] eqn:Hpost;
          unfold bind at 1, say, emit, ret; cbn [plat trace].
        + unfold bind at 1. cbv beta iota. cbn [plat trace].
          eapply (Hrest _ _ _ [EvPost cid s true; EvMsg (MsgUpdated cid s);
                               EvMsg (MsgCampaignUpdated cid s)]).
          * cbn [trace]. rewrite <- !app_assoc. reflexivity.
          * constructor; [split; [now left|exact Hs]|repeat constructor].
          * cbn. lia.
          * cbn. now rewrite orb_true_r.
          * cbn. discriminate.
        + cbv beta iota. cbn [plat trace].
          eapply (Hrest _ _ _ [EvPost cid s false;
                               EvMsg (MsgUpdateError cid s)]).
          * cbn [trace]. rewrite <- !app_assoc. reflexivity.
          * constructor; [split; [now left|exact Hs]|repeat constructor].
          * cbn. lia.
          * cbn. now rewrite orb_false_r.
          * reflexivity. }
    destruct (String.eqb mode "ON") eqn:Eon;
      destruct (String.eqb mode "OFF") eqn:Eoff;
      try apply String.eqb_eq in Eon; try apply String.eqb_eq in Eoff;
      try (subst mode; discriminate).
    + destruct (default (PNum 0) (C_CPP c)) as [q| |]; cbn [py_lt].
      * destruct (Qlt_bool q (inject_Z threshold)).
        -- exact (Hsome "ACTIVE" (or_introl (conj eq_refl Eon))).
        -- exact Hnone.
      * exact Hnone.
      * exists (Raise TypeError), (plat w), []. rewrite app_nil_r.
        split; [now destruct w|]. split; [constructor|].
        split; [cbn; lia|reflexivity].
    + destruct (default (PNum 0) (C_CPP c)) as [q| |]; cbn [py_ge].
      * destruct (Qle_bool (inject_Z threshold) q).
        -- exact (Hsome "PAUSED" (or_intror (conj eq_refl Eoff))).
        -- exact Hnone.
      * exact (Hsome "PAUSED" (or_intror (conj eq_refl Eoff))).
      * exists (Raise TypeError), (plat w), []. rewrite app_nil_r.
        split; [now destruct w|]. split; [constructor|].
        split; [cbn; lia|reflexivity].
    + exact Hnone.
Qed.

Lemma process_scheduled_campaigns_account (sd : schedule)
    (row : option campaign_entry) (w : world pf) :
  let data := default [] (row ≫= matched_campaign_data) in
  exists r p evs tail,
    process_scheduled_campaigns sd row w
    = (r, World p (trace w ++ evs ++ tail))
    /\ Forall (campaign_write (default "" (on_off sd)) (map fst data)) evs
    /\ count_posts evs <= length data
    /\ match r with
       | Raise e => evs = [] /\ tail = []
       | Return NoCampaignData => row = None /\ evs = [] /\ tail = []
       | Return NoMatchedCampaignData =>
           data = [] /\ evs = [] /\ tail = [EvMsg MsgNoMatchedData]
       | Return (ProcessedScheduled wt entry') =>
           if existsb is_accepted_post evs
           then tail = [EvCommit "Success"; EvMsg (MsgStatusesUpdated wt)]
                /\ exists data', entry' = CampaignEntry (Some data')
                                 /\ map fst data' = map fst data
           else tail = [] /\ row = Some entry'
       | Return (ErrorProcessingScheduled wt e) =>
           e = TypeError /\ tail = [EvCommit "Failed"; EvMsg (MsgError e)]
       end.
Proof.
  intros data. unfold process_scheduled_campaigns.
  assert (Hraise : forall e,
    exists (r : exc scheduled_result) p evs tail,
      (Raise e, w) = (r, World p (trace w ++ evs ++ tail))
      /\ Forall (campaign_write (default "" (on_off sd)) (map fst data)) evs
      /\ count_posts evs <= length data
      /\ match r with
         | Raise e => evs = [] /\ tail = []
         | Return NoCampaignData => row = None /\ evs = [] /\ tail = []
         | Return NoMatchedCampaignData =>
             data = [] /\ evs = [] /\ tail = [EvMsg MsgNoMatchedData]
         | Return (ProcessedScheduled wt entry') =>
             if existsb is_accepted_post evs
             then tail = [EvCommit "Success"; EvMsg (MsgStatusesUpdated wt)]
                  /\ exists data', entry' = CampaignEntry (Some data')
                                   /\ map fst data' = map fst data
             else tail = [] /\ row = Some entry'
         | Return (ErrorProcessingScheduled wt e) =>
             e = TypeError /\ tail = [EvCommit "Failed"; EvMsg (MsgError e)]
         end).
  { intros e. exists (Raise e), (plat w), [], []. cbn [app].
    rewrite app_nil_r. split; [now destruct w|].
    split; [constructor|]. split; [cbn; lia|tauto]. }
  destruct (campaign_code sd) as [code|]; [|apply Hraise].
  destruct (watch sd) as [wt|]; [|apply Hraise].
  destruct (to_int (cpp_metric sd) 0) as [threshold|e]; [|apply Hraise].
  destruct (on_off sd) as [mode|]; [|apply Hraise].
  cbn [default from_option Datatypes.id] in *. clear Hraise.
  destruct row as [entry|].
  2:{ exists (Return NoCampaignData), (plat w), [], []. cbn [app].
      rewrite app_nil_r. split; [now destruct w|].
      split; [constructor|]. split; [cbn; lia|tauto]. }
  destruct entry as [md]. subst data.
  cbn [mbind option_bind matched_campaign_data].
  unfold try_except, scheduled_body. cbn [matched_campaign_data].
  assert (Hempty : md = None \/ md = Some [] ->
    exists (r : exc scheduled_result) p evs tail,
      (Return NoMatchedCampaignData,
       World (plat w) (trace w ++ [EvMsg MsgNoMatchedData]))
      = (r, World p (trace w ++ evs ++ tail))
      /\ Forall (campaign_write mode (map fst (default [] md))) evs
      /\ count_posts evs <= length (default [] md)
      /\ match r with
         | Raise e => evs = [] /\ tail = []
         | Return NoCampaignData =>
             Some (CampaignEntry md) = None /\ evs = [] /\ tail = []
         | Return NoMatchedCampaignData =>
             default [] md = [] /\ evs = []
             /\ tail = [EvMsg MsgNoMatchedData]
         | Return (ProcessedScheduled wt entry') =>
             if existsb is_accepted_post evs
             then tail = [EvCommit "Success"; EvMsg (MsgStatusesUpdated wt)]
                  /\ exists data', entry' = CampaignEntry (Some data')
                                   /\ map fst data' = map fst (default [] md)
             else tail = [] /\ Some (CampaignEntry md) = Some entry'
         | Return (ErrorProcessingScheduled wt e) =>
             e = TypeError /\ tail = [EvCommit "Failed"; EvMsg (MsgError e)]
         end).
  { intros Hmd. exists (Return NoMatchedCampaignData), (plat w), [],
      [EvMsg MsgNoMatchedData].
    split; [reflexivity|]. split; [constructor|]. split; [cbn; lia|].
    destruct Hmd as [-> | ->]; now repeat split. }
  destruct md as [[|x data]|]; [apply Hempty; now right| |apply Hempty; now left].
  clear Hempty. cbn [default from_option Datatypes.id].
  destruct (String.eqb wt "Campaigns").
  - destruct (scheduled_campaign_items_account mode threshold (x :: data)
                false w) as (r & p & evs & Hrun & Hw & Hn & Hr).
    unfold bind at 1. rewrite Hrun.
    destruct r as [[data' u']|e].
    + destruct Hr as (Hids & Hu & Hsame). cbn [orb] in Hu. subst u'.
      destruct (existsb is_accepted_post evs) eqn:Hacc.
      * unfold bind, say, emit, ret. cbn [plat trace].
        exists (Return (ProcessedScheduled wt (CampaignEntry (Some data')))),
          p, evs, [EvCommit "Success"; EvMsg (MsgStatusesUpdated wt)].
        split; [now rewrite <- !app_assoc|].
        split; [exact Hw|]. split; [exact Hn|]. rewrite Hacc.
        split; [reflexivity|]. now exists data'.
      * unfold ret. exists
          (Return (ProcessedScheduled wt (CampaignEntry (Some (x :: data))))),
          p, evs, []. rewrite app_nil_r.
        split; [reflexivity|]. split; [exact Hw|]. split; [exact Hn|].
        rewrite Hacc. now split.
    + subst e. unfold bind, say, emit, ret. cbn [plat trace].
      exists (Return (ErrorProcessingScheduled wt TypeError)), p, evs,
        [EvCommit "Failed"; EvMsg (MsgError TypeError)].
      split; [now rewrite <- !app_assoc|].
      split; [exact Hw|]. split; [exact Hn|]. now split.
  - unfold bind, ret.
    exists (Return (ProcessedScheduled wt (CampaignEntry (Some (x :: data))))),
      (plat w), [], []. cbn [app]. rewrite app_nil_r.
    split; [now destruct w|]. split; [constructor|].
    split; [cbn; lia|]. now split.
Qed.

End Pass.

(** The pass over the campaigns of an entry writes at most once per
    campaign, only to campaigns of the entry, ACTIVE only in mode ["ON"]
    and PAUSED only in mode ["OFF"]; it reads nothing back and never
    sleeps. *)
Theorem campaign_pass_writes_once_unverified (pf : platform) (sd : schedule)
    (entry : campaign_entry) (data : list (string * campaign_info))
    (mode : string) (w : world pf) :
  on_off sd = Some mode ->
  matched_campaign_data entry = Some data ->
  exists r p evs,
    process_scheduled_campaigns sd (Some entry) w
    = (r, World p (trace w ++ evs))
    /\ count_posts evs <= length data
    /\ slept evs = 0
    /\ calls_within
         (fun entity status =>
            In entity (map fst data)
            /\ (status = "ACTIVE" /\ mode = "ON"
                \/ status = "PAUSED" /\ mode = "OFF"))
         (fun _ => False) evs.
Proof.
  intros Hmode Hdata.
  destruct (process_scheduled_campaigns_account sd (Some entry) w)
    as (r & p & evs & tail & Hrun & Hw & Hn & Hr).
  cbn [mbind option_bind] in Hw, Hn, Hr. rewrite Hdata in Hw, Hn, Hr.
  rewrite Hmode in Hw. cbn [default from_option Datatypes.id] in Hw, Hn, Hr.
  exists r, p, (evs ++ tail). split; [exact Hrun|].
  assert (Htail : count_posts tail = 0 /\ slept tail = 0
                  /\ only_commits_and_messages tail).
  { assert (Hdone : forall l,
      tail = l -> count_posts l = 0 -> slept l = 0 ->
      only_commits_and_messages l ->
      count_posts tail = 0 /\ slept tail = 0
      /\ only_commits_and_messages tail) by (intros l ->; tauto).
    destruct r as [[| |wt entry'|wt e]|e];
      [| |destruct (existsb is_accepted_post evs)| |];
      (eapply Hdone; [apply Hr|reflexivity|reflexivity|]);
      unfold only_commits_and_messages;
      repeat (constructor; [eauto|]); constructor. }
  destruct Htail as (Hp & Hs & Hc).
  split; [rewrite RetrySpec.count_posts_app; lia|].
  split; [rewrite RetryMore.slept_app,
            (campaign_write_no_sleep _ _ _ Hw); lia|].
  apply Forall_app. split; [now apply campaign_write_calls|].
  eapply Forall_impl; [exact Hc|]. now intros e [[x ->]|[x ->]].
Qed.

Lemma campaign_pass_writes_once_unverified_witness :
  exists r p evs,
    process_scheduled_campaigns
      (Schedule (Some "P100") (Some "Campaigns") (Num 5) (Some "OFF")
         None None)
      (Some (CampaignEntry (Some demo_campaigns)))
      (World (∅ : pstate obedient_platform) [])
    = (r, World p ([] ++ evs))
    /\ count_posts evs <= length demo_campaigns
    /\ slept evs = 0
    /\ calls_within
         (fun entity status =>
            In entity (map fst demo_campaigns)
            /\ (status = "ACTIVE" /\ "OFF" = "ON"
                \/ status = "PAUSED" /\ "OFF" = "OFF"))
         (fun _ => False) evs.
Proof.
  exact (campaign_pass_writes_once_unverified obedient_platform
           (Schedule (Some "P100") (Some "Campaigns") (Num 5) (Some "OFF")
              None None)
           (CampaignEntry (Some demo_campaigns)) demo_campaigns "OFF"
           (World (∅ : pstate obedient_platform) []) eq_refl eq_refl).
Defined.

(** The pass over the campaigns commits "Success" exactly when it ends
    normally after a write that the platform accepted, and "Failed" exactly
    when it ends with an error, which is then the [TypeError] of comparing
    a missing metric; a pass that ends normally without an accepted write
    hands the entry back as it was. *)
Theorem campaign_pass_commits (pf : platform) (sd : schedule)
    (row : option campaign_entry) (w : world pf) :
  exists r p evs,
    process_scheduled_campaigns sd row w = (r, World p (trace w ++ evs))
    /\ (In (EvCommit "Success") evs
        <-> (exists wt entry', r = Return (ProcessedScheduled wt entry'))
            /\ existsb is_accepted_post evs = true)
    /\ (In (EvCommit "Failed") evs
        <-> exists wt, r = Return (ErrorProcessingScheduled wt TypeError))
    /\ (forall wt e, r = Return (ErrorProcessingScheduled wt e) ->
                     e = TypeError)
    /\ (forall wt entry',
          r = Return (ProcessedScheduled wt entry') ->
          existsb is_accepted_post evs = false -> row = Some entry').
Proof.
  destruct (process_scheduled_campaigns_account sd row w)
    as (r & p & evs & tail & Hrun & Hw & _ & Hr).
  cbv zeta in Hw, Hr.
  exists r, p, (evs ++ tail). split; [exact Hrun|].
  pose proof (campaign_write_no_commit _ _ _ "Success" Hw) as Hns.
  pose proof (campaign_write_no_commit _ _ _ "Failed" Hw) as Hnf.
  rewrite !in_app_iff, existsb_app.
  destruct r as [[| |wt entry'|wt e]|e];
    [| |destruct (existsb is_accepted_post evs) eqn:Hacc| |];
    repeat match type of Hr with
           | _ /\ _ => destruct Hr as [? Hr]
           end;
    subst; cbn [existsb is_accepted_post orb In];
    repeat match goal with
           | |- _ /\ _ => split
           | |- _ <-> _ => split
           | |- forall _, _ => intro
           | H : _ /\ _ |- _ => destruct H
           | H : exists _, _ |- _ => destruct H
           | H : _ \/ _ |- _ => destruct H
           | H : False |- _ => destruct H
           end;
    try congruence; try tauto; eauto.
Qed.

Lemma campaign_pass_commits_witness :
  exists r p evs,
    process_scheduled_campaigns
      (Schedule (Some "P100") (Some "Campaigns") (Num 5) (Some "OFF")
         None None)
      (Some (CampaignEntry (Some demo_campaigns)))
      (World (∅ : pstate obedient_platform) [])
    = (r, World p ([] ++ evs))
    /\ (In (EvCommit "Success") evs
        <-> (exists wt entry', r = Return (ProcessedScheduled wt entry'))
            /\ existsb is_accepted_post evs = true)
    /\ (In (EvCommit "Failed") evs
        <-> exists wt, r = Return (ErrorProcessingScheduled wt TypeError))
    /\ (forall wt e, r = Return (ErrorProcessingScheduled wt e) ->
                     e = TypeError)
    /\ (forall wt entry',
          r = Return (ProcessedScheduled wt entry') ->
          existsb is_accepted_post evs = false ->
          Some (CampaignEntry (Some demo_campaigns)) = Some entry').
Proof.
  exact (campaign_pass_commits obedient_platform
           (Schedule (Some "P100") (Some "Campaigns") (Num 5) (Some "OFF")
              None None)
           (Some (CampaignEntry (Some demo_campaigns)))
           (World (∅ : pstate obedient_platform) [])).
Defined.

End CampaignPassSpec.

(** ** The fetch: what is dispatched, and when *)

Module SnapshotSpec.
Import PyStr Py OnOffAdsetsWorker FetchMeasures.

Section Calm.
Variable account : string.

Lemma calm_ret {A : Type} (a : A) (P : A -> Prop) :
  P a -> calm account (ret a) P.
Proof.
  intros H w. exists (Return a), []. rewrite app_nil_r.
  split; [now destruct w|]. split; [constructor|]. now intros ? [= <-].
Qed.

Lemma calm_raise {A : Type} (e : exn) (P : A -> Prop) :
  calm account (raise e) P.
Proof.
  intros w. exists (Raise e), []. rewrite app_nil_r.
  split; [now destruct w|]. split; [constructor|]. discriminate.
Qed.

Lemma calm_lift {A : Type} (r : exc A) (P : A -> Prop) :
  (forall a, r = Return a -> P a) -> calm account (lift r) P.
Proof.
  intros H w. exists r, []. rewrite app_nil_r.
  split; [now destruct w|]. split; [constructor|exact H].
Qed.

Lemma calm_emit (e : event) (P : unit -> Prop) :
  quiet account e -> P tt -> calm account (emit e) P.
Proof.
  intros He H w. exists (Return tt), [e].
  split; [reflexivity|]. split; [now constructor|]. now intros [] _.
Qed.

Lemma calm_say (m : message) (P : unit -> Prop) :
  P tt -> calm account (say m) P.
Proof. now apply calm_emit. Qed.

Lemma calm_bind {A B : Type} (m : M world A) (k : A -> M world B)
    (P : A -> Prop) (Q : B -> Prop) :
  calm account m P -> (forall a, P a -> calm account (k a) Q) ->
  calm account (bind m k) Q.
Proof.
  intros Hm Hk w. destruct (Hm w) as (r & evs & Hrun & Hcalm & HP).
  unfold bind. rewrite Hrun. destruct r as [a|e].
  - destruct (Hk a (HP a eq_refl) (World (locks w) (queues w) (trace w ++ evs)))
      as (r2 & evs2 & Hrun2 & Hcalm2 & HQ).
    rewrite Hrun2. cbn [locks queues trace].
    exists r2, (evs ++ evs2). rewrite app_assoc.
    split; [reflexivity|]. split; [now apply Forall_app|exact HQ].
  - exists (Raise e), evs. split; [reflexivity|]. split; [exact Hcalm|].
    discriminate.
Qed.


Ltac calm_step :=
  match goal with
  | |- calm _ (bind _ _) _ =>
      eapply calm_bind with (P := anything); [|intros ? _]
  | |- calm _ (ret _) _ => apply calm_ret
  | |- calm _ (raise _) _ => apply calm_raise
  | |- calm _ (lift _) _ => apply calm_lift; intros ? _
  | |- calm _ (say _) _ => apply calm_say
  | |- calm _ (emit _) _ => apply calm_emit; [exact I || reflexivity|]
  | |- calm _ (if ?b then _ else _) _ => destruct b
  | |- anything _ => exact I
  end.

Lemma calm_process_items notify n items : forall cpp_data,
  calm account (process_items notify n items cpp_data) anything.
Proof.
  induction items as [|item rest IH]; intros cpp_data;
    cbn [process_items]; [repeat calm_step|].
  eapply calm_bind with (P := anything); [repeat calm_step|intros cpp _].
  eapply calm_bind with (P := anything); [repeat calm_step|intros _ _].
  apply IH.
Qed.

Lemma calm_insights_pages notify level more :
  forall n cur cpp_data,
  calm account (insights_pages notify account level n cur more cpp_data)
    anything.
Proof.
  induction more as [|nxt more IH]; intros n cur cpp_data;
    cbn [insights_pages];
    (eapply calm_bind with (P := anything); [repeat calm_step|intros _ _]);
    destruct cur as [|items];
    try (eapply calm_bind with (P := anything);
         [repeat calm_step|intros _ _]; repeat calm_step; fail).
  - eapply calm_bind with (P := anything); [repeat calm_step|intros _ _].
    eapply calm_bind with (P := anything);
      [apply calm_process_items|intros ? _]. repeat calm_step.
  - eapply calm_bind with (P := anything); [repeat calm_step|intros _ _].
    eapply calm_bind with (P := anything);
      [apply calm_process_items|intros ? _].
    eapply calm_bind with (P := anything); [repeat calm_step|intros _ _].
    apply IH.
Qed.

Lemma calm_get_cpp pf level notify :
  calm account (get_cpp_from_insights pf account level notify) anything.
Proof.
  unfold get_cpp_from_insights.
  eapply calm_bind with (P := anything); [repeat calm_step|intros _ _].
  destruct (insights pf account level) as [first more].
  eapply calm_bind with (P := anything);
    [apply calm_insights_pages|intros ? _].
  eapply calm_bind with (P := anything); [repeat calm_step|intros _ _].
  repeat calm_step.
Qed.

Lemma calm_campaign_pages more : forall n cur all,
  calm account (campaign_pages account n cur more all) anything.
Proof.
  induction more as [|nxt more IH]; intros n cur all;
    cbn [campaign_pages];
    (eapply calm_bind with (P := anything); [repeat calm_step|intros _ _]);
    destruct cur as [|data]; try (repeat calm_step; fail).
  eapply calm_bind with (P := anything); [repeat calm_step|intros _ _].
  apply IH.
Qed.

Lemma calm_build_adsets cpp adsets : forall acc,
  calm account (build_adsets cpp adsets acc) anything.
Proof.
  induction adsets as [|a rest IH]; intros acc; cbn [build_adsets];
    [repeat calm_step|].
  do 3 (eapply calm_bind with (P := anything); [repeat calm_step|intros ? _]).
  eapply calm_bind with (P := anything); [repeat calm_step|intros _ _].
  apply IH.
Qed.

Lemma dict_set_nonempty {A : Type} (k : string) (v : A)
    (d : list (string * A)) : dict_set k v d <> [].
Proof.
  destruct d as [|[k' v'] r]; cbn; [discriminate|].
  destruct (String.eqb k' k); discriminate.
Qed.

Lemma dict_set_Forall {A : Type} (P : string * A -> Prop) (k : string)
    (v : A) (d : list (string * A)) :
  P (k, v) -> Forall P d -> Forall P (dict_set k v d).
Proof.
  intros Hv Hd. induction Hd as [|[k' v'] r Hx Hr IH]; cbn [dict_set].
  - constructor; [exact Hv|constructor].
  - destruct (String.eqb k' k); constructor; assumption.
Qed.

Lemma calm_build_campaign_data (code : string) cpp_c cpp_a matching_campaigns :
  Forall (matching code) matching_campaigns ->
  forall acc,
  Forall (snapshot_entry code) acc ->
  (matching_campaigns = [] -> acc <> []) ->
  calm account (build_campaign_data cpp_c cpp_a matching_campaigns acc)
    (fun data => data <> [] /\ Forall (snapshot_entry code) data).
Proof.
  induction 1 as [|c rest Hc _ IH]; intros acc Hacc Hne;
    cbn [build_campaign_data]; [apply calm_ret; auto|].
  eapply calm_bind with (P := anything); [repeat calm_step|intros cid _].
  eapply calm_bind with (P := fun name => rc_name c = Some name).
  { apply calm_lift. intros name. destruct (rc_name c); now intros [= ->]. }
  intros name Hname.
  eapply calm_bind with (P := anything); [repeat calm_step|intros status _].
  eapply calm_bind with (P := anything); [repeat calm_step|intros _ _].
  eapply calm_bind with (P := anything);
    [apply calm_build_adsets|intros adsets _].
  apply IH.
  - apply dict_set_Forall; [|exact Hacc].
    destruct Hc as (name' & Hname' & Hmatch).
    exists name, adsets. cbn. repeat split. congruence.
  - intros _. apply dict_set_nonempty.
Qed.

Lemma filter_matching_sound (code : option string)
    (all_campaigns : list raw_campaign) :
  forall l,
  filter_matching code all_campaigns = Return l ->
  match code with
  | Some c => Forall (matching c) l
  | None => l = []
  end.
Proof.
  induction all_campaigns as [|c rest IH]; intros l; cbn [filter_matching].
  - intros [= <-]. destruct code; [constructor|reflexivity].
  - destruct (rc_name c) as [name|] eqn:Hname; cbn [getitem and_then];
      [|discriminate].
    destruct code as [code|]; cbn [and_then]; [|discriminate].
    destruct (filter_matching (Some code) rest) as [rest'|e];
      cbn [and_then]; [|discriminate].
    specialize (IH rest' eq_refl).
    destruct (is_campaign_code_match name code) eqn:Hm; intros [= <-];
      [|exact IH].
    constructor; [|exact IH]. now exists name.
Qed.

Variable matched_schedule : schedule.

Lemma outcome_after_quiet (r : exc fetch_result) (evs1 evs2 : list event) :
  Forall (quiet account) evs1 ->
  fetch_outcome account matched_schedule r evs2 ->
  fetch_outcome account matched_schedule r (evs1 ++ evs2).
Proof.
  intros H1 H2.
  assert (Hq : Forall (quiet account) evs2 ->
               Forall (quiet account) (evs1 ++ evs2))
    by (intros; now apply Forall_app).
  destruct r as [[]|]; cbn [fetch_outcome] in *; auto.
  destruct H2 as (-> & evs0 & data & code & -> & H0 & Hrest).
  split; [reflexivity|]. exists (evs1 ++ evs0), data, code.
  split; [now rewrite app_assoc|]. split; [now apply Forall_app|exact Hrest].
Qed.

Lemma ends_bind {A : Type} (m : M world A) (k : A -> M world fetch_result)
    (P : A -> Prop) :
  calm account m P ->
  (forall a, P a -> ends account matched_schedule (k a)) ->
  ends account matched_schedule (bind m k).
Proof.
  intros Hm Hk w. destruct (Hm w) as (r & evs & Hrun & Hcalm & HP).
  unfold bind. rewrite Hrun. destruct r as [a|e].
  - destruct (Hk a (HP a eq_refl) (World (locks w) (queues w) (trace w ++ evs)))
      as (r2 & evs2 & Hrun2 & Hout).
    rewrite Hrun2. cbn [locks queues trace].
    exists r2, (evs ++ evs2). rewrite app_assoc.
    split; [reflexivity|]. now apply outcome_after_quiet.
  - exists (Raise e), evs. split; [reflexivity|exact Hcalm].
Qed.

Lemma ends_ret (r : fetch_result) :
  (forall a, r <> Fetched a) -> ends account matched_schedule (ret r).
Proof.
  intros Hr w. exists (Return r), []. rewrite app_nil_r.
  split; [now destruct w|].
  destruct r as [|a|a|a|a|a|e]; try (now elim (Hr a)); constructor.
Qed.

Lemma ends_fetch_body pf user_id :
  ends account matched_schedule
    (fetch_body pf user_id account matched_schedule).
Proof.
  unfold fetch_body, verify.
  eapply ends_bind with (P := anything); [repeat calm_step|intros _ _].
  eapply ends_bind with (P := anything); [repeat calm_step|intros reachable _].
  destruct reachable; cbn [negb].
  2:{ eapply ends_bind with (P := anything); [repeat calm_step|intros _ _].
      apply ends_ret. discriminate. }
  eapply ends_bind with (P := anything); [repeat calm_step|intros _ _].
  eapply ends_bind with (P := anything); [apply calm_get_cpp|intros cc _].
  eapply ends_bind with (P := anything); [apply calm_get_cpp|intros ca _].
  destruct (campaigns pf account) as [first more].
  eapply ends_bind with (P := anything);
    [apply calm_campaign_pages|intros listing _].
  destruct listing as [all|]; [|apply ends_ret; discriminate].
  eapply ends_bind
    with (P := fun l => filter_matching (campaign_code matched_schedule) all
                        = Return l).
  { apply calm_lift. auto. }
  intros matching_campaigns Hfilter.
  eapply ends_bind with (P := anything); [repeat calm_step|intros _ _].
  destruct (Nat.eqb (length matching_campaigns) 0) eqn:Hlen.
  - eapply ends_bind with (P := anything); [repeat calm_step|intros _ _].
    apply ends_ret. discriminate.
  - apply Nat.eqb_neq in Hlen.
    apply filter_matching_sound in Hfilter.
    destruct (campaign_code matched_schedule) as [code|] eqn:Hcode;
      [|subst matching_campaigns; now elim Hlen].
    eapply ends_bind.
    { apply (calm_build_campaign_data code); [exact Hfilter|constructor|].
      intros ->. now elim Hlen. }
    intros data [Hne Hdata]. unfold dispatch.
    destruct (broker_up pf).
    + intros w. exists (Return (Fetched account)),
        [EvDispatch account matched_schedule data].
      split; [reflexivity|]. split; [reflexivity|].
      exists [], data, code. repeat split; auto.
    + intros w. exists (Raise BrokerError), []. rewrite app_nil_r.
      split; [now destruct w|constructor].
Qed.

End Calm.

Lemma fetch_adsets_outcome (pf : platform) (user_id : Z) (id : account_id)
    (sched : schedule) (w : world) :
  valid_account_id id = true ->
  lock_key id ∉ locks w ->
  exists r w' evs,
    fetch_adsets pf user_id id sched w = (Return r, w')
    /\ trace w'
       = trace w ++ [EvMsg MsgStarting; EvAcquire (lock_key id) true]
         ++ evs ++ [EvRelease (lock_key id)]
    /\ fetch_outcome (clean_id id) sched (Return r) evs.
Proof.
  intros Hvalid Hfree.
  unfold fetch_adsets. unfold bind at 1. cbn [say emit]. rewrite Hvalid.
  cbn [negb]. unfold bind at 1. unfold lock_acquire. cbn [locks queues trace].
  destruct (decide (lock_key id ∈ locks w)) as [Hin|_]; [contradiction|].
  cbn [negb]. unfold try_finally, try_except.
  match goal with
  | |- context [fetch_body pf user_id (clean_id id) sched ?w1] =>
      destruct (ends_fetch_body (clean_id id) sched pf user_id w1)
        as (r & evs & Hrun & Hout)
  end.
  rewrite Hrun. cbn [locks queues trace]. destruct r as [r|e].
  - eexists r, _, evs. unfold lock_release. cbn [locks queues trace].
    split; [reflexivity|]. cbn [trace]. rewrite <- !app_assoc.
    split; [reflexivity|exact Hout].
  - eexists (ErrorDuringFetch e), _, (evs ++ [EvMsg (MsgError e)]).
    unfold bind, say, emit, ret, lock_release. cbn [locks queues trace].
    split; [reflexivity|]. cbn [trace]. rewrite <- !app_assoc.
    split; [reflexivity|]. cbn [fetch_outcome] in *.
    apply Forall_app. split; [exact Hout|repeat constructor].
Qed.

(** A run of [fetch_adsets] that gets the lock sends its requests for the
    cleaned account id only; when it reports success, the event before the
    release is the one dispatch of the run, with the schedule of the run
    and a snapshot that is not empty and holds only campaigns whose name
    passes the code filter; on every other result nothing is dispatched. *)
Theorem snapshot_is_dispatched_once_and_last (pf : platform) (user_id : Z)
    (id : account_id) (sched : schedule) (w : world) :
  valid_account_id id = true ->
  lock_key id ∉ locks w ->
  exists r w' evs,
    fetch_adsets pf user_id id sched w = (Return r, w')
    /\ trace w'
       = trace w ++ [EvMsg MsgStarting; EvAcquire (lock_key id) true]
         ++ evs ++ [EvRelease (lock_key id)]
    /\ match r with
       | Fetched a =>
           a = clean_id id
           /\ exists evs0 data code,
                evs = evs0 ++ [EvDispatch (clean_id id) sched data]
                /\ Forall (quiet (clean_id id)) evs0
                /\ campaign_code sched = Some code
                /\ data <> []
                /\ Forall (snapshot_entry code) data
       | _ => Forall (quiet (clean_id id)) evs
       end.
Proof.
  intros Hvalid Hfree.
  destruct (fetch_adsets_outcome pf user_id id sched w Hvalid Hfree)
    as (r & w' & evs & Hrun & Htr & Hout).
  exists r, w', evs. split; [exact Hrun|]. split; [exact Htr|].
  destruct r; exact Hout.
Qed.

Lemma snapshot_is_dispatched_once_and_last_witness :
  exists r w' evs,
    fetch_adsets demo_platform 7 (IdStr "act_123")
      (demo_matched_schedule "P100") idle
    = (Return r, w')
    /\ trace w'
       = [] ++ [EvMsg MsgStarting;
                EvAcquire (lock_key (IdStr "act_123")) true]
         ++ evs ++ [EvRelease (lock_key (IdStr "act_123"))]
    /\ match r with
       | Fetched a =>
           a = "123"
           /\ exists evs0 data code,
                evs = evs0
                      ++ [EvDispatch "123" (demo_matched_schedule "P100")
                            data]
                /\ Forall (quiet "123") evs0
                /\ Some "P100" = Some code
                /\ data <> []
                /\ Forall (snapshot_entry code) data
       | _ => Forall (quiet "123") evs
       end.
Proof.
  refine (snapshot_is_dispatched_once_and_last demo_platform 7
            (IdStr "act_123") (demo_matched_schedule "P100") idle
            eq_refl _).
  apply not_elem_of_empty.
Defined.

Lemma snapshot_in_scope (code : string)
    (data : list (string * UpdateStatus.campaign_info)) :
  Forall (snapshot_entry code) data ->
  UpdateStatus.adsets_in_scope code data = recorded_adsets data.
Proof.
  unfold recorded_adsets.
  induction 1 as [|[cid c] rest (name & adsets & Hname & Hmatch & Hads) _ IH];
    [reflexivity|].
  cbn [UpdateStatus.adsets_in_scope map concat snd] in *.
  rewrite length_app, <- IH, Hname. cbn [default from_option Datatypes.id].
  unfold OnOffAdsetsWorker.is_campaign_code_match in Hmatch.
  unfold UpdateStatus.is_campaign_code_match.
  rewrite !CodeFilterMore.normalize_copies_agree in Hmatch.
  now rewrite Hmatch.
Qed.

(** The snapshot that a successful fetch dispatches is taken whole by the
    decision pass it is dispatched to: with the schedule of the run, in
    mode ON or OFF, the pass lets every campaign of the snapshot through
    its own code filter and counts every recorded ad set. *)
Theorem decision_pass_takes_the_whole_snapshot (pf : platform)
    (user_id : Z) (id : account_id) (sched : schedule) (w w' : world)
    (a : string) (threshold : Q) (mode : string) :
  valid_account_id id = true ->
  lock_key id ∉ locks w ->
  to_float (cpp_metric sched) 0 = Return threshold ->
  on_off sched = Some mode ->
  upper mode = "ON" \/ upper mode = "OFF" ->
  fetch_adsets pf user_id id sched w = (Return (Fetched a), w') ->
  exists evs data code,
    trace w'
    = trace w ++ evs ++ [EvDispatch a sched data; EvRelease (lock_key id)]
    /\ forall (pf' : UpdateStatus.platform) (w0 : UpdateStatus.world pf'),
       exists u data' w0',
         UpdateStatus.process_adsets sched data w0
         = (Return (UpdateStatus.Processed (recorded_adsets data) u code
                      data'),
            w0').
Proof.
  intros Hvalid Hfree Hthr Hmode Hon Hrun.
  destruct (fetch_adsets_outcome pf user_id id sched w Hvalid Hfree)
    as (r & w1 & evs & Hrun' & Htr & Hout).
  rewrite Hrun in Hrun'. injection Hrun' as <- <-.
  destruct Hout as (-> & evs0 & data & code & -> & _ & Hcode & _ & Hdata).
  exists ([EvMsg MsgStarting; EvAcquire (lock_key id) true] ++ evs0),
    data, code.
  split; [rewrite Htr, <- !app_assoc; reflexivity|].
  intros pf' w0.
  destruct (DecisionSpec.process_adsets_run sched data w0 code threshold mode
              Hcode Hthr Hmode Hon)
    as (n & u & data' & p & evs' & Hpass & Hn & _).
  exists u, data', (UpdateStatus.World p (UpdateStatus.trace w0 ++ evs')).
  now rewrite <- (snapshot_in_scope code data Hdata), <- Hn.
Qed.

Lemma decision_pass_takes_the_whole_snapshot_witness :
  exists evs data code,
    trace (snd (fetch_adsets demo_platform 7 (IdStr "act_123")
                  (demo_matched_schedule "P100") idle))
    = [] ++ evs
      ++ [EvDispatch "123" (demo_matched_schedule "P100") data;
          EvRelease (lock_key (IdStr "act_123"))]
    /\ forall (pf' : UpdateStatus.platform) (w0 : UpdateStatus.world pf'),
       exists u data' w0',
         UpdateStatus.process_adsets (demo_matched_schedule "P100") data w0
         = (Return (UpdateStatus.Processed (recorded_adsets data) u code
                      data'),
            w0').
Proof.
  refine (decision_pass_takes_the_whole_snapshot demo_platform 7
            (IdStr "act_123") (demo_matched_schedule "P100") idle
            (snd (fetch_adsets demo_platform 7 (IdStr "act_123")
                    (demo_matched_schedule "P100") idle))
            "123" 5 "OFF" eq_refl _ eq_refl eq_refl (or_intror eq_refl) _).
  - apply not_elem_of_empty.
  - vm_compute. reflexivity.
Defined.

Lemma length_append (s t : string) :
  String.length (s ++ t) = String.length s + String.length t.
Proof.
  induction s as [|c s IH]; [now rewrite CodeFilterMore.append_nil|].
  rewrite CodeFilterMore.append_cons. cbn [String.length]. now rewrite IH.
Qed.

(** The lock follows the spelling of the account id, the requests follow
    the cleaned id: an id with the prefix [act_] and the same id without it
    name the same account, yet while a run for the prefixed spelling holds
    its lock, a run for the bare spelling gets a lock of its own and
    proceeds against that account. *)
Theorem lock_follows_the_spelling (pf : platform) (user_id : Z)
    (s : string) (sched : schedule) (w : world) :
  truthy s = true ->
  locks w = {[lock_key (IdStr ("act_" ++ s)%string)]} ->
  clean_id (IdStr ("act_" ++ s)%string) = clean_id (IdStr s)
  /\ exists r w' evs,
       fetch_adsets pf user_id (IdStr s) sched w = (Return r, w')
       /\ trace w'
          = trace w ++ [EvMsg MsgStarting;
                        EvAcquire (lock_key (IdStr s)) true]
            ++ evs ++ [EvRelease (lock_key (IdStr s))]
       /\ fetch_outcome (clean_id (IdStr ("act_" ++ s)%string)) sched
            (Return r) evs.
Proof.
  intros Hvalid Hlocks.
  assert (Hclean : clean_id (IdStr ("act_" ++ s)%string)
                   = clean_id (IdStr s)).
  { unfold clean_id, remove_all. cbn [py_str].
    change ("act_" ++ s)%string
      with (String "a"%char
              (String "c"%char (String "t"%char (String "_"%char s)))).
    cbn. now destruct s. }
  split; [exact Hclean|]. rewrite Hclean.
  apply fetch_adsets_outcome; [exact Hvalid|].
  rewrite Hlocks, elem_of_singleton. intros E.
  apply (f_equal String.length) in E. unfold lock_key in E.
  rewrite !length_append in E. cbn [py_str] in E.
  rewrite length_append in E. cbn [String.length] in E. lia.
Qed.

Lemma lock_follows_the_spelling_witness :
  clean_id (IdStr ("act_" ++ "123")) = clean_id (IdStr "123")
  /\ exists r w' evs,
       fetch_adsets demo_platform 7 (IdStr "123")
         (demo_matched_schedule "P100")
         (World {[lock_key (IdStr ("act_" ++ "123"))]} ∅ [])
       = (Return r, w')
       /\ trace w'
          = [] ++ [EvMsg MsgStarting;
                   EvAcquire (lock_key (IdStr "123")) true]
            ++ evs ++ [EvRelease (lock_key (IdStr "123"))]
       /\ fetch_outcome (clean_id (IdStr ("act_" ++ "123")))
            (demo_matched_schedule "P100") (Return r) evs.
Proof.
  exact (lock_follows_the_spelling demo_platform 7 "123"
           (demo_matched_schedule "P100")
           (World {[lock_key (IdStr ("act_" ++ "123"))]} ∅ [])
           eq_refl eq_refl).
Defined.






End SnapshotSpec.

(** ** The paginated listings of the fetch *)

Module PaginationSpec.
Import PyStr Py OnOffAdsetsWorker FetchMeasures.









Lemma process_items_table notify n items :
  forall cpp_data w d w',
  process_items notify n items cpp_data w = (Return d, w') ->
  (forall id, Forall (fun x => entity_id x <> id) items ->
              d !! id = cpp_data !! id)
  /\ (forall before item after,
        items = before ++ item :: after ->
        Forall (fun x => entity_id x <> entity_id item) after ->
        exists c, item_cpp item = Return c
                  /\ d !! entity_id item = Some c).
Proof.
  induction items as [|x rest IH]; intros cpp_data w d w';
    cbn [process_items].
  - unfold ret. intros [= <- _]. split; [reflexivity|].
    intros [|? ?] ? ? H; discriminate.
  - unfold bind at 1, lift. destruct (item_cpp x) as [c|e] eqn:Ec;
      [|discriminate].
    unfold bind at 1.
    assert (Hstep : forall w1,
      process_items notify n rest (<[entity_id x := c]> cpp_data) w1
      = (Return d, w') ->
      (forall id, Forall (fun y => entity_id y <> id) (x :: rest) ->
                  d !! id = cpp_data !! id)
      /\ (forall before item after,
            x :: rest = before ++ item :: after ->
            Forall (fun y => entity_id y <> entity_id item) after ->
            exists c0, item_cpp item = Return c0
                       /\ d !! entity_id item = Some c0)).
    { intros w1 Hrun. destruct (IH _ _ _ _ Hrun) as [Hkeep Hlast]. split.
      - intros id Hid. inversion Hid as [|? ? Hx Hrest]; subst.
        rewrite (Hkeep id Hrest). now apply lookup_insert_ne.
      - intros [|y before] item after Heq Hafter; cbn [app] in Heq;
          injection Heq as -> ->.
        + exists c. split; [exact Ec|].
          rewrite (Hkeep _ Hafter). apply lookup_insert_eq.
        + now apply (Hlast before item after). }
    destruct (notify && Nat.leb n 2); unfold say, emit, ret;
      apply Hstep.
Qed.

(** The table of metrics holds, for every id, the metric of the last item
    read for that id, and what it held before for an id that no item
    carries; it is returned only when every item converted. *)
Theorem last_item_for_an_id_wins (notify : bool) (n : nat)
    (before after : list insights_item) (item : insights_item)
    (cpp_data d : gmap (option string) pyfloat) (w w' : world) :
  process_items notify n (before ++ item :: after) cpp_data w
  = (Return d, w') ->
  Forall (fun x => entity_id x <> entity_id item) after ->
  (exists c, item_cpp item = Return c /\ d !! entity_id item = Some c)
  /\ (forall id,
        Forall (fun x => entity_id x <> id) (before ++ item :: after) ->
        d !! id = cpp_data !! id).
Proof.
  intros Hrun Hafter.
  destruct (process_items_table _ _ _ _ _ _ _ Hrun) as [Hkeep Hlast].
  split; [now apply (Hlast before item after)|exact Hkeep].
Qed.

Lemma last_item_for_an_id_wins_witness :
  exists d : gmap (option string) pyfloat,
    (exists c,
       item_cpp (Item (Some "a1") (Some "Ad set 1") (Num 6) (Num 10)
                   [Action (Some "initiate_checkout") (Num 2)])
       = Return c
       /\ d !! Some "a1" = Some c)
    /\ (forall id,
          Forall (fun x => entity_id x <> id)
            (demo_items
             ++ Item (Some "a1") (Some "Ad set 1") (Num 6) (Num 10)
                  [Action (Some "initiate_checkout") (Num 2)] :: []) ->
          d !! id = (∅ : gmap (option string) pyfloat) !! id).
Proof.
  eexists.
  exact (last_item_for_an_id_wins false 1 demo_items []
           (Item (Some "a1") (Some "Ad set 1") (Num 6) (Num 10)
              [Action (Some "initiate_checkout") (Num 2)])
           ∅ _ idle _ eq_refl (Forall_nil_2 _)).
Defined.

End PaginationSpec.
